(** * Mutation-safety and resilience core of the report API

    A shallow embedding of the TypeScript sources

    - [server/src/types/index.ts]             (data model, error classes)
    - [server/src/config/index.ts]            (quotas, editor limit)
    - [server/src/services/businessRules.ts]  (the rule chain)
    - [server/src/services/dataStore.ts]      (the in-memory store)
    - [server/src/controllers/reports.ts]     (create and update endpoints)
    - [server/src/middleware/idempotency.ts]  (idempotent replay)
    - [server/src/utils/retry.ts]             (retry, backoff, circuit breaker)

    JavaScript numbers are integers here ([Z]); instants are milliseconds
    since the epoch ([Z]); the backoff delay, which the jitter makes
    fractional, is a rational ([Q]).  [Map<string, _>] is a [gmap string _].
    Exceptions are values of [AppError] carried by [result].  Logging calls
    have no effect on any value and are left out. *)

From Stdlib Require Import ZArith QArith List String Ascii Bool Lia.
From stdpp Require Import base option list gmap strings pretty.

Local Open Scope string_scope.
Local Open Scope Z_scope.

(** ** Data model: [types/index.ts] *)

Inductive UserRole := READER | EDITOR | ADMIN.
Inductive UserTier := DEFAULT | PREMIUM.
Inductive ReportStatus := DRAFT | ACTIVE | ARCHIVED | DELETED.
Inductive ReportPriority := LOW | MEDIUM | HIGH | CRITICAL.

#[global] Instance UserRole_eq_dec : EqDecision UserRole.
Proof. solve_decision. Defined.
#[global] Instance UserTier_eq_dec : EqDecision UserTier.
Proof. solve_decision. Defined.
#[global] Instance ReportStatus_eq_dec : EqDecision ReportStatus.
Proof. solve_decision. Defined.
#[global] Instance ReportPriority_eq_dec : EqDecision ReportPriority.
Proof. solve_decision. Defined.

Module User.
Record t := mk {
  id : string;
  email : string;
  name : string;
  role : UserRole;
  tier : UserTier;
  password : string;
  createdAt : Z;
  updatedAt : Z;
  storageUsed : Z
}.
End User.

(** [Record<string, any>]: keys with their values in JSON text. *)
Definition Metadata := list (string * string).

Module ReportEntry.
Record t := mk {
  id : string;
  title : string;
  content : string;
  priority : ReportPriority;
  status : ReportStatus;
  createdBy : string;
  createdAt : Z;
  updatedAt : Z;
  tags : list string;
  metadata : Metadata
}.
End ReportEntry.

Module ReportComment.
Record t := mk {
  id : string;
  content : string;
  createdBy : string;
  createdAt : Z;
  updatedAt : Z;
  parentId : option string
}.
End ReportComment.

Module Report.
Record t := mk {
  id : string;
  title : string;
  description : string;
  status : ReportStatus;
  priority : ReportPriority;
  createdBy : string;
  createdAt : Z;
  updatedAt : Z;
  lastModifiedBy : string;
  lastModifiedAt : Z;
  collaborators : list string;
  concurrentEditors : list string;
  entries : list ReportEntry.t;
  comments : list ReportComment.t;
  tags : list string;
  metadata : Metadata;
  version : Z;
  isActive : bool
}.
End Report.

(** [Partial<Report>]: every field may be absent. *)
Module PartialReport.
Record t := mk {
  id : option string;
  title : option string;
  description : option string;
  status : option ReportStatus;
  priority : option ReportPriority;
  createdBy : option string;
  createdAt : option Z;
  updatedAt : option Z;
  lastModifiedBy : option string;
  lastModifiedAt : option Z;
  collaborators : option (list string);
  concurrentEditors : option (list string);
  entries : option (list ReportEntry.t);
  comments : option (list ReportComment.t);
  tags : option (list string);
  metadata : option Metadata;
  version : option Z;
  isActive : option bool
}.

Definition empty : t :=
  mk None None None None None None None None None
     None None None None None None None None None.
End PartialReport.

(** The error classes of [types/index.ts], and [TypeError] for a property
    read on [undefined]. *)
Inductive AppError :=
| ValidationError (errors : list (string * string))
| AuthenticationError (message : string)
| AuthorizationError (message : string)
| NotFoundError (resource : string)
| ConflictError (message : string)
| TypeError.

Inductive result (A : Type) :=
| Ok (a : A)
| Throw (e : AppError).
Arguments Ok {A} a.
Arguments Throw {A} e.

Definition bind {A B} (m : result A) (k : A -> result B) : result B :=
  match m with
  | Ok a => k a
  | Throw e => Throw e
  end.

#[global] Instance result_ret : MRet result := @Ok.
#[global] Instance result_bind : MBind result :=
  fun A B k m => bind m k.

Inductive Action := ARead | ACreate | AUpdate | ADelete | AUpload.

#[global] Instance Action_eq_dec : EqDecision Action.
Proof. solve_decision. Defined.

(** The side-channel [resource] of a rule context; the upload endpoint
    passes [{fileSize: file.size}]. *)
Record Resource := { fileSize : option Z }.

(** [report] is [None] for the placeholder [{} as Report] that the create
    endpoint passes: every field of it reads as [undefined]. *)
Record BusinessRuleContext := {
  user : User.t;
  report : option Report.t;
  action : Action;
  resource : option Resource
}.

Inductive ConstraintValue :=
| CRole (r : UserRole)
| CTier (t : UserTier)
| CStatus (s : ReportStatus)
| CNum (n : Z)
| CStr (s : string)
| CStrs (l : list string).

Record BusinessRuleResult := {
  allowed : bool;
  reason : option string;
  constraints : option (list (string * ConstraintValue))
}.

(** [{allowed: true}] *)
Definition allow : BusinessRuleResult :=
  {| allowed := true; reason := None; constraints := None |}.

(** ** Configuration: [config/index.ts] *)

Record Config := {
  defaultUserQuota : Z;
  premiumUserQuota : Z;
  maxConcurrentEditors : Z;
  autoArchiveDays : Z
}.

(** The values taken when the environment sets none. *)
Definition config : Config := {|
  defaultUserQuota := 104857600;
  premiumUserQuota := 524288000;
  maxConcurrentEditors := 3;
  autoArchiveDays := 730
|}.

Definition getUserQuota (cfg : Config) (tier : UserTier) : Z :=
  if bool_decide (tier = PREMIUM) then premiumUserQuota cfg
  else defaultUserQuota cfg.

(** ** Dates

    [Date] arithmetic by calendar fields depends on the time zone of the
    host; the rules take it as a [DateLib].  [utcDate] is the UTC one. *)

Record DateLib := {
  (** [d.setFullYear(d.getFullYear() + n)] *)
  addYears : Z -> Z -> Z;
  (** [d.setDate(d.getDate() + n)] *)
  addDays : Z -> Z -> Z
}.

Definition msPerDay : Z := 86400000.

Definition days_from_civil (y m d : Z) : Z :=
  let y' := if m <=? 2 then y - 1 else y in
  let era := y' / 400 in
  let yoe := y' - era * 400 in
  let mp := if 2 <? m then m - 3 else m + 9 in
  let doy := (153 * mp + 2) / 5 + d - 1 in
  let doe := yoe * 365 + yoe / 4 - yoe / 100 + doy in
  era * 146097 + doe - 719468.

Definition civil_from_days (z : Z) : Z * Z * Z :=
  let z' := z + 719468 in
  let era := z' / 146097 in
  let doe := z' - era * 146097 in
  let yoe := (doe - doe / 1460 + doe / 36524 - doe / 146096) / 365 in
  let doy := doe - (365 * yoe + yoe / 4 - yoe / 100) in
  let mp := (5 * doy + 2) / 153 in
  let d := doy - (153 * mp + 2) / 5 + 1 in
  let m := if mp <? 10 then mp + 3 else mp - 9 in
  let y := yoe + era * 400 in
  (if m <=? 2 then y + 1 else y, m, d).

(** [new Date('YYYY-MM-DD')]: midnight UTC of that day. *)
Definition date (y m d : Z) : Z := days_from_civil y m d * msPerDay.

Definition utcDate : DateLib := {|
  addYears t n :=
    let '(y, m, d) := civil_from_days (t / msPerDay) in
    days_from_civil (y + n) m d * msPerDay + t mod msPerDay;
  addDays t n := t + n * msPerDay
|}.

(** ** The rule chain: [services/businessRules.ts] *)

Module BusinessRulesService.
Section Rules.
Variable cfg : Config.
Variable dates : DateLib.
(** The reading of the clock while a context is evaluated. *)
Variable now : Z.

(** [report.status === ReportStatus.ARCHIVED] *)
Definition statusIs (r : option Report.t) (s : ReportStatus) : bool :=
  match r with
  | Some r => bool_decide (Report.status r = s)
  | None => false
  end.

(** Rule 1: archived reports are edited by ADMIN users only. *)
Definition checkReportLifecycleManagement (context : BusinessRuleContext)
  : BusinessRuleResult :=
  if bool_decide (action context = AUpdate)
     && statusIs (report context) ARCHIVED then
    let allowed := bool_decide (User.role (user context) = ADMIN) in
    {| allowed := allowed;
       reason := Some (if allowed then ""
                       else "Only ADMIN users can edit archived reports");
       constraints := Some [("requiredRole", CRole ADMIN);
                            ("currentStatus", CStatus ARCHIVED)] |}
  else allow.

(** [resource?.fileSize] where it is truthy. *)
Definition truthyFileSize (res : option Resource) : option Z :=
  match res with
  | Some r =>
      match fileSize r with
      | Some n => if n =? 0 then None else Some n
      | None => None
      end
  | None => None
  end.

(** Rule 2: uploads stay under the quota of the user's tier. *)
Definition checkAttachmentQuota (context : BusinessRuleContext)
  : BusinessRuleResult :=
  match bool_decide (action context = AUpload),
        truthyFileSize (resource context) with
  | true, Some size =>
      let u := user context in
      let userQuota := getUserQuota cfg (User.tier u) in
      let newTotalUsage := User.storageUsed u + size in
      let allowed := newTotalUsage <=? userQuota in
      {| allowed := allowed;
         reason := Some (if allowed then ""
                         else "Storage quota exceeded. Current: "
                                +:+ pretty (User.storageUsed u)
                                +:+ ", Quota: " +:+ pretty userQuota);
         constraints := Some [("currentUsage", CNum (User.storageUsed u));
                              ("fileSize", CNum size);
                              ("quota", CNum userQuota);
                              ("tier", CTier (User.tier u))] |}
  | _, _ => allow
  end.

(** [list.includes(x)] *)
Definition includes (l : list string) (x : string) : bool :=
  bool_decide (x ∈ l).

(** Rule 3: creator, collaborators and admins edit, and at most
    [maxConcurrentEditors] of them at a time.  On the placeholder report
    [report.collaborators] is [undefined] and [.includes] throws. *)
Definition checkReportCollaboration (context : BusinessRuleContext)
  : result BusinessRuleResult :=
  if bool_decide (action context = AUpdate) then
    match report context with
    | None => Throw TypeError
    | Some r =>
        let u := user context in
        let isCreator := bool_decide (Report.createdBy r = User.id u) in
        let isCollaborator := includes (Report.collaborators r) (User.id u) in
        let isAdmin := bool_decide (User.role u = ADMIN) in
        if negb isCreator && negb isCollaborator && negb isAdmin then
          Ok {| allowed := false;
                reason := Some "Only the creator, assigned collaborators, or admins can edit this report";
                constraints := Some [("creator", CStr (Report.createdBy r));
                                     ("collaborators", CStrs (Report.collaborators r));
                                     ("userRole", CRole (User.role u))] |}
        else
          let isCurrentlyEditing :=
            includes (Report.concurrentEditors r) (User.id u) in
          let wouldExceedLimit :=
            negb isCurrentlyEditing
            && (maxConcurrentEditors cfg
                  <=? Z.of_nat (length (Report.concurrentEditors r))) in
          if wouldExceedLimit then
            Ok {| allowed := false;
                  reason := Some ("Maximum of "
                                    +:+ pretty (maxConcurrentEditors cfg)
                                    +:+ " concurrent editors allowed");
                  constraints :=
                    Some [("currentEditors",
                            CNum (Z.of_nat (length (Report.concurrentEditors r))));
                          ("maxEditors", CNum (maxConcurrentEditors cfg))] |}
          else Ok allow
    end
  else Ok allow.

(** Rule 4: reports created more than two years ago are read-only for
    non-admins.  [undefined < twoYearsAgo] is [false]. *)
Definition checkDataRetentionPolicy (context : BusinessRuleContext)
  : BusinessRuleResult :=
  let twoYearsAgo := addYears dates now (-2) in
  let isAdmin := bool_decide (User.role (user context) = ADMIN) in
  match report context with
  | Some r =>
      let isOldReport := Report.createdAt r <? twoYearsAgo in
      if isOldReport && bool_decide (action context = AUpdate) && negb isAdmin then
        {| allowed := false;
           reason := Some "Reports older than 2 years are read-only for non-admin users";
           constraints :=
             Some [("reportAge",
                     CNum ((now - Report.createdAt r) / (1000 * 60 * 60 * 24)));
                   ("maxAge", CNum (autoArchiveDays cfg));
                   ("userRole", CRole (User.role (user context)))] |}
      else allow
  | None => allow
  end.

(** General edit permissions: updates need EDITOR or ADMIN. *)
Definition checkGeneralEditPermissions (context : BusinessRuleContext)
  : BusinessRuleResult :=
  if bool_decide (action context = AUpdate) then
    let allowed := bool_decide (User.role (user context) = EDITOR)
                   || bool_decide (User.role (user context) = ADMIN) in
    if negb allowed then
      {| allowed := false;
         reason := Some "Insufficient permissions. Minimum role required: editor";
         constraints := Some [("requiredRole", CRole EDITOR);
                              ("userRole", CRole (User.role (user context)))] |}
    else allow
  else allow.

Definition Rule := BusinessRuleContext -> result BusinessRuleResult.

(** A rule that never throws, as a member of the chain. *)
Definition total (f : BusinessRuleContext -> BusinessRuleResult) : Rule :=
  fun context => Ok (f context).

Definition rules : list Rule :=
  [ total checkReportLifecycleManagement;
    total checkAttachmentQuota;
    checkReportCollaboration;
    total checkDataRetentionPolicy;
    total checkGeneralEditPermissions ].

(** [for (const rule of rules) { ... if (!result.allowed) return result }] *)
Fixpoint firstDenial (rs : list Rule) (context : BusinessRuleContext)
  : result BusinessRuleResult :=
  match rs with
  | [] => Ok allow
  | rule :: rs' =>
      res ← rule context;
      if negb (allowed res) then Ok res else firstDenial rs' context
  end.

Definition evaluateAllRules (context : BusinessRuleContext)
  : result BusinessRuleResult :=
  firstDenial rules context.

(** [report.createdAt < cutoffDate && report.status !== ARCHIVED] *)
Definition shouldAutoArchive (r : Report.t) : bool :=
  let cutoffDate := addDays dates now (- autoArchiveDays cfg) in
  (Report.createdAt r <? cutoffDate)
  && negb (bool_decide (Report.status r = ARCHIVED)).

End Rules.
End BusinessRulesService.

(** ** The in-memory store: [services/dataStore.ts] *)

Module AuditLog.
Record t := mk {
  id : string;
  userId : string;
  action : string;
  resourceType : string;
  resourceId : string;
  beforeState : option Report.t;
  afterState : option Report.t;
  timestamp : Z;
  ipAddress : string;
  userAgent : string
}.
End AuditLog.

(** [Omit<Report, 'id' | 'createdAt' | 'updatedAt' | 'version' | 'isActive'>] *)
Module ReportData.
Record t := mk {
  title : string;
  description : string;
  status : ReportStatus;
  priority : ReportPriority;
  createdBy : string;
  lastModifiedBy : string;
  lastModifiedAt : Z;
  collaborators : list string;
  concurrentEditors : list string;
  entries : list ReportEntry.t;
  comments : list ReportComment.t;
  tags : list string;
  metadata : Metadata
}.
End ReportData.

(** The maps the report operations read and write.  Identifiers drawn with
    [uuidv4()] and readings of the clock are arguments of the operation
    that draws them; the readings taken within one operation are one
    instant.  An audit entry holds its reports by value, as they were when
    it was written; no operation modelled here reads them back.  The map
    holds its reports by value as well: one object under two keys, which
    only [autoArchiveOldReports] can leave (of a report stored under
    another key than its id), is two equal values here. *)
Record InMemoryStore := {
  reports : gmap string Report.t;
  users : gmap string User.t;
  auditLogs : list AuditLog.t
}.

Module DataStore.

Definition setReports (s : InMemoryStore) (m : gmap string Report.t)
  : InMemoryStore :=
  {| reports := m; users := users s; auditLogs := auditLogs s |}.

Definition adminUser : User.t :=
  User.mk "user-1" "admin@example.com" "Admin User" ADMIN PREMIUM
    "$2a$12$rQZ8N0yqBWVHxkd0LHAkCOYz6TtxMQJqhN8/LewdBPj4J/HS.iK8O"
    (date 2024 1 1) (date 2024 1 1) 0.

Definition editorUser : User.t :=
  User.mk "user-2" "editor@example.com" "Editor User" EDITOR DEFAULT
    "$2a$12$92IXUNpkjO0rOQ5byMi.Ye4oKoEa3Ro9llC/.og/at2.uheWG/igi"
    (date 2024 1 2) (date 2024 1 2) 52428800.

Definition readerUser : User.t :=
  User.mk "user-3" "reader@example.com" "Reader User" READER DEFAULT
    "$2a$12$92IXUNpkjO0rOQ5byMi.Ye4oKoEa3Ro9llC/.og/at2.uheWG/igi"
    (date 2024 1 3) (date 2024 1 3) 10485760.

Definition sampleUsers : list User.t := [adminUser; editorUser; readerUser].

Definition report1 : Report.t :=
  Report.mk "report-1" "Q1 Financial Report"
    "Comprehensive financial analysis for Q1 2024"
    ACTIVE HIGH "user-2" (date 2024 1 15) (date 2024 1 20)
    "user-2" (date 2024 1 20) ["user-1"] []
    [ ReportEntry.mk "entry-1" "Revenue Analysis"
        "Revenue increased by 15% compared to last quarter"
        HIGH ACTIVE "user-2" (date 2024 1 15) (date 2024 1 15)
        ["finance"; "revenue"] [("department", "finance")];
      ReportEntry.mk "entry-2" "Cost Analysis"
        "Operating costs reduced by 8% through efficiency improvements"
        MEDIUM ACTIVE "user-2" (date 2024 1 16) (date 2024 1 16)
        ["finance"; "costs"] [("department", "operations")] ]
    [ ReportComment.mk "comment-1" "Excellent work on the revenue analysis"
        "user-1" (date 2024 1 17) (date 2024 1 17) None ]
    ["finance"; "quarterly"; "analysis"]
    [("fiscalYear", "2024"); ("quarter", "1")]
    1 true.

Definition report2 : Report.t :=
  Report.mk "report-2" "Old Archived Report"
    "This is an old report that should be archived"
    ARCHIVED LOW "user-2" (date 2022 1 1) (date 2022 1 1)
    "user-2" (date 2022 1 1) [] [] [] []
    ["archived"; "old"] [] 1 true.

Definition sampleReports : list Report.t := [report1; report2].

(** The store the constructor leaves: [initializeSampleData]. *)
Definition initial : InMemoryStore := {|
  reports := foldl (fun m r => <[Report.id r := r]> m) ∅ sampleReports;
  users := foldl (fun m u => <[User.id u := u]> m) ∅ sampleUsers;
  auditLogs := []
|}.

Definition createReport (reportData : ReportData.t) (uuid : string) (now : Z)
    (s : InMemoryStore) : Report.t * InMemoryStore :=
  let report :=
    Report.mk uuid
      (ReportData.title reportData) (ReportData.description reportData)
      (ReportData.status reportData) (ReportData.priority reportData)
      (ReportData.createdBy reportData) now now
      (ReportData.lastModifiedBy reportData)
      (ReportData.lastModifiedAt reportData)
      (ReportData.collaborators reportData)
      (ReportData.concurrentEditors reportData)
      (ReportData.entries reportData) (ReportData.comments reportData)
      (ReportData.tags reportData) (ReportData.metadata reportData)
      1 true in
  (report, setReports s (<[Report.id report := report]> (reports s))).

Definition getReport (id : string) (s : InMemoryStore) : option Report.t :=
  match reports s !! id with
  | Some r => if Report.isActive r then Some r else None
  | None => None
  end.

(** [updates.version] read as a condition: absent and [0] are falsy. *)
Definition truthyVersion (updates : PartialReport.t) : option Z :=
  match PartialReport.version updates with
  | Some v => if v =? 0 then None else Some v
  | None => None
  end.

(** [{...report, ...updates, updatedAt, lastModifiedBy, lastModifiedAt,
    version: report.version + 1}] *)
Definition merged (r : Report.t) (updates : PartialReport.t)
    (userId : string) (now : Z) : Report.t :=
  Report.mk
    (default (Report.id r) (PartialReport.id updates))
    (default (Report.title r) (PartialReport.title updates))
    (default (Report.description r) (PartialReport.description updates))
    (default (Report.status r) (PartialReport.status updates))
    (default (Report.priority r) (PartialReport.priority updates))
    (default (Report.createdBy r) (PartialReport.createdBy updates))
    (default (Report.createdAt r) (PartialReport.createdAt updates))
    now
    userId
    now
    (default (Report.collaborators r) (PartialReport.collaborators updates))
    (default (Report.concurrentEditors r)
       (PartialReport.concurrentEditors updates))
    (default (Report.entries r) (PartialReport.entries updates))
    (default (Report.comments r) (PartialReport.comments updates))
    (default (Report.tags r) (PartialReport.tags updates))
    (default (Report.metadata r) (PartialReport.metadata updates))
    (Report.version r + 1)
    (default (Report.isActive r) (PartialReport.isActive updates)).

Definition updateReport (id : string) (updates : PartialReport.t)
    (userId : string) (now : Z) (s : InMemoryStore)
  : result Report.t * InMemoryStore :=
  match reports s !! id with
  | None => (Throw (NotFoundError "Report"), s)
  | Some r =>
      if negb (Report.isActive r) then (Throw (NotFoundError "Report"), s)
      else
        match truthyVersion updates with
        | Some v =>
            if negb (v =? Report.version r) then
              (Throw (ConflictError "Report has been modified by another user"), s)
            else
              let updatedReport := merged r updates userId now in
              (Ok updatedReport, setReports s (<[id := updatedReport]> (reports s)))
        | None =>
            let updatedReport := merged r updates userId now in
            (Ok updatedReport, setReports s (<[id := updatedReport]> (reports s)))
        end
  end.

(** The soft delete writes [isActive], [status] and [updatedAt] of the
    stored object. *)
Definition softDeleted (r : Report.t) (now : Z) : Report.t :=
  Report.mk (Report.id r) (Report.title r) (Report.description r)
    DELETED (Report.priority r) (Report.createdBy r) (Report.createdAt r)
    now (Report.lastModifiedBy r) (Report.lastModifiedAt r)
    (Report.collaborators r) (Report.concurrentEditors r)
    (Report.entries r) (Report.comments r) (Report.tags r)
    (Report.metadata r) (Report.version r) false.

Definition deleteReport (id : string) (now : Z) (s : InMemoryStore)
  : result unit * InMemoryStore :=
  match reports s !! id with
  | None => (Throw (NotFoundError "Report"), s)
  | Some r => (Ok tt, setReports s (<[id := softDeleted r now]> (reports s)))
  end.

Definition addAuditLog (log : AuditLog.t) (s : InMemoryStore) : InMemoryStore :=
  let logs := (auditLogs s ++ [log])%list in
  {| reports := reports s; users := users s;
     auditLogs := if (1000 <? length logs)%nat
                  then drop (length logs - 1000)%nat logs else logs |}.

(** The auto-archive writes [status] and [updatedAt] of the stored
    object. *)
Definition archived (r : Report.t) (now : Z) : Report.t :=
  Report.mk (Report.id r) (Report.title r) (Report.description r)
    ARCHIVED (Report.priority r) (Report.createdBy r) (Report.createdAt r)
    now (Report.lastModifiedBy r) (Report.lastModifiedAt r)
    (Report.collaborators r) (Report.concurrentEditors r)
    (Report.entries r) (Report.comments r) (Report.tags r)
    (Report.metadata r) (Report.version r) (Report.isActive r).

(** Every report is stored under its own id: [initializeSampleData] and
    [createReport] store that way, and [updateReport] keeps it as long as
    the payload does not rewrite [id]. *)
Definition keyed (s : InMemoryStore) : Prop :=
  forall k r, reports s !! k = Some r -> Report.id r = k.

(** What the loop of the auto-archive makes of one stored object: the
    active ones that [shouldAutoArchive] are changed where they lie. *)
Definition autoArchived (cfg : Config) (dates : DateLib) (now : Z)
    (r : Report.t) : Report.t :=
  if Report.isActive r && BusinessRulesService.shouldAutoArchive cfg dates now r
  then archived r now else r.

(** The loop runs over a snapshot of the active reports.  Each one that
    [shouldAutoArchive] has [status] and [updatedAt] written on the stored
    object, so that the key it was read from shows it archived unless a
    [set] of the loop has put another object there, and is stored again
    with [set(report.id, report)]: in a [keyed] store under the key it was
    read from, in the others under the key that its id names.  Writing
    the objects first and doing the [set]s after them, in the order of the
    snapshot, leaves the same map as the loop.  The snapshot has the
    insertion order of the [Map], which the finite map does not keep; the
    order decides only which of two archived reports that carry one id
    ends under that id. *)
Definition autoArchiveOldReports (cfg : Config) (dates : DateLib) (now : Z)
    (s : InMemoryStore) : InMemoryStore :=
  let snapshot :=
    List.filter Report.isActive (snd <$> map_to_list (reports s)) in
  let toArchive :=
    List.filter (BusinessRulesService.shouldAutoArchive cfg dates now)
      snapshot in
  setReports s
    (foldl (fun m report => <[Report.id report := archived report now]> m)
       (autoArchived cfg dates now <$> reports s) toArchive).

End DataStore.

(** ** The create and update endpoints: [controllers/reports.ts] *)

Module CreateReportRequest.
Record t := mk {
  title : string;
  description : string;
  priority : ReportPriority;
  tags : option (list string);
  collaborators : option (list string);
  metadata : option Metadata
}.
End CreateReportRequest.

(** The body of a PUT.  The handler types it [UpdateReportRequest] and
    takes [req.body] as the client sent it: the route validates the seven
    fields of the interface and [version], and strips nothing, so whatever
    other field of a report the body names is in it as well, with a value
    of the type the report has for it. *)
Module UpdateReportRequest.
Record t := mk {
  title : option string;
  description : option string;
  status : option ReportStatus;
  priority : option ReportPriority;
  tags : option (list string);
  collaborators : option (list string);
  metadata : option Metadata;
  version : option Z;
  id : option string;
  createdBy : option string;
  createdAt : option Z;
  updatedAt : option Z;
  lastModifiedBy : option string;
  lastModifiedAt : option Z;
  concurrentEditors : option (list string);
  entries : option (list ReportEntry.t);
  comments : option (list ReportComment.t);
  isActive : option bool
}.
End UpdateReportRequest.

(** What a handler reads of an authenticated request.  [validation] is
    [validationResult(req)] with each error already a field and a
    message. *)
Module Request.
Record t (B : Type) := mk {
  validation : list (string * string);
  id : string;
  body : B;
  user : User.t;
  ip : string;
  userAgent : string
}.
Arguments mk {B}.
Arguments validation {B}.
Arguments id {B}.
Arguments body {B}.
Arguments user {B}.
Arguments ip {B}.
Arguments userAgent {B}.
End Request.

Inductive ResponseData :=
| UpdatedReport (id title : string) (status : ReportStatus)
    (priority : ReportPriority) (version updatedAt : Z)
    (collaborators concurrentEditors : list string)
| CreatedReport (id title : string) (status : ReportStatus)
    (priority : ReportPriority) (createdAt : Z).

Inductive ResponseBody :=
| Success (message : string) (data : ResponseData)
| Failure (message : string) (errors : list (string * string)).

Record Response := {
  statusCode : Z;
  headers : list (string * string);
  body : ResponseBody
}.

Module ReportsController.
Section Handlers.
Variable cfg : Config.
Variable dates : DateLib.

(** [reason || fallback] *)
Definition orElse (reason : option string) (fallback : string) : string :=
  match reason with
  | Some "" | None => fallback
  | Some r => r
  end.

(** [{...updateData, version: currentReport.version}]: every field of
    the body, and the version just read in place of the body's. *)
Definition updatesOf (updateData : UpdateReportRequest.t)
    (currentReport : Report.t) : PartialReport.t :=
  PartialReport.mk
    (UpdateReportRequest.id updateData)
    (UpdateReportRequest.title updateData)
    (UpdateReportRequest.description updateData)
    (UpdateReportRequest.status updateData)
    (UpdateReportRequest.priority updateData)
    (UpdateReportRequest.createdBy updateData)
    (UpdateReportRequest.createdAt updateData)
    (UpdateReportRequest.updatedAt updateData)
    (UpdateReportRequest.lastModifiedBy updateData)
    (UpdateReportRequest.lastModifiedAt updateData)
    (UpdateReportRequest.collaborators updateData)
    (UpdateReportRequest.concurrentEditors updateData)
    (UpdateReportRequest.entries updateData)
    (UpdateReportRequest.comments updateData)
    (UpdateReportRequest.tags updateData)
    (UpdateReportRequest.metadata updateData)
    (Some (Report.version currentReport))
    (UpdateReportRequest.isActive updateData).

(** The [try] block of [updateReport]. *)
Definition tryUpdateReport (req : Request.t UpdateReportRequest.t)
    (uuid : string) (now : Z) (s : InMemoryStore)
  : result Response * InMemoryStore :=
  match Request.validation req with
  | _ :: _ => (Throw (ValidationError (Request.validation req)), s)
  | [] =>
      let id := Request.id req in
      let updateData := Request.body req in
      let user := Request.user req in
      match DataStore.getReport id s with
      | None => (Throw (NotFoundError "Report"), s)
      | Some currentReport =>
          let businessContext :=
            {| user := user; report := Some currentReport;
               action := AUpdate; resource := None |} in
          match BusinessRulesService.evaluateAllRules cfg dates now
                  businessContext with
          | Throw e => (Throw e, s)
          | Ok businessRuleResult =>
              if negb (allowed businessRuleResult) then
                (Throw (AuthorizationError
                          (orElse (reason businessRuleResult)
                             "Update not allowed")), s)
              else
                let beforeState := currentReport in
                let updates := updatesOf updateData currentReport in
                match DataStore.updateReport id updates (User.id user) now s with
                | (Throw e, s1) => (Throw e, s1)
                | (Ok updatedReport, s1) =>
                    let s2 :=
                      DataStore.addAuditLog
                        (AuditLog.mk uuid (User.id user) "update" "report" id
                           (Some beforeState) (Some updatedReport) now
                           (Request.ip req) (Request.userAgent req)) s1 in
                    (Ok {| statusCode := 200;
                           headers := [];
                           body :=
                             Success "Report updated successfully"
                               (UpdatedReport
                                  (Report.id updatedReport)
                                  (Report.title updatedReport)
                                  (Report.status updatedReport)
                                  (Report.priority updatedReport)
                                  (Report.version updatedReport)
                                  (Report.updatedAt updatedReport)
                                  (Report.collaborators updatedReport)
                                  (Report.concurrentEditors updatedReport)) |},
                     s2)
                end
          end
      end
  end.

(** [new NotFoundError(resource).message] *)
Definition notFoundMessage (resource : string) : string :=
  resource +:+ " not found".

(** The [catch] block of [updateReport]. *)
Definition catchUpdateReport (error : AppError) : Response :=
  match error with
  | ValidationError errors =>
      {| statusCode := 400; headers := [];
         body := Failure "Validation failed" errors |}
  | NotFoundError resource =>
      {| statusCode := 404; headers := [];
         body := Failure (notFoundMessage resource)
                   [("id", notFoundMessage resource)] |}
  | ConflictError message =>
      {| statusCode := 409; headers := [];
         body := Failure message
                   [("version", "Report has been modified by another user")] |}
  | AuthorizationError message =>
      {| statusCode := 403; headers := [];
         body := Failure message [("authorization", message)] |}
  | _ =>
      {| statusCode := 500; headers := [];
         body := Failure "Failed to update report"
                   [("general", "Internal server error")] |}
  end.

(** PUT /api/reports/:id *)
Definition updateReport (req : Request.t UpdateReportRequest.t)
    (uuid : string) (now : Z) (s : InMemoryStore)
  : Response * InMemoryStore :=
  match tryUpdateReport req uuid now s with
  | (Ok res, s') => (res, s')
  | (Throw error, s') => (catchUpdateReport error, s')
  end.

(** The [try] block of [createReport], up to the response; the side
    effect it schedules with [setImmediate] runs after the handler and
    touches no store. [uuid] names the report, [auditId] the audit
    entry. *)
Definition tryCreateReport (req : Request.t CreateReportRequest.t)
    (uuid auditId : string) (now : Z) (s : InMemoryStore)
  : result Response * InMemoryStore :=
  match Request.validation req with
  | _ :: _ => (Throw (ValidationError (Request.validation req)), s)
  | [] =>
      let createData := Request.body req in
      let user := Request.user req in
      let businessContext :=
        {| user := user; report := None;
           action := ACreate; resource := None |} in
      match BusinessRulesService.evaluateAllRules cfg dates now
              businessContext with
      | Throw e => (Throw e, s)
      | Ok businessRuleResult =>
          if negb (allowed businessRuleResult) then
            (Throw (AuthorizationError
                      (orElse (reason businessRuleResult)
                         "Creation not allowed")), s)
          else
            let '(report, s1) :=
              DataStore.createReport
                (ReportData.mk
                   (CreateReportRequest.title createData)
                   (CreateReportRequest.description createData)
                   DRAFT
                   (CreateReportRequest.priority createData)
                   (User.id user) (User.id user) now
                   (default [] (CreateReportRequest.collaborators createData))
                   [] [] []
                   (default [] (CreateReportRequest.tags createData))
                   (default [] (CreateReportRequest.metadata createData)))
                uuid now s in
            let s2 :=
              DataStore.addAuditLog
                (AuditLog.mk auditId (User.id user) "create" "report"
                   (Report.id report) None (Some report) now
                   (Request.ip req) (Request.userAgent req)) s1 in
            (Ok {| statusCode := 201;
                   headers := [("Location", "/api/reports/" +:+ Report.id report)];
                   body :=
                     Success "Report created successfully"
                       (CreatedReport (Report.id report) (Report.title report)
                          (Report.status report) (Report.priority report)
                          (Report.createdAt report)) |},
             s2)
      end
  end.

(** The [catch] block of [createReport]. *)
Definition catchCreateReport (error : AppError) : Response :=
  match error with
  | ValidationError errors =>
      {| statusCode := 400; headers := [];
         body := Failure "Validation failed" errors |}
  | AuthorizationError message =>
      {| statusCode := 403; headers := [];
         body := Failure message [("authorization", message)] |}
  | _ =>
      {| statusCode := 500; headers := [];
         body := Failure "Failed to create report"
                   [("general", "Internal server error")] |}
  end.

(** POST /api/reports *)
Definition createReport (req : Request.t CreateReportRequest.t)
    (uuid auditId : string) (now : Z) (s : InMemoryStore)
  : Response * InMemoryStore :=
  match tryCreateReport req uuid auditId now s with
  | (Ok res, s') => (res, s')
  | (Throw error, s') => (catchCreateReport error, s')
  end.

End Handlers.
End ReportsController.

(** ** Idempotent replay: [middleware/idempotency.ts] *)

Record CachedResponse := {
  status : Z;
  cachedBody : ResponseBody
}.

(** Modelled from the spec: the cache of the [lru-cache] package, which is
    not part of the repository.  "Bounded size with least-recently-used
    eviction, and a fixed time-to-live after which an entry is treated as
    absent even if not yet evicted by size pressure."  [items] holds the
    entries from the most to the least recently used. *)
Module LRUCache.
Record entry := {
  key : string;
  value : CachedResponse;
  start : Z
}.

Record t := {
  max : nat;
  ttl : Z;
  items : list entry
}.

Definition withItems (c : t) (l : list entry) : t :=
  {| max := max c; ttl := ttl c; items := l |}.

Definition find (k : string) (l : list entry) : option entry :=
  List.find (fun e => bool_decide (key e = k)) l.

Definition remove (k : string) (l : list entry) : list entry :=
  List.filter (fun e => negb (bool_decide (key e = k))) l.

Definition isStale (c : t) (e : entry) (now : Z) : bool :=
  ttl c <? now - start e.

(** A hit makes the entry the most recently used; a stale entry is
    dropped and reads as a miss. *)
Definition get (k : string) (now : Z) (c : t) : option CachedResponse * t :=
  match find k (items c) with
  | None => (None, c)
  | Some e =>
      if isStale c e now then (None, withItems c (remove k (items c)))
      else (Some (value e), withItems c (e :: remove k (items c)))
  end.

(** The new entry is the most recently used; beyond [max] entries the
    least recently used ones are evicted. *)
Definition set (k : string) (v : CachedResponse) (now : Z) (c : t) : t :=
  withItems c
    (take (max c) ({| key := k; value := v; start := now |} :: remove k (items c))).
End LRUCache.

Module Idempotency.

(** [new LRUCache({max: 500, ttl: 1000 * 60 * 60})] *)
Definition idempotencyCache : LRUCache.t :=
  {| LRUCache.max := 500; LRUCache.ttl := 1000 * 60 * 60; LRUCache.items := [] |}.

Definition isDigit (c : ascii) : bool :=
  let n := nat_of_ascii c in (48 <=? n)%nat && (n <=? 57)%nat.

(** [[0-9a-f]] under the [i] flag *)
Definition isHex (c : ascii) : bool :=
  let n := nat_of_ascii c in
  isDigit c
  || ((97 <=? n)%nat && (n <=? 102)%nat)
  || ((65 <=? n)%nat && (n <=? 70)%nat).

Inductive CharClass := Hex | Dash | Four | Variant.

Definition inClass (cl : CharClass) (c : ascii) : bool :=
  match cl with
  | Hex => isHex c
  | Dash => bool_decide (c = "-"%char)
  | Four => bool_decide (c = "4"%char)
  | Variant => bool_decide (c ∈ ["8"; "9"; "a"; "b"; "A"; "B"]%char)
  end.

(** [^[0-9a-f]{8}-[0-9a-f]{4}-[4][0-9a-f]{3}-[89ab][0-9a-f]{3}-[0-9a-f]{12}$] *)
Definition uuidPattern : list CharClass :=
  (replicate 8 Hex ++ [Dash] ++ replicate 4 Hex ++ [Dash]
     ++ [Four] ++ replicate 3 Hex ++ [Dash]
     ++ [Variant] ++ replicate 3 Hex ++ [Dash] ++ replicate 12 Hex)%list.

Fixpoint matches (p : list CharClass) (s : string) : bool :=
  match p, s with
  | [], EmptyString => true
  | cl :: p', String c s' => inClass cl c && matches p' s'
  | _, _ => false
  end.

Definition isValidKey (k : string) : bool := matches uuidPattern k.

Definition invalidKeyResponse : Response :=
  {| statusCode := 400; headers := [];
     body := Failure "Invalid Idempotency-Key format. Must be a valid UUID."
               [("Idempotency-Key", "Invalid UUID format")] |}.

Section Middleware.
(** What the handlers behind the middleware read and write. *)
Context {App : Type}.

(** A request as the middleware sees it: the [Idempotency-Key] header,
    the rest of the chain ([next], which answers with one
    [res.status(..).json(..)]), and the instant it is served at. *)
Record Req := {
  idempotencyKey : option string;
  next : App -> Response * App;
  servedAt : Z
}.

Record Served := {
  response : Response;
  nextCalled : bool
}.

Definition State : Type := LRUCache.t * App.

(** The replaced [res.json]: responses with a 2xx status are cached. *)
Definition recordJson (k : string) (res : Response) (now : Z)
    (c : LRUCache.t) : LRUCache.t :=
  if (200 <=? statusCode res) && (statusCode res <? 300) then
    LRUCache.set k {| status := statusCode res; cachedBody := body res |} now c
  else c.

Definition idempotencyMiddleware (req : Req) (st : State) : Served * State :=
  let '(cache, app) := st in
  match idempotencyKey req with
  | None | Some "" =>
      let '(res, app') := next req app in
      ({| response := res; nextCalled := true |}, (cache, app'))
  | Some k =>
      if negb (isValidKey k) then
        ({| response := invalidKeyResponse; nextCalled := false |}, st)
      else
        match LRUCache.get k (servedAt req) cache with
        | (Some cachedResponse, cache') =>
            ({| response := {| statusCode := status cachedResponse;
                               headers := [];
                               body := cachedBody cachedResponse |};
                nextCalled := false |}, (cache', app))
        | (None, cache') =>
            let '(res, app') := next req app in
            ({| response := res; nextCalled := true |},
             (recordJson k res (servedAt req) cache', app'))
        end
  end.

(** Requests served one after the other. *)
Fixpoint serveAll (reqs : list Req) (st : State) : State :=
  match reqs with
  | [] => st
  | req :: reqs' => serveAll reqs' (snd (idempotencyMiddleware req st))
  end.

End Middleware.
End Idempotency.

(** ** Retry, backoff and circuit breaker: [utils/retry.ts] *)

Module Retry.

Record RetryOptions := {
  maxRetries : option Z;
  backoffMs : option Z;
  jitter : option bool;
  circuitBreakerThreshold : option Z;
  circuitBreakerResetMs : option Z
}.

Record CircuitBreakerState := {
  failures : Z;
  isOpen : bool;
  lastFailureTime : Z
}.

(** What an execution does that can be observed from outside: calls of
    the operation, waits on the timer, and the dead-letter record. *)
Inductive Event :=
| Invoked (attempt : nat)
| Waited (delay : Q)
| DeadLettered (operationName correlationId : string).

(** [backoffMs * Math.pow(2, i)], times [0.5 + Math.random()] under
    jitter; [rnd] is the number [Math.random()] returned. *)
Definition backoffDelay (backoffMs : Z) (i : nat) (jitter : bool) (rnd : Q) : Q :=
  let delay := inject_Z (backoffMs * 2 ^ Z.of_nat i) in
  if jitter then (delay * ((1 # 2) + rnd))%Q else delay.

Section Executor.
Context {T : Type}.

(** What the executor asks of its environment: whether attempt [i] of
    the operation resolves (and with what) or rejects, what [Date.now()]
    reads in the [catch] of attempt [i], and what [Math.random()]
    returns after attempt [i]. *)
Record World := {
  operation : nat -> option T;
  failedAt : nat -> Z;
  random : nat -> Q
}.

Variable operationName : string.
Variable correlationId : string.
Variable maxRetries' backoffMs' : Z.
Variable jitter' : bool.
Variable circuitBreakerThreshold' : Z.
Variable w : World.

(** The body of the [catch]: count the failure, stamp it, and open the
    breaker once the threshold is reached. *)
Definition recordFailure (st : CircuitBreakerState) (i : nat)
  : CircuitBreakerState :=
  let failures' := failures st + 1 in
  if (circuitBreakerThreshold' <=? failures') && negb (isOpen st) then
    {| failures := failures'; isOpen := true; lastFailureTime := failedAt w i |}
  else
    {| failures := failures'; isOpen := isOpen st; lastFailureTime := failedAt w i |}.

(** [for (let i = 0; i <= maxRetries; i++)] from attempt [i] on, with
    [fuel] iterations left before the loop condition fails. *)
Fixpoint retryLoop (fuel i : nat) (st : CircuitBreakerState)
  : option T * CircuitBreakerState * list Event :=
  match fuel with
  | O => (None, st, [])
  | S fuel' =>
      match operation w i with
      | Some result =>
          (Some result,
           {| failures := 0; isOpen := false;
              lastFailureTime := lastFailureTime st |},
           [Invoked i])
      | None =>
          let st' := recordFailure st i in
          if Z.of_nat i <? maxRetries' then
            let delay := backoffDelay backoffMs' i jitter' (random w i) in
            let '(res, st'', events) := retryLoop fuel' (S i) st' in
            (res, st'', Invoked i :: Waited delay :: events)
          else
            (None, st', [Invoked i; DeadLettered operationName correlationId])
      end
  end.

End Executor.

(** [now] is what [Date.now()] reads when the breaker is checked. *)
Definition executeAsyncSideEffect {T : Type} (w : @World T)
    (operationName : string) (correlationId : string)
    (options : option RetryOptions) (now : Z)
    (circuitBreakerStates : gmap string CircuitBreakerState)
  : option T * gmap string CircuitBreakerState * list Event :=
  let maxRetries := default 3 (options ≫= maxRetries) in
  let backoffMs := default 1000 (options ≫= backoffMs) in
  let jitter := default true (options ≫= jitter) in
  let circuitBreakerThreshold :=
    default 5 (options ≫= circuitBreakerThreshold) in
  let circuitBreakerResetMs :=
    default 30000 (options ≫= circuitBreakerResetMs) in
  let circuitBreakerState :=
    default {| failures := 0; isOpen := false; lastFailureTime := 0 |}
      (circuitBreakerStates !! operationName) in
  let run st :=
    let '(res, st', events) :=
      retryLoop operationName correlationId maxRetries backoffMs jitter
        circuitBreakerThreshold w (Z.to_nat (maxRetries + 1)) 0 st in
    (res, <[operationName := st']> circuitBreakerStates, events) in
  if isOpen circuitBreakerState then
    if circuitBreakerResetMs <? now - lastFailureTime circuitBreakerState then
      run {| failures := 0; isOpen := false;
             lastFailureTime := lastFailureTime circuitBreakerState |}
    else
      (None, circuitBreakerStates, [])
  else run circuitBreakerState.

Definition getCircuitBreakerStatus (operationName : string)
    (circuitBreakerStates : gmap string CircuitBreakerState)
  : option CircuitBreakerState :=
  circuitBreakerStates !! operationName.

Definition resetCircuitBreaker (operationName : string)
    (circuitBreakerStates : gmap string CircuitBreakerState)
  : gmap string CircuitBreakerState :=
  delete operationName circuitBreakerStates.

Definition clearAllCircuitBreakers
    (circuitBreakerStates : gmap string CircuitBreakerState)
  : gmap string CircuitBreakerState := ∅.

End Retry.

(** ** Roles and authentication: [services/auth.ts], [middleware/auth.ts] *)

Module AuthService.

Definition roleHierarchy (r : UserRole) : Z :=
  match r with
  | READER => 1
  | EDITOR => 2
  | ADMIN => 3
  end.

(** [roleHierarchy[user.role] >= roleHierarchy[requiredRole]] *)
Definition hasRole (user : User.t) (requiredRole : UserRole) : bool :=
  roleHierarchy requiredRole <=? roleHierarchy (User.role user).

Definition hasAnyRole (user : User.t) (requiredRoles : list UserRole) : bool :=
  existsb (hasRole user) requiredRoles.

(** The parameter is typed ['read' | 'create' | 'update' | 'delete']; an
    upload is in none of the lists. *)
Definition canPerformAction (user : User.t) (action : Action) : bool :=
  if bool_decide (User.role user = ADMIN) then true
  else if bool_decide (User.role user = EDITOR) then
    bool_decide (action ∈ [ARead; ACreate; AUpdate])
  else if bool_decide (User.role user = READER) then
    bool_decide (action = ARead)
  else false.

Definition canAccessResource (user : User.t) (resourceOwnerId : string)
    (resourceCollaborators : list string) : bool :=
  if bool_decide (User.role user = ADMIN) then true
  else if bool_decide (User.id user = resourceOwnerId) then true
  else if bool_decide (User.id user ∈ resourceCollaborators) then true
  else false.

End AuthService.

Module AuthMiddleware.

Record JWTPayload := {
  userId : string;
  email : string;
  role : UserRole;
  tier : UserTier
}.

(** [s.split('@')[0]] *)
Fixpoint beforeAt (s : string) : string :=
  match s with
  | EmptyString => EmptyString
  | String c s' =>
      if bool_decide (c = "@"%char) then EmptyString else String c (beforeAt s')
  end.

(** The user [authenticateToken] attaches to the request once the token
    is verified. *)
Definition authenticatedUser (payload : JWTPayload) (now : Z) : User.t :=
  User.mk (userId payload) (email payload)
    (match beforeAt (email payload) with
     | "" => "User"
     | name => name
     end)
    (role payload) (tier payload) "" now now 0.

(** The string value of the enum. *)
Definition roleName (r : UserRole) : string :=
  match r with
  | READER => "reader"
  | EDITOR => "editor"
  | ADMIN => "admin"
  end.

(** [requireMinRole(minimumRole)] on [req.user]: [None] is [next()], an
    answer ends the request. *)
Definition requireMinRole (minimumRole : UserRole) (user : option User.t)
  : option Response :=
  match user with
  | None =>
      Some {| statusCode := 401; headers := [];
              body := Failure "Authentication required"
                        [("authorization", "Authentication required")] |}
  | Some u =>
      if negb (AuthService.hasRole u minimumRole) then
        let message := "Insufficient permissions. Minimum role required: "
                         +:+ roleName minimumRole in
        Some {| statusCode := 403; headers := [];
                body := Failure message [("authorization", message)] |}
      else None
  end.

End AuthMiddleware.

(** ** Collaborators: [BusinessRulesService.canAddCollaborator] *)

Module Collaborators.

Definition maxCollaborators : Z := 10.

Definition canAddCollaborator (report : Report.t) (newCollaboratorId : string)
  : BusinessRuleResult :=
  let isAlreadyCollaborator :=
    BusinessRulesService.includes (Report.collaborators report) newCollaboratorId in
  let isCreator := bool_decide (Report.createdBy report = newCollaboratorId) in
  if isAlreadyCollaborator || isCreator then
    {| allowed := false;
       reason := Some "User is already a collaborator or creator";
       constraints := None |}
  else if maxCollaborators <=? Z.of_nat (length (Report.collaborators report)) then
    {| allowed := false;
       reason := Some ("Maximum of " +:+ pretty maxCollaborators
                         +:+ " collaborators allowed");
       constraints :=
         Some [("currentCollaborators",
                 CNum (Z.of_nat (length (Report.collaborators report))));
               ("maxCollaborators", CNum maxCollaborators)] |}
  else allow.

End Collaborators.

(** ** Users of the store: [getUser], [updateUserStorage] *)

Module UserStore.

Definition setUsers (s : InMemoryStore) (m : gmap string User.t)
  : InMemoryStore :=
  {| reports := reports s; users := m; auditLogs := auditLogs s |}.

(** [this.users.get(id) || null] *)
Definition getUser (id : string) (s : InMemoryStore) : option User.t :=
  users s !! id.

(** The stored user gets the new usage and a new [updatedAt]. *)
Definition withStorage (u : User.t) (newStorageUsed : Z) (now : Z) : User.t :=
  User.mk (User.id u) (User.email u) (User.name u) (User.role u) (User.tier u)
    (User.password u) (User.createdAt u) now newStorageUsed.

Definition updateUserStorage (id : string) (newStorageUsed : Z) (now : Z)
    (s : InMemoryStore) : result unit * InMemoryStore :=
  match users s !! id with
  | None => (Throw (NotFoundError "User"), s)
  | Some u =>
      (Ok tt, setUsers s (<[id := withStorage u newStorageUsed now]> (users s)))
  end.

End UserStore.

(** * Vocabulary of the properties

    The denials, relations and measures the statements below are made of,
    and the inputs they are evaluated at. *)

(** ** Rules *)

(** The denial of rule 1. *)
Definition archivedDenial : BusinessRuleResult :=
  {| allowed := false;
     reason := Some "Only ADMIN users can edit archived reports";
     constraints := Some [("requiredRole", CRole ADMIN);
                          ("currentStatus", CStatus ARCHIVED)] |}.

(** [resource.fileSize] of an upload, [0] when there is none. *)
Definition proposedSize (ctx : BusinessRuleContext) : Z :=
  match resource ctx with
  | Some {| fileSize := Some n |} => n
  | _ => 0
  end.

(** A reader ten megabytes into a hundred-megabyte quota uploads a
    hundred megabytes. *)
Definition largeUpload : BusinessRuleContext :=
  {| user := DataStore.readerUser; report := Some DataStore.report1;
     action := AUpload; resource := Some {| fileSize := Some 100000000 |} |}.

(** A user of the default tier who already holds 200 MB, above the quota
    of 100 MB, uploads an empty file. *)
Definition overQuotaUser : User.t :=
  User.mk "user-4" "over@example.com" "Over Quota" EDITOR DEFAULT ""
    (date 2024 1 4) (date 2024 1 4) 200000000.

Definition emptyUpload : BusinessRuleContext :=
  {| user := overQuotaUser; report := Some DataStore.report1;
     action := AUpload; resource := Some {| fileSize := Some 0 |} |}.

(** ** Store *)

Definition notFound : AppError := NotFoundError "Report".

Definition versionConflict : AppError :=
  ConflictError "Report has been modified by another user".

(** What the operations of the store can do to it, one call at a time.
    [uuidv4()] returns an identifier not in use, and the payload of an
    update leaves [id] alone. *)
Inductive step (cfg : Config) (dates : DateLib) (s : InMemoryStore)
  : InMemoryStore -> Prop :=
| step_create reportData uuid now :
    reports s !! uuid = None ->
    step cfg dates s (DataStore.createReport reportData uuid now s).2
| step_update id updates userId now :
    PartialReport.id updates = None ->
    step cfg dates s (DataStore.updateReport id updates userId now s).2
| step_delete id now :
    step cfg dates s (DataStore.deleteReport id now s).2
| step_archive now :
    step cfg dates s (DataStore.autoArchiveOldReports cfg dates now s)
| step_audit log :
    step cfg dates s (DataStore.addAuditLog log s).

Definition reachable (cfg : Config) (dates : DateLib) (s : InMemoryStore) : Prop :=
  rtc (step cfg dates) DataStore.initial s.

(** [{version: 0}] *)
Definition versionZero : PartialReport.t :=
  PartialReport.mk None None None None None None None None None
    None None None None None None None (Some 0) None.

(** ** Update endpoint

    Scenario A: the sample Editor creates a report and sends two updates,
    each with [version: 1] in its body. *)

Module ScenarioA.

Definition reportId : string := "7c9e6679-7425-40de-944b-e07fc1f90ae7".

Definition t0 : Z := date 2025 3 1.

Definition createRequest : Request.t CreateReportRequest.t :=
  Request.mk [] ""
    (CreateReportRequest.mk "Quarterly review" "Figures of the quarter"
       MEDIUM None None None)
    DataStore.editorUser "127.0.0.1" "supertest".

(** A PUT on the report whose body carries [version: 1]. *)
Definition updateRequest (title : string) : Request.t UpdateReportRequest.t :=
  Request.mk [] reportId
    (UpdateReportRequest.mk (Some title) None None None None None None (Some 1)
       None None None None None None None None None None)
    DataStore.editorUser "127.0.0.1" "supertest".

Definition created : Response * InMemoryStore :=
  ReportsController.createReport config utcDate createRequest
    reportId "audit-1" t0 DataStore.initial.

Definition firstUpdate : Response * InMemoryStore :=
  ReportsController.updateReport config utcDate (updateRequest "First edit")
    "audit-2" (t0 + 1000) created.2.

Definition secondUpdate : Response * InMemoryStore :=
  ReportsController.updateReport config utcDate (updateRequest "Second edit")
    "audit-3" (t0 + 2000) firstUpdate.2.

Definition storedVersion (s : InMemoryStore) : option Z :=
  Report.version <$> reports s !! reportId.

Definition storedTitle (s : InMemoryStore) : option string :=
  Report.title <$> reports s !! reportId.

End ScenarioA.

(** ** Idempotent replay *)

Section ReplayVocabulary.
Import Idempotency.
Context {App : Type}.

(** The request carries a well-formed key other than [k]: it is one that
    can push the entry of [k] towards eviction. *)
Definition touchesOther (k : string) (req : @Req App) : bool :=
  match idempotencyKey req with
  | Some k' => isValidKey k' && negb (bool_decide (k' = k))
  | None => false
  end.

(** The cache holds [v] under [k] since [t0], behind at most [n] more
    recently used entries. *)
Definition recorded (k : string) (v : CachedResponse) (t0 : Z) (n : nat)
    (c : LRUCache.t) : Prop :=
  exists pre post,
    LRUCache.items c
    = (pre ++ {| LRUCache.key := k; LRUCache.value := v; LRUCache.start := t0 |}
           :: post)%list
    /\ Forall (fun e => LRUCache.key e <> k) pre
    /\ (length pre <= n)%nat.

Definition others (k : string) (reqs : list (@Req App)) : nat :=
  length (List.filter (touchesOther k) reqs).

End ReplayVocabulary.

(** Requests over an application state that counts the calls of the
    handler. *)

Module ReplayExample.
Import Idempotency.

Definition key : string := "123e4567-e89b-42d3-a456-426614174000".

(** The [i]-th of a family of well-formed keys, all different from [key]. *)
Definition otherKey (i : nat) : string :=
  let digits := pretty i in
  "00000000-0000-4000-8000-"
    +:+ String.concat "" (replicate (12 - String.length digits) "0")
    +:+ digits.

(** A handler that counts its calls and answers 200. *)
Definition handler (title : string) (calls : nat) : Response * nat :=
  ({| statusCode := 200; headers := [];
      body := Success "Report updated successfully"
                (UpdatedReport "report-1" title ACTIVE HIGH 2 0 [] []) |},
   S calls).

Definition t0 : Z := date 2025 3 1.

Definition first : @Req nat :=
  {| idempotencyKey := Some key; next := handler "First"; servedAt := t0 |}.

Definition other (i : nat) : @Req nat :=
  {| idempotencyKey := Some (otherKey i); next := handler "Other";
     servedAt := t0 + 1 |}.

Definition replay : @Req nat :=
  {| idempotencyKey := Some key; next := handler "Replayed"; servedAt := t0 + 2 |}.

End ReplayExample.

(** ** Retry and circuit breaker *)

(** The options as the executor resolves them. *)
Definition maxRetriesOf (options : option Retry.RetryOptions) : Z :=
  default 3 (options ≫= Retry.maxRetries).
Definition backoffMsOf (options : option Retry.RetryOptions) : Z :=
  default 1000 (options ≫= Retry.backoffMs).
Definition jitterOf (options : option Retry.RetryOptions) : bool :=
  default true (options ≫= Retry.jitter).
Definition thresholdOf (options : option Retry.RetryOptions) : Z :=
  default 5 (options ≫= Retry.circuitBreakerThreshold).
Definition resetMsOf (options : option Retry.RetryOptions) : Z :=
  default 30000 (options ≫= Retry.circuitBreakerResetMs).

(** The breaker of one operation kind, and two operations. *)

Module BreakerExample.
Import Retry.

Definition kind : string := "report_creation_side_effect".

(** Open since the fifth failure, at instant 0. *)
Definition opened : gmap string CircuitBreakerState :=
  {[ kind := {| failures := 5; isOpen := true; lastFailureTime := 0 |} ]}.

(** The operation rejects every time; each attempt takes 100 ms. *)
Definition failing : @World unit :=
  {| operation := fun _ => None;
     failedAt := fun i => 30001 + 100 * (Z.of_nat i + 1);
     random := fun _ => 0%Q |}.

(** The operation rejects once and then resolves; [Math.random()]
    returns 0.75. *)
Definition flaky : @World unit :=
  {| operation := fun i => match i with O => None | S _ => Some tt end;
     failedAt := fun _ => 100;
     random := fun _ => (3 # 4)%Q |}.

Definition invocations (events : list Event) : nat :=
  length (List.filter (fun e => match e with Invoked _ => true | _ => false end)
            events).

End BreakerExample.

(** ** Further vocabulary *)

(** What the five rules ask of an update, taken together. *)
Definition mayUpdate (cfg : Config) (dates : DateLib) (now : Z)
    (u : User.t) (r : Report.t) : bool :=
  let isAdmin := bool_decide (User.role u = ADMIN) in
  (negb (bool_decide (Report.status r = ARCHIVED)) || isAdmin)
  && (bool_decide (Report.createdBy r = User.id u)
      || bool_decide (User.id u ∈ Report.collaborators r)
      || isAdmin)
  && (bool_decide (User.id u ∈ Report.concurrentEditors r)
      || (Z.of_nat (length (Report.concurrentEditors r))
            <? maxConcurrentEditors cfg))
  && (negb (Report.createdAt r <? addYears dates now (-2)) || isAdmin)
  && (bool_decide (User.role u = EDITOR) || isAdmin).

(** The context of an upload of [size] bytes. *)
Definition uploadOf (u : User.t) (r : option Report.t) (size : Z)
  : BusinessRuleContext :=
  {| user := u; report := r; action := AUpload;
     resource := Some {| fileSize := Some size |} |}.

(** The context of an update. *)
Definition updateOf (u : User.t) (r : Report.t) (res : option Resource)
  : BusinessRuleContext :=
  {| user := u; report := Some r; action := AUpdate; resource := res |}.



Definition isInvoked (e : Retry.Event) : bool :=
  match e with Retry.Invoked _ => true | _ => false end.

(** How many times an execution called the operation. *)
Definition invocationCount (events : list Retry.Event) : nat :=
  length (List.filter isInvoked events).

(** The dead-letter records of an execution. *)
Definition deadLetters (events : list Retry.Event) : list (string * string) :=
  omap (fun e => match e with
                 | Retry.DeadLettered n c => Some (n, c)
                 | _ => None
                 end) events.

(** The time an execution spent waiting between attempts. *)
Definition totalWait (events : list Retry.Event) : Q :=
  fold_right (fun e acc => match e with
                           | Retry.Waited d => (d + acc)%Q
                           | _ => acc
                           end) 0%Q events.

(** The breaker a call finds: the stored one, or a fresh one. *)
Definition breakerOf (operationName : string)
    (states : gmap string Retry.CircuitBreakerState)
  : Retry.CircuitBreakerState :=
  default {| Retry.failures := 0; Retry.isOpen := false;
             Retry.lastFailureTime := 0 |}
    (states !! operationName).

(** The events of [d] failed attempts from attempt [i] on, each followed
    by its wait. *)
Definition failedAttempts {T : Type} (w : @Retry.World T) (backoffMs : Z)
    (jitter : bool) (i d : nat) : list Retry.Event :=
  flat_map (fun j => [Retry.Invoked j;
                      Retry.Waited (Retry.backoffDelay backoffMs j jitter
                                      (Retry.random w j))])
    (seq i d).

(** Every entry of the cache was recorded under a well-formed key with a
    2xx status, no key twice, within the bound. *)
Definition cacheInvariant (c : LRUCache.t) : Prop :=
  Forall (fun e => Idempotency.isValidKey (LRUCache.key e) = true
                   /\ 200 <= status (LRUCache.value e) < 300)
    (LRUCache.items c)
  /\ NoDup (LRUCache.key <$> LRUCache.items c)
  /\ (length (LRUCache.items c) <= LRUCache.max c)%nat.

(** A PUT on a report behind the idempotency middleware: the handler is
    the update endpoint and the application state is the store. *)
Definition putUnderKey (cfg : Config) (dates : DateLib) (k : string)
    (req : Request.t UpdateReportRequest.t) (uuid : string) (t : Z)
  : @Idempotency.Req InMemoryStore :=
  {| Idempotency.idempotencyKey := Some k;
     Idempotency.next := ReportsController.updateReport cfg dates req uuid t;
     Idempotency.servedAt := t |}.

(** Further inputs the properties are evaluated at. *)
Module MoreExamples.

(** The sample Editor's PUT on the first sample report. *)
Definition editReport1 : Request.t UpdateReportRequest.t :=
  Request.mk [] "report-1"
    (UpdateReportRequest.mk (Some "Q1 Financial Report, revised") None None
       None None None None (Some 1)
       None None None None None None None None None None)
    DataStore.editorUser "127.0.0.1" "supertest".

(** A breaker that is closed after one failure. *)
Definition strained : gmap string Retry.CircuitBreakerState :=
  {[ BreakerExample.kind :=
       {| Retry.failures := 1; Retry.isOpen := false;
          Retry.lastFailureTime := 0 |} ]}.

(** [{backoffMs: 100, jitter: false}] *)
Definition plain : Retry.RetryOptions :=
  {| Retry.maxRetries := None; Retry.backoffMs := Some 100;
     Retry.jitter := Some false; Retry.circuitBreakerThreshold := None;
     Retry.circuitBreakerResetMs := None |}.

(** A handler that counts its calls and answers 500. *)
Definition failingHandler (calls : nat) : Response * nat :=
  ({| statusCode := 500; headers := [];
      body := Failure "Failed to update report"
                [("general", "Internal server error")] |},
   S calls).

Definition malformed : @Idempotency.Req nat :=
  {| Idempotency.idempotencyKey := Some "not-a-uuid";
     Idempotency.next := ReplayExample.handler "Never";
     Idempotency.servedAt := ReplayExample.t0 |}.

Definition failedFirst : @Idempotency.Req nat :=
  {| Idempotency.idempotencyKey := Some ReplayExample.key;
     Idempotency.next := failingHandler;
     Idempotency.servedAt := ReplayExample.t0 |}.

End MoreExamples.

(** * Properties *)

(** ** The rule chain *)

Section RuleChain.
Import BusinessRulesService.
Variable cfg : Config.
Variable dates : DateLib.
Variable now : Z.

Lemma firstDenial_cons (rule : Rule) rs ctx :
  firstDenial (rule :: rs) ctx =
  match rule ctx with
  | Ok res => if negb (allowed res) then Ok res else firstDenial rs ctx
  | Throw e => Throw e
  end.
Proof. reflexivity. Qed.

Lemma firstDenial_deny f rs ctx :
  allowed (f ctx) = false -> firstDenial (total f :: rs) ctx = Ok (f ctx).
Proof. intros H. rewrite firstDenial_cons. unfold total. by rewrite H. Qed.

Lemma firstDenial_pass f rs ctx :
  allowed (f ctx) = true -> firstDenial (total f :: rs) ctx = firstDenial rs ctx.
Proof. intros H. rewrite firstDenial_cons. unfold total. by rewrite H. Qed.

(** Whatever a chain of rules returns on a denial is denied. *)
Lemma firstDenial_denied_or_allow rs ctx res :
  firstDenial rs ctx = Ok res -> allowed res = false \/ res = allow.
Proof.
  revert res. induction rs as [|rule rs IH]; intros res.
  - cbn. intros [= <-]. by right.
  - rewrite firstDenial_cons. destruct (rule ctx) as [r|e]; [|done].
    destruct (allowed r) eqn:Hr; cbn.
    + apply IH.
    + intros [= <-]. by left.
Qed.

(** Rules one to four either pass or deny on an update of a stored
    report; none of them throws. *)
Lemma collaboration_returns ctx r :
  report ctx = Some r ->
  exists out, checkReportCollaboration cfg ctx = Ok out.
Proof.
  intros Hr. unfold checkReportCollaboration. rewrite Hr.
  repeat case_match; eauto.
Qed.

Lemma quota_passes_off_upload ctx :
  action ctx <> AUpload -> checkAttachmentQuota cfg ctx = allow.
Proof.
  intros H. unfold checkAttachmentQuota.
  rewrite bool_decide_eq_false_2 by done. reflexivity.
Qed.

Lemma lifecycle_passes_off_update ctx :
  action ctx <> AUpdate -> checkReportLifecycleManagement ctx = allow.
Proof.
  intros H. unfold checkReportLifecycleManagement.
  by rewrite bool_decide_eq_false_2.
Qed.

Lemma collaboration_passes_off_update ctx :
  action ctx <> AUpdate -> checkReportCollaboration cfg ctx = Ok allow.
Proof.
  intros H. unfold checkReportCollaboration.
  by rewrite bool_decide_eq_false_2.
Qed.

Lemma retention_passes_off_update ctx :
  action ctx <> AUpdate -> checkDataRetentionPolicy cfg dates now ctx = allow.
Proof.
  intros H. unfold checkDataRetentionPolicy.
  rewrite (bool_decide_eq_false_2 _ H).
  destruct (report ctx); [|done]. by rewrite andb_false_r.
Qed.

Lemma general_passes_off_update ctx :
  action ctx <> AUpdate -> checkGeneralEditPermissions ctx = allow.
Proof.
  intros H. unfold checkGeneralEditPermissions.
  by rewrite bool_decide_eq_false_2.
Qed.

Lemma general_denies_reader ctx :
  action ctx = AUpdate -> User.role (user ctx) = READER ->
  allowed (checkGeneralEditPermissions ctx) = false.
Proof.
  intros Ha Hr. unfold checkGeneralEditPermissions. by rewrite Ha, Hr.
Qed.

(** C4: a Reader's update is denied by the chain, whatever the report,
    its status, age, creator, collaborators and concurrent editors. *)
Theorem reader_update_denied (u : User.t) (r : Report.t) (res : option Resource) :
  User.role u = READER ->
  exists out,
    evaluateAllRules cfg dates now
      {| user := u; report := Some r; action := AUpdate; resource := res |}
    = Ok out
    /\ allowed out = false.
Proof.
  intros Hrole.
  set (ctx := {| user := u; report := Some r; action := AUpdate; resource := res |}).
  unfold evaluateAllRules, rules.
  destruct (allowed (checkReportLifecycleManagement ctx)) eqn:H1;
    [rewrite firstDenial_pass by done | rewrite firstDenial_deny by done; eauto].
  rewrite firstDenial_pass by (by rewrite quota_passes_off_upload).
  rewrite firstDenial_cons.
  destruct (collaboration_returns ctx r eq_refl) as [out3 ->].
  destruct (allowed out3) eqn:H3; cbn [negb]; [|eauto].
  destruct (allowed (checkDataRetentionPolicy cfg dates now ctx)) eqn:H4;
    [rewrite firstDenial_pass by done | rewrite firstDenial_deny by done; eauto].
  rewrite firstDenial_deny by (by apply general_denies_reader).
  eexists; split; [done|]. by apply general_denies_reader.
Qed.

(** C5: on an archived report the chain returns, it allows an update
    only to an Admin, and every other actor gets the denial of the
    lifecycle rule. *)
Theorem archived_update_admin_only (u : User.t) (r : Report.t)
    (res : option Resource) :
  Report.status r = ARCHIVED ->
  exists out,
    evaluateAllRules cfg dates now
      {| user := u; report := Some r; action := AUpdate; resource := res |}
    = Ok out
    /\ (allowed out = true -> User.role u = ADMIN)
    /\ (User.role u <> ADMIN -> out = archivedDenial).
Proof.
  intros Hst.
  set (ctx := {| user := u; report := Some r; action := AUpdate; resource := res |}).
  destruct (decide (User.role u = ADMIN)) as [Hadm|Hadm].
  - assert (exists out, evaluateAllRules cfg dates now ctx = Ok out)
      as [out Hout].
    { unfold evaluateAllRules, rules.
      rewrite !firstDenial_cons. unfold total at 1 2.
      destruct (collaboration_returns ctx r eq_refl) as [out3 ->].
      unfold total. repeat case_match; eauto. }
    exists out. split; [done|]. split; [done|]. intros; contradiction.
  - assert (checkReportLifecycleManagement ctx = archivedDenial) as Hden.
    { unfold checkReportLifecycleManagement, statusIs. cbn.
      rewrite Hst. rewrite (bool_decide_eq_false_2 _ Hadm). reflexivity. }
    unfold evaluateAllRules, rules.
    rewrite firstDenial_deny by (by rewrite Hden).
    exists archivedDenial. rewrite Hden. split; [done|]. split; [|done].
    intros; discriminate.
Qed.

(** C10: reads, creations and deletions pass every rule, for every
    actor and every report, the placeholder of the create endpoint
    included. *)
Theorem non_mutating_actions_allowed (u : User.t) (r : option Report.t)
    (res : option Resource) (a : Action) :
  a = ARead \/ a = ACreate \/ a = ADelete ->
  evaluateAllRules cfg dates now
    {| user := u; report := r; action := a; resource := res |}
  = Ok allow.
Proof.
  intros Ha.
  set (ctx := {| user := u; report := r; action := a; resource := res |}).
  assert (action ctx <> AUpdate) as Hu
    by (cbn; intros ->; destruct Ha as [|[|]]; discriminate).
  assert (action ctx <> AUpload) as Hl
    by (cbn; intros ->; destruct Ha as [|[|]]; discriminate).
  unfold evaluateAllRules, rules.
  rewrite firstDenial_pass by (by rewrite lifecycle_passes_off_update).
  rewrite firstDenial_pass by (by rewrite quota_passes_off_upload).
  rewrite firstDenial_cons, collaboration_passes_off_update by done. cbn [negb allowed allow].
  rewrite firstDenial_pass by (by rewrite retention_passes_off_update).
  rewrite firstDenial_pass by (by rewrite general_passes_off_update).
  reflexivity.
Qed.

(** C6, amended: on an upload the quota rule rejects exactly when the
    proposed size is not zero and usage plus size exceeds the quota of
    the tier. *)
Theorem quota_rule_rejects_iff (ctx : BusinessRuleContext) :
  action ctx = AUpload ->
  allowed (checkAttachmentQuota cfg ctx) = false
  <-> proposedSize ctx <> 0
      /\ User.storageUsed (user ctx) + proposedSize ctx
         > getUserQuota cfg (User.tier (user ctx)).
Proof.
  intros Ha. unfold checkAttachmentQuota, proposedSize, truthyFileSize.
  rewrite Ha. cbn.
  destruct (resource ctx) as [[[n|]]|]; cbn; try (split; [done | lia]).
  destruct (Z.eqb_spec n 0) as [->|Hn]; cbn; [split; [done | lia]|].
  split.
  - intros H%Z.leb_gt. lia.
  - intros [_ H]. apply Z.leb_gt. lia.
Qed.

End RuleChain.

(** *** The rule chain at the sample data *)

Lemma reader_update_denied_witness :
  User.role DataStore.readerUser = READER
  /\ exists out,
       BusinessRulesService.evaluateAllRules config utcDate (date 2024 2 1)
         {| user := DataStore.readerUser; report := Some DataStore.report1;
            action := AUpdate; resource := None |}
       = Ok out
       /\ allowed out = false.
Proof.
  split; [reflexivity|].
  apply (reader_update_denied config utcDate (date 2024 2 1)
           DataStore.readerUser DataStore.report1 None).
  reflexivity.
Defined.

Lemma archived_update_admin_only_witness :
  Report.status DataStore.report2 = ARCHIVED
  /\ exists out,
       BusinessRulesService.evaluateAllRules config utcDate (date 2024 2 1)
         {| user := DataStore.editorUser; report := Some DataStore.report2;
            action := AUpdate; resource := None |}
       = Ok out
       /\ (allowed out = true -> User.role DataStore.editorUser = ADMIN)
       /\ (User.role DataStore.editorUser <> ADMIN -> out = archivedDenial).
Proof.
  split; [reflexivity|].
  apply (archived_update_admin_only config utcDate (date 2024 2 1)
           DataStore.editorUser DataStore.report2 None).
  reflexivity.
Defined.

Lemma non_mutating_actions_allowed_witness :
  (ACreate = ARead \/ ACreate = ACreate \/ ACreate = ADelete)
  /\ BusinessRulesService.evaluateAllRules config utcDate (date 2024 2 1)
       {| user := DataStore.readerUser; report := None;
          action := ACreate; resource := None |}
     = Ok allow.
Proof.
  assert (ACreate = ARead \/ ACreate = ACreate \/ ACreate = ADelete) as H
    by (right; left; reflexivity).
  split; [exact H|].
  exact (non_mutating_actions_allowed config utcDate (date 2024 2 1)
           DataStore.readerUser None None ACreate H).
Defined.

Lemma quota_rule_rejects_iff_witness :
  action largeUpload = AUpload
  /\ (allowed (BusinessRulesService.checkAttachmentQuota config largeUpload) = false
      <-> proposedSize largeUpload <> 0
          /\ User.storageUsed (user largeUpload) + proposedSize largeUpload
             > getUserQuota config (User.tier (user largeUpload))).
Proof.
  split; [reflexivity|].
  apply (quota_rule_rejects_iff config largeUpload). reflexivity.
Defined.

(** C6 as stated fails at a proposed size of zero: usage plus size
    exceeds the quota and the rule passes. *)
Lemma quota_rule_passes_empty_file_over_quota :
  action emptyUpload = AUpload
  /\ fileSize <$> resource emptyUpload = Some (Some 0)
  /\ User.storageUsed overQuotaUser + 0 > getUserQuota config (User.tier overQuotaUser)
  /\ allowed (BusinessRulesService.checkAttachmentQuota config emptyUpload) = true.
Proof. repeat split. Qed.

(** ** The store *)

Section Store.
Import DataStore.

Lemma updateReport_missing s id updates userId now :
  reports s !! id = None ->
  updateReport id updates userId now s = (Throw notFound, s).
Proof. intros H. unfold updateReport. by rewrite H. Qed.

Lemma updateReport_inactive s id updates userId now r :
  reports s !! id = Some r -> Report.isActive r = false ->
  updateReport id updates userId now s = (Throw notFound, s).
Proof. intros H Ha. unfold updateReport. by rewrite H, Ha. Qed.

Lemma updateReport_conflict s id updates userId now r v :
  reports s !! id = Some r -> Report.isActive r = true ->
  PartialReport.version updates = Some v -> v <> 0 -> v <> Report.version r ->
  updateReport id updates userId now s = (Throw versionConflict, s).
Proof.
  intros H Ha Hv Hv0 Hne. unfold updateReport, truthyVersion.
  rewrite H, Ha, Hv. cbn.
  destruct (Z.eqb_spec v 0); [done|].
  destruct (Z.eqb_spec v (Report.version r)); done.
Qed.

Lemma updateReport_writes s id updates userId now r :
  reports s !! id = Some r -> Report.isActive r = true ->
  (forall v, PartialReport.version updates = Some v ->
             v = 0 \/ v = Report.version r) ->
  updateReport id updates userId now s
  = (Ok (merged r updates userId now),
     setReports s (<[id := merged r updates userId now]> (reports s))).
Proof.
  intros H Ha Hv. unfold updateReport, truthyVersion.
  rewrite H, Ha. cbn.
  destruct (PartialReport.version updates) as [v|]; [|done].
  destruct (Z.eqb_spec v 0); [done|].
  destruct (Hv v eq_refl) as [? | ->]; [done|].
  by rewrite Z.eqb_refl.
Qed.

(** C2, amended: the update of the store fails with NotFound exactly when
    no report has the id or the report is soft-deleted; it fails with
    VersionConflict exactly when the report is there and active and the
    payload carries a version that is not zero and differs from the
    stored one; with the version left out, or zero, or the stored one, it
    returns and writes the merged report; and a failure leaves the store
    as it was. *)
Theorem updateReport_outcomes (s : InMemoryStore) (id : string)
    (updates : PartialReport.t) (userId : string) (now : Z) :
  let out := updateReport id updates userId now s in
  (out.1 = Throw notFound
   <-> reports s !! id = None
       \/ exists r, reports s !! id = Some r /\ Report.isActive r = false)
  /\ (out.1 = Throw versionConflict
      <-> exists r v, reports s !! id = Some r /\ Report.isActive r = true
                      /\ PartialReport.version updates = Some v
                      /\ v <> 0 /\ v <> Report.version r)
  /\ (forall r, reports s !! id = Some r -> Report.isActive r = true ->
        PartialReport.version updates = None
        \/ PartialReport.version updates = Some 0
        \/ PartialReport.version updates = Some (Report.version r) ->
        out = (Ok (merged r updates userId now),
               setReports s (<[id := merged r updates userId now]> (reports s))))
  /\ (forall e, out.1 = Throw e ->
        out.2 = s /\ (e = notFound \/ e = versionConflict)).
Proof.
  cbn zeta.
  destruct (reports s !! id) as [r|] eqn:Hr.
  2:{ rewrite updateReport_missing by done. cbn.
      split; [split; [intros _; by left | done]|].
      split; [split; [done | intros (? & ? & ? & _); done]|].
      split; [done|].
      intros e [= <-]. split; [done | by left]. }
  destruct (Report.isActive r) eqn:Ha.
  2:{ rewrite (updateReport_inactive _ _ _ _ _ r) by done. cbn.
      split; [split; [intros _; right; eauto | done]|].
      split; [split; [done | intros (r' & v & [= <-] & ? & _); congruence]|].
      split; [intros r' [= <-]; congruence|].
      intros e [= <-]. split; [done | by left]. }
  assert (PartialReport.version updates = None
          \/ (exists v, PartialReport.version updates = Some v
                        /\ (v = 0 \/ v = Report.version r))
          \/ (exists v, PartialReport.version updates = Some v
                        /\ v <> 0 /\ v <> Report.version r)) as Hcases.
  { destruct (PartialReport.version updates) as [v|]; [|by left].
    right. destruct (decide (v = 0)); [left; eauto|].
    destruct (decide (v = Report.version r)); [left; eauto|]. right; eauto. }
  assert (forall v, PartialReport.version updates = Some v ->
                    v = 0 \/ v = Report.version r ->
                    ~ (exists r' v', Some r = Some r' /\ Report.isActive r' = true
                         /\ PartialReport.version updates = Some v'
                         /\ v' <> 0 /\ v' <> Report.version r')) as Hno.
  { intros v Hv Hok (r' & v' & [= <-] & _ & Hv' & ? & ?).
    rewrite Hv in Hv'. injection Hv' as <-. by destruct Hok. }
  destruct Hcases as [Hv|[(v & Hv & Hok)|(v & Hv & Hv0 & Hne)]].
  - rewrite (updateReport_writes _ _ _ _ _ r) by (done || congruence). cbn.
    split; [split; [done | intros [?|(r' & [= <-] & ?)]; congruence]|].
    split; [split; [done | intros (r' & v & [= <-] & _ & ? & _); congruence]|].
    split; [intros r' [= <-] _ _; done | done].
  - rewrite (updateReport_writes _ _ _ _ _ r)
      by (done || (intros v' Hv'; rewrite Hv in Hv'; by injection Hv' as <-)).
    cbn.
    split; [split; [done | intros [?|(r' & [= <-] & ?)]; congruence]|].
    split; [split; [done | intros H; by destruct (Hno v Hv Hok)]|].
    split; [intros r' [= <-] _ _; done | done].
  - rewrite (updateReport_conflict _ _ _ _ _ r v) by done. cbn.
    split; [split; [done | intros [?|(r' & [= <-] & ?)]; congruence]|].
    split; [split; [intros _; exists r, v; done | done]|].
    split.
    + intros r' [= <-] _ [Hv'|[Hv'|Hv']]; rewrite Hv in Hv'; [done| |];
        injection Hv' as ->; done.
    + intros e [= <-]. split; [done | by right].
Qed.

End Store.

(** C2 as stated fails at a supplied version of zero: the stored version
    is 1, the payload says 0, and the update is written. *)
Lemma updateReport_version_zero_not_checked :
  reports DataStore.initial !! "report-1" = Some DataStore.report1
  /\ Report.isActive DataStore.report1 = true
  /\ PartialReport.version versionZero = Some 0
  /\ 0 <> Report.version DataStore.report1
  /\ DataStore.updateReport "report-1" versionZero "user-2" (date 2024 2 1)
       DataStore.initial
     = (Ok (DataStore.merged DataStore.report1 versionZero "user-2" (date 2024 2 1)),
        DataStore.setReports DataStore.initial
          (<["report-1" :=
               DataStore.merged DataStore.report1 versionZero "user-2" (date 2024 2 1)]>
             (reports DataStore.initial))).
Proof.
  assert (reports DataStore.initial !! "report-1" = Some DataStore.report1) as H
    by (by vm_compute).
  split; [exact H|]. split; [reflexivity|]. split; [reflexivity|].
  split; [discriminate|].
  unfold DataStore.updateReport. rewrite H. reflexivity.
Qed.

Section Versions.
Import DataStore.
Variable cfg : Config.
Variable dates : DateLib.

Lemma merged_version r updates userId now :
  Report.version (merged r updates userId now) = Report.version r + 1.
Proof. reflexivity. Qed.

(** A successful update stores the merged report, one version up. *)
Lemma updateReport_ok s id updates userId now r' s' :
  updateReport id updates userId now s = (Ok r', s') ->
  exists r, reports s !! id = Some r
            /\ r' = merged r updates userId now
            /\ s' = setReports s (<[id := r']> (reports s)).
Proof.
  unfold updateReport.
  destruct (reports s !! id) as [r|]; [|done].
  destruct (Report.isActive r); cbn; [|done].
  destruct (truthyVersion updates) as [v|].
  - destruct (v =? Report.version r); cbn; [|done].
    intros [= <- <-]. eauto.
  - intros [= <- <-]. eauto.
Qed.

Lemma updateReport_throw s id updates userId now e s' :
  updateReport id updates userId now s = (Throw e, s') -> s' = s.
Proof.
  unfold updateReport.
  destruct (reports s !! id) as [r|]; [|by intros [= _ <-]].
  destruct (Report.isActive r); cbn; [|by intros [= _ <-]].
  destruct (truthyVersion updates) as [v|]; [|done].
  destruct (v =? Report.version r); cbn; [done | by intros [= _ <-]].
Qed.

(** At the store the expected version is checked: of two updates that
    present the same stored version, the first is written and the second
    fails with the conflict and changes nothing. *)
Lemma updateReport_second_conflicts s id u1 u2 userId1 userId2 t1 t2 r :
  reports s !! id = Some r -> Report.isActive r = true ->
  Report.version r <> 0 ->
  PartialReport.version u1 = Some (Report.version r) ->
  PartialReport.version u2 = Some (Report.version r) ->
  PartialReport.isActive u1 <> Some false ->
  exists s1,
    updateReport id u1 userId1 t1 s = (Ok (merged r u1 userId1 t1), s1)
    /\ updateReport id u2 userId2 t2 s1 = (Throw versionConflict, s1).
Proof.
  intros Hr Ha Hv0 Hv1 Hv2 Hact.
  eexists. split.
  - apply updateReport_writes; [done | done |].
    intros v Hv. rewrite Hv1 in Hv. injection Hv as <-. by right.
  - apply (updateReport_conflict _ _ _ _ _ (merged r u1 userId1 t1)
             (Report.version r)); [| | done | done |].
    + cbn. by rewrite lookup_insert_eq.
    + cbn. rewrite Ha. destruct (PartialReport.isActive u1) as [[|]|]; done.
    + rewrite merged_version. lia.
Qed.

(** The reports the loop of the auto-archive stores again: each was read
    from the store, is active and was to be archived. *)
Lemma autoArchive_snapshot now s r :
  r ∈ List.filter (BusinessRulesService.shouldAutoArchive cfg dates now)
        (List.filter Report.isActive (snd <$> map_to_list (reports s))) ->
  (exists k, reports s !! k = Some r)
  /\ Report.isActive r = true
  /\ BusinessRulesService.shouldAutoArchive cfg dates now r = true.
Proof.
  intros [[Hin Ha]%filter_In Hs]%list_elem_of_In%filter_In.
  apply list_elem_of_In, list_elem_of_fmap in Hin as ([k r0] & -> & Hin).
  apply elem_of_map_to_list in Hin. eauto.
Qed.

(** After the [set]s of the loop a key holds what the last [set] on it
    wrote or, with none, what it held. *)
Lemma autoArchive_sets_lookup now (l : list Report.t) :
  forall (m : gmap string Report.t) k v,
  foldl (fun m report => <[Report.id report := archived report now]> m) m l
    !! k = Some v ->
  m !! k = Some v
  \/ exists r, r ∈ l /\ Report.id r = k /\ v = archived r now.
Proof.
  induction l as [|r l IH]; intros m k v; cbn; [by left|].
  intros [Hm|(r' & Hin & Hid & ->)]%IH.
  - destruct (decide (Report.id r = k)) as [<-|Hne].
    + rewrite lookup_insert_eq in Hm. injection Hm as <-.
      right. exists r. split; [by left | done].
    + rewrite lookup_insert_ne in Hm by done. by left.
  - right. exists r'. split; [by right | done].
Qed.

Lemma autoArchive_sets_keep now (l : list Report.t) :
  forall (m : gmap string Report.t) k,
  is_Some (m !! k) ->
  is_Some (foldl (fun m report => <[Report.id report := archived report now]> m)
             m l !! k).
Proof.
  induction l as [|r l IH]; intros m k Hk; cbn; [done|].
  apply IH. destruct (decide (Report.id r = k)) as [<-|Hne].
  - by rewrite lookup_insert_eq.
  - by rewrite lookup_insert_ne.
Qed.

(** What a key holds after the auto-archive: the report it held, archived
    if it was to be, or an archived report that carries the key as its
    id. *)
Lemma autoArchive_holds now s k r' :
  reports (autoArchiveOldReports cfg dates now s) !! k = Some r' ->
  (exists r, reports s !! k = Some r /\ r' = autoArchived cfg dates now r)
  \/ (exists r, Report.isActive r = true
                /\ BusinessRulesService.shouldAutoArchive cfg dates now r = true
                /\ Report.id r = k /\ r' = archived r now).
Proof.
  unfold autoArchiveOldReports. cbn [reports setReports].
  intros [Hm|(r & Hin & Hid & ->)]%autoArchive_sets_lookup.
  - left. rewrite lookup_fmap in Hm.
    destruct (reports s !! k) as [r|]; [|done]. injection Hm as <-. eauto.
  - right. apply autoArchive_snapshot in Hin as (_ & Ha & Hs). eauto.
Qed.

(** In a keyed store every [set] of the loop writes the key its report
    was read from: the auto-archive leaves the reports where they were,
    each archived if it was to be. *)
Lemma autoArchive_keyed now s :
  keyed s ->
  autoArchiveOldReports cfg dates now s
  = setReports s (autoArchived cfg dates now <$> reports s).
Proof.
  intros Hk. unfold autoArchiveOldReports. cbn zeta. f_equal.
  set (toArchive := List.filter _ _).
  assert (forall r, r ∈ toArchive ->
            (autoArchived cfg dates now <$> reports s) !! Report.id r
            = Some (archived r now)) as Hin.
  { intros r ((k & Hr) & Ha & Hs)%autoArchive_snapshot.
    rewrite (Hk k r Hr), lookup_fmap, Hr. cbn.
    unfold autoArchived. by rewrite Ha, Hs. }
  clearbody toArchive. set (m := _ <$> _) in *. clearbody m.
  induction toArchive as [|r l IH]; cbn; [done|].
  rewrite insert_id by (apply Hin; by left).
  apply IH. intros r' Hr'. apply Hin. by right.
Qed.

Lemma autoArchive_keyed_lookup now s id :
  keyed s ->
  reports (autoArchiveOldReports cfg dates now s) !! id
  = autoArchived cfg dates now <$> reports s !! id.
Proof. intros Hk. rewrite autoArchive_keyed by done. cbn. by rewrite lookup_fmap. Qed.

(** Every step keeps each report under its own id. *)
Lemma step_keyed s s' : step cfg dates s s' -> keyed s -> keyed s'.
Proof.
  intros Hstep Hk k r. destruct Hstep as [data uuid now Hfresh|id' updates userId now Hid|id' now|now|log].
  - cbn. destruct (decide (uuid = k)) as [->|Hne].
    + rewrite lookup_insert_eq. by intros [= <-].
    + rewrite lookup_insert_ne by done. apply Hk.
  - destruct (updateReport id' updates userId now s) as [[r1|e] s1] eqn:Hu; cbn.
    + apply updateReport_ok in Hu as (r0 & Hr0 & -> & ->). cbn.
      destruct (decide (id' = k)) as [->|Hne].
      * rewrite lookup_insert_eq. intros [= <-]. cbn. rewrite Hid. cbn.
        by apply Hk.
      * rewrite lookup_insert_ne by done. apply Hk.
    + apply updateReport_throw in Hu as ->. apply Hk.
  - unfold deleteReport. destruct (reports s !! id') as [r0|] eqn:Hr0; cbn.
    + destruct (decide (id' = k)) as [->|Hne].
      * rewrite lookup_insert_eq. intros [= <-]. cbn. by apply Hk.
      * rewrite lookup_insert_ne by done. apply Hk.
    + apply Hk.
  - rewrite autoArchive_keyed_lookup by done.
    destruct (reports s !! k) as [r0|] eqn:Hr0; [|done].
    cbn. intros [= <-]. unfold autoArchived. case_match; cbn; by apply Hk.
  - apply Hk.
Qed.

Lemma initial_keyed : keyed initial.
Proof.
  intros k r. unfold initial, sampleReports. cbn.
  destruct (decide (k = "report-2")) as [->|H2].
  - rewrite lookup_insert_eq. by intros [= <-].
  - rewrite lookup_insert_ne by done.
    destruct (decide (k = "report-1")) as [->|H1].
    + rewrite lookup_insert_eq. by intros [= <-].
    + rewrite lookup_insert_ne by done. by rewrite lookup_empty.
Qed.

Lemma reachable_keyed s : reachable cfg dates s -> keyed s.
Proof.
  unfold reachable. intros H.
  assert (forall a b, rtc (step cfg dates) a b -> keyed a -> keyed b) as Hall.
  { induction 1 as [|a b c Hstep _ IH]; [done|].
    intros Ha. apply IH. by apply (step_keyed a b). }
  exact (Hall _ _ H initial_keyed).
Qed.

Lemma step_version_le s s' :
  keyed s -> step cfg dates s s' ->
  forall id r, reports s !! id = Some r ->
  exists r', reports s' !! id = Some r' /\ Report.version r <= Report.version r'.
Proof.
  intros Hk Hstep id r Hr. destruct Hstep as [data uuid now Hfresh|id' updates userId now _|id' now|now|log].
  - exists r. split; [|lia]. cbn.
    rewrite lookup_insert_ne; [done|]. intros <-. congruence.
  - destruct (updateReport id' updates userId now s) as [[r1|e] s1] eqn:Hu; cbn.
    + apply updateReport_ok in Hu as (r0 & Hr0 & -> & ->). cbn.
      destruct (decide (id' = id)) as [->|Hne].
      * rewrite lookup_insert_eq. eexists; split; [done|].
        rewrite merged_version. assert (r0 = r) as -> by congruence. lia.
      * rewrite lookup_insert_ne by done. exists r. split; [done|lia].
    + apply updateReport_throw in Hu as ->. exists r. split; [done|lia].
  - unfold deleteReport. destruct (reports s !! id') as [r0|] eqn:Hr0; cbn.
    + destruct (decide (id' = id)) as [->|Hne].
      * rewrite lookup_insert_eq. eexists; split; [done|].
        assert (r0 = r) as -> by congruence. cbn. lia.
      * rewrite lookup_insert_ne by done. exists r. split; [done|lia].
    + exists r. split; [done|lia].
  - rewrite autoArchive_keyed_lookup, Hr by done. cbn. eexists; split; [done|].
    unfold autoArchived. case_match; cbn; lia.
  - exists r. split; [done|lia].
Qed.

Lemma steps_version_le s s' :
  rtc (step cfg dates) s s' -> keyed s ->
  forall id r, reports s !! id = Some r ->
  exists r', reports s' !! id = Some r' /\ Report.version r <= Report.version r'.
Proof.
  induction 1 as [s|s s1 s2 Hstep _ IH]; intros Hk id r Hr.
  - exists r. split; [done|lia].
  - destruct (step_version_le _ _ Hk Hstep id r Hr) as (r1 & Hr1 & Hle1).
    destruct (IH (step_keyed _ _ Hstep Hk) id r1 Hr1) as (r2 & Hr2 & Hle2).
    exists r2. split; [done|lia].
Qed.

(** C3, amended: from a reachable store on, the version of a report never
    decreases, whatever operations follow (create, update, delete,
    auto-archive, audit), and each successful update stores the report
    with its version up by exactly 1. *)
Theorem version_never_decreases_update_adds_one (s : InMemoryStore) :
  reachable cfg dates s ->
  (forall s', rtc (step cfg dates) s s' ->
     forall id r, reports s !! id = Some r ->
     exists r', reports s' !! id = Some r'
                /\ Report.version r <= Report.version r')
  /\ (forall id updates userId now r' s',
        updateReport id updates userId now s = (Ok r', s') ->
        exists r, reports s !! id = Some r
                  /\ reports s' !! id = Some r'
                  /\ Report.version r' = Report.version r + 1).
Proof.
  intros Hk%reachable_keyed. split.
  - intros s' Hsteps. by apply steps_version_le.
  - intros id updates userId now r' s' Hu.
    apply updateReport_ok in Hu as (r & Hr & -> & ->).
    exists r. split; [done|]. split; [|apply merged_version].
    cbn. by rewrite lookup_insert_eq.
Qed.

End Versions.

Lemma version_never_decreases_update_adds_one_witness :
  reachable config utcDate DataStore.initial
  /\ (forall s', rtc (step config utcDate) DataStore.initial s' ->
        forall id r, reports DataStore.initial !! id = Some r ->
        exists r', reports s' !! id = Some r'
                   /\ Report.version r <= Report.version r')
  /\ (forall id updates userId now r' s',
        DataStore.updateReport id updates userId now DataStore.initial = (Ok r', s') ->
        exists r, reports DataStore.initial !! id = Some r
                  /\ reports s' !! id = Some r'
                  /\ Report.version r' = Report.version r + 1).
Proof.
  assert (reachable config utcDate DataStore.initial) as H by apply rtc_refl.
  split; [exact H|].
  exact (version_never_decreases_update_adds_one config utcDate DataStore.initial H).
Defined.

(** C3 as stated fails on the auto-archive: run on 2 November 2026 over
    the sample data, it archives report-1 and leaves its version at 1. *)
Lemma autoArchive_keeps_version :
  let s' := DataStore.autoArchiveOldReports config utcDate (date 2026 11 2)
              DataStore.initial in
  reports DataStore.initial !! "report-1" = Some DataStore.report1
  /\ reports s' !! "report-1"
     = Some (DataStore.archived DataStore.report1 (date 2026 11 2))
  /\ Report.status DataStore.report1 = ACTIVE
  /\ Report.status (DataStore.archived DataStore.report1 (date 2026 11 2)) = ARCHIVED
  /\ Report.version (DataStore.archived DataStore.report1 (date 2026 11 2))
     = Report.version DataStore.report1.
Proof.
  cbn zeta.
  assert (reports DataStore.initial !! "report-1" = Some DataStore.report1) as H
    by (by vm_compute).
  split; [exact H|]. split; [|done].
  rewrite (autoArchive_keyed_lookup config utcDate _ _ _ initial_keyed), H.
  reflexivity.
Qed.

(** ** The update endpoint *)

Section UpdateEndpoint.
Import ReportsController.
Variable cfg : Config.
Variable dates : DateLib.

Lemma getReport_Some id s r :
  DataStore.getReport id s = Some r ->
  reports s !! id = Some r /\ Report.isActive r = true.
Proof.
  unfold DataStore.getReport. destruct (reports s !! id) as [r0|]; [|done].
  destruct (Report.isActive r0) eqn:Ha; [|done]. by intros [= <-].
Qed.

(** The version the handler passes to the store is the one it has just
    read from it, so the store's check cannot fail. *)
Lemma tryUpdateReport_store_accepts req (now : Z) s currentReport :
  DataStore.getReport (Request.id req) s = Some currentReport ->
  exists updated s',
    DataStore.updateReport (Request.id req)
      (updatesOf (Request.body req) currentReport)
      (User.id (Request.user req)) now s
    = (Ok updated, s')
    /\ Report.version updated = Report.version currentReport + 1.
Proof.
  intros [Hr Ha]%getReport_Some.
  rewrite (updateReport_writes _ _ _ _ _ currentReport); [eauto|done|done|].
  cbn. intros v [= <-]. by right.
Qed.

Lemma firstDenial_throws rs ctx e :
  BusinessRulesService.firstDenial rs ctx = Throw e ->
  exists rule, rule ∈ rs /\ rule ctx = Throw e.
Proof.
  induction rs as [|rule rs IH]; [done|].
  rewrite firstDenial_cons. destruct (rule ctx) as [res|e'] eqn:Hrule.
  - destruct (negb (allowed res)); [done|].
    intros (rule' & Hin & Hthrow)%IH. exists rule'. split; [by right | done].
  - intros [= <-]. exists rule. split; [by left | done].
Qed.

Lemma evaluateAllRules_throws now ctx e :
  BusinessRulesService.evaluateAllRules cfg dates now ctx = Throw e ->
  e = TypeError.
Proof.
  intros (rule & Hin & Hthrow)%firstDenial_throws.
  unfold BusinessRulesService.rules in Hin.
  repeat (apply elem_of_cons in Hin as [->|Hin]); try done.
  - unfold BusinessRulesService.checkReportCollaboration in Hthrow.
    repeat case_match; congruence.
  - by apply elem_of_nil in Hin.
Qed.

(** The update endpoint never answers 409. *)
Lemma updateReport_never_conflicts req uuid now s :
  statusCode (updateReport cfg dates req uuid now s).1 <> 409.
Proof.
  unfold updateReport, tryUpdateReport.
  destruct (Request.validation req); [|done].
  destruct (DataStore.getReport (Request.id req) s) as [cur|] eqn:Hget; [|done].
  destruct (BusinessRulesService.evaluateAllRules _ _ _ _) as [res|e] eqn:Hrules.
  - destruct (negb (allowed res)); [done|].
    destruct (tryUpdateReport_store_accepts req now s cur Hget)
      as (updated & s' & -> & _).
    done.
  - apply evaluateAllRules_throws in Hrules as ->. done.
Qed.

End UpdateEndpoint.

(** C1 on the code: the Editor creates the report (version 1) and updates
    it with [version: 1] (version 2); the second update, again with
    [version: 1], is answered 200 and written as version 3, where the
    claim has it fail with VersionConflict and change nothing. *)
Theorem stale_version_update_is_written :
  statusCode ScenarioA.created.1 = 201
  /\ ScenarioA.storedVersion ScenarioA.created.2 = Some 1
  /\ statusCode ScenarioA.firstUpdate.1 = 200
  /\ ScenarioA.storedVersion ScenarioA.firstUpdate.2 = Some 2
  /\ UpdateReportRequest.version (Request.body (ScenarioA.updateRequest "Second edit"))
     = Some 1
  /\ statusCode ScenarioA.secondUpdate.1 = 200
  /\ ScenarioA.storedVersion ScenarioA.secondUpdate.2 = Some 3
  /\ ScenarioA.storedTitle ScenarioA.secondUpdate.2 = Some "Second edit".
Proof. vm_compute. repeat split. Qed.

(** ** Idempotent replay *)

Section Replay.
Import Idempotency.
Context {App : Type}.

Lemma recorded_mono k v t0 n m c :
  (n <= m)%nat -> recorded k v t0 n c -> recorded k v t0 m c.
Proof. intros Hle (pre & post & ? & ? & ?). exists pre, post. repeat split; [done..|lia]. Qed.

Lemma find_skip k pre e post :
  Forall (fun e => LRUCache.key e <> k) pre -> LRUCache.key e = k ->
  LRUCache.find k (pre ++ e :: post) = Some e.
Proof.
  intros Hpre He. unfold LRUCache.find.
  induction Hpre as [|e' pre Hne _ IH]; cbn.
  - by rewrite bool_decide_eq_true_2.
  - by rewrite bool_decide_eq_false_2.
Qed.

Lemma remove_length k l : (length (LRUCache.remove k l) <= length l)%nat.
Proof. unfold LRUCache.remove. apply filter_length_le. Qed.

Lemma remove_other k k' pre e post :
  LRUCache.key e = k -> k' <> k ->
  LRUCache.remove k' (pre ++ e :: post)
  = (LRUCache.remove k' pre ++ e :: LRUCache.remove k' post)%list.
Proof.
  intros He Hne. unfold LRUCache.remove. rewrite List.filter_app. cbn.
  rewrite bool_decide_eq_false_2 by congruence. reflexivity.
Qed.

Lemma remove_keeps_others k k' l :
  Forall (fun e => LRUCache.key e <> k) l ->
  Forall (fun e => LRUCache.key e <> k) (LRUCache.remove k' l).
Proof.
  unfold LRUCache.remove. rewrite !Forall_forall.
  intros H e Hin%list_elem_of_In. apply List.filter_In in Hin as [Hin _].
  apply H. by apply list_elem_of_In.
Qed.

Lemma isValidKey_nonempty k : isValidKey k = true -> k <> "".
Proof. by intros H ->. Qed.

Lemma get_params k now c :
  LRUCache.max (LRUCache.get k now c).2 = LRUCache.max c
  /\ LRUCache.ttl (LRUCache.get k now c).2 = LRUCache.ttl c.
Proof.
  unfold LRUCache.get. destruct (LRUCache.find k (LRUCache.items c)); [|done].
  by destruct (LRUCache.isStale c _ now).
Qed.

(** A lookup of [k] within the time-to-live hits and brings the entry to
    the front. *)
Lemma get_recorded k v t0 n now c :
  recorded k v t0 n c -> now - t0 <= LRUCache.ttl c ->
  exists c',
    LRUCache.get k now c = (Some v, c')
    /\ recorded k v t0 0 c'
    /\ LRUCache.max c' = LRUCache.max c /\ LRUCache.ttl c' = LRUCache.ttl c.
Proof.
  intros (pre & post & Hitems & Hpre & _) Hfresh.
  unfold LRUCache.get. rewrite Hitems, find_skip by done.
  unfold LRUCache.isStale. cbn.
  destruct (Z.ltb_spec (LRUCache.ttl c) (now - t0)); [lia|].
  eexists. split; [done|]. split; [|done].
  exists [], (LRUCache.remove k (pre ++ {| LRUCache.key := k; LRUCache.value := v; LRUCache.start := t0 |} :: post)).
  cbn. split; [done|]. split; [constructor | lia].
Qed.

(** A lookup of another key moves the entry of [k] back by one place when
    it hits, and by none when it misses. *)
Lemma get_other k k' v t0 n now c :
  k' <> k -> recorded k v t0 n c ->
  let '(found, c') := LRUCache.get k' now c in
  recorded k v t0 (match found with Some _ => S n | None => n end) c'
  /\ LRUCache.max c' = LRUCache.max c /\ LRUCache.ttl c' = LRUCache.ttl c.
Proof.
  intros Hne (pre & post & Hitems & Hpre & Hlen).
  unfold LRUCache.get.
  assert (recorded k v t0 n (LRUCache.withItems c (LRUCache.remove k' (LRUCache.items c))))
    as Hremoved.
  { eexists _, _. cbn. rewrite Hitems. split; [by apply (remove_other k)|].
    split; [by apply remove_keeps_others|].
    pose proof (remove_length k' pre). lia. }
  destruct (LRUCache.find k' (LRUCache.items c)) as [e|] eqn:Hfind.
  - destruct (LRUCache.isStale c e now); [by split|].
    split; [|done].
    destruct Hremoved as (pre' & post' & Hitems' & Hpre' & Hlen').
    exists (e :: pre'), post'. cbn in *. rewrite Hitems'. split; [done|].
    split; [|lia]. constructor; [|done].
    apply List.find_some in Hfind as [_ Hk%bool_decide_eq_true]. congruence.
  - split; [|done]. by exists pre, post.
Qed.

(** Recording under another key moves the entry of [k] back by one place,
    and keeps it as long as that place is within the bound. *)
Lemma set_other k k' v v' t0 n now c :
  k' <> k -> (S n < LRUCache.max c)%nat -> recorded k v t0 n c ->
  recorded k v t0 (S n) (LRUCache.set k' v' now c).
Proof.
  intros Hne Hmax (pre & post & Hitems & Hpre & Hlen).
  unfold LRUCache.set. cbn. rewrite Hitems, (remove_other k) by done.
  set (new := {| LRUCache.key := k'; LRUCache.value := v'; LRUCache.start := now |}).
  set (pre' := new :: LRUCache.remove k' pre).
  assert (length pre' <= S n)%nat as Hlen'.
  { subst pre'. cbn. pose proof (remove_length k' pre). lia. }
  exists pre', (take (LRUCache.max c - length pre' - 1) (LRUCache.remove k' post)).
  split; [|split; [|done]].
  - change (new :: LRUCache.remove k' pre ++ ?x) with (pre' ++ x)%list.
    rewrite take_app.
    rewrite take_ge by lia.
    destruct (LRUCache.max c - length pre')%nat as [|m] eqn:Hm; [lia|].
    cbn. rewrite Nat.sub_0_r. reflexivity.
  - subst pre'. constructor; [cbn; congruence|]. by apply remove_keeps_others.
Qed.

Lemma recordJson_other k k' v res t0 n now c :
  k' <> k -> (S n < LRUCache.max c)%nat -> recorded k v t0 n c ->
  recorded k v t0 (S n) (recordJson k' res now c)
  /\ LRUCache.max (recordJson k' res now c) = LRUCache.max c
  /\ LRUCache.ttl (recordJson k' res now c) = LRUCache.ttl c.
Proof.
  intros Hne Hmax Hrec. unfold recordJson.
  destruct (_ && _);
    [|split; [apply (recorded_mono _ _ _ n); [lia | done] | done]].
  split; [by apply set_other | done].
Qed.

(** One request served: the entry of [k] stays, at most one place
    further back if the request carries another well-formed key. *)
Lemma middleware_keeps_recorded k v t0 n req cache (app : App) :
  recorded k v t0 n cache ->
  servedAt req - t0 <= LRUCache.ttl cache ->
  (n + (if touchesOther k req then 1 else 0) < LRUCache.max cache)%nat ->
  let cache' := (idempotencyMiddleware req (cache, app)).2.1 in
  recorded k v t0 (n + (if touchesOther k req then 1 else 0)) cache'
  /\ LRUCache.max cache' = LRUCache.max cache
  /\ LRUCache.ttl cache' = LRUCache.ttl cache.
Proof.
  intros Hrec Hfresh Hmax. cbn zeta.
  unfold idempotencyMiddleware, touchesOther in *.
  destruct (idempotencyKey req) as [k'|].
  2:{ destruct (next req app). cbn. rewrite Nat.add_0_r. done. }
  destruct (decide (k' = "")) as [->|Hk'].
  { destruct (next req app). cbn. rewrite Nat.add_0_r. done. }
  assert (forall A (x y : A),
            match k' with "" => x | String _ _ => y end = y) as Hmatch
    by (intros; by destruct k').
  rewrite Hmatch. clear Hmatch.
  destruct (isValidKey k') eqn:Hvalid; cbn [negb andb] in *.
  2:{ cbn. rewrite Nat.add_0_r. done. }
  destruct (decide (k' = k)) as [->|Hne].
  - rewrite bool_decide_eq_true_2 in * by done. cbn [negb] in *.
    destruct (get_recorded k v t0 n (servedAt req) cache Hrec Hfresh)
      as (c' & -> & Hrec' & ? & ?).
    cbn. split; [|done]. apply (recorded_mono _ _ _ 0); [lia | done].
  - rewrite bool_decide_eq_false_2 in * by done. cbn [negb] in *.
    pose proof (get_other k k' v t0 n (servedAt req) cache Hne Hrec) as Hget.
    destruct (LRUCache.get k' (servedAt req) cache) as [[found|] c'].
    + destruct Hget as (Hrec' & ? & ?). cbn. split; [|done].
      by rewrite Nat.add_1_r.
    + destruct Hget as (Hrec' & Hm & Ht).
      destruct (next req app) as [res app']. cbn.
      rewrite Nat.add_1_r.
      destruct (recordJson_other k k' v res t0 n (servedAt req) c' Hne)
        as (? & ? & ?); [lia | done |].
      split; [done|]. split; congruence.
Qed.

Lemma serveAll_keeps_recorded k v t0 tmax reqs :
  forall n cache (app : App),
  recorded k v t0 n cache ->
  Forall (fun req => servedAt req <= tmax) reqs ->
  tmax - t0 <= LRUCache.ttl cache ->
  (n + others k reqs < LRUCache.max cache)%nat ->
  let cache' := (serveAll reqs (cache, app)).1 in
  recorded k v t0 (n + others k reqs) cache'
  /\ LRUCache.max cache' = LRUCache.max cache
  /\ LRUCache.ttl cache' = LRUCache.ttl cache.
Proof.
  induction reqs as [|req reqs IH]; intros n cache app Hrec Htimes Httl Hmax.
  - cbn. unfold others. cbn. rewrite Nat.add_0_r. done.
  - apply Forall_cons in Htimes as [Ht Htimes].
    assert (others k (req :: reqs)
            = ((if touchesOther k req then 1 else 0) + others k reqs)%nat) as Hcount.
    { unfold others. cbn. by destruct (touchesOther k req). }
    rewrite Hcount in *.
    destruct (middleware_keeps_recorded k v t0 n req cache app Hrec)
      as (Hrec' & Hm & Httl'); [lia | lia |].
    cbn [serveAll].
    destruct (idempotencyMiddleware req (cache, app)) as [served [c1 app1]].
    cbn in Hrec', Hm, Httl'. cbn [snd].
    destruct (IH _ c1 app1 Hrec' Htimes) as (Hrec'' & Hm' & Httl'');
      [lia | lia |].
    cbn zeta. rewrite Nat.add_assoc. split; [done|]. split; congruence.
Qed.

(** The first request, served by the handler with a 2xx answer, leaves
    that answer at the front of the cache. *)
Lemma first_request_recorded k req cache (app : App) :
  idempotencyKey req = Some k -> isValidKey k = true ->
  (0 < LRUCache.max cache)%nat ->
  let served := idempotencyMiddleware req (cache, app) in
  nextCalled served.1 = true ->
  200 <= statusCode (response served.1) < 300 ->
  recorded k
    {| status := statusCode (response served.1);
       cachedBody := body (response served.1) |}
    (servedAt req) 0 served.2.1
  /\ LRUCache.max served.2.1 = LRUCache.max cache
  /\ LRUCache.ttl served.2.1 = LRUCache.ttl cache.
Proof.
  intros Hk Hvalid Hmax. cbn zeta. unfold idempotencyMiddleware. rewrite Hk.
  pose proof (isValidKey_nonempty k Hvalid) as Hne.
  assert (forall A (x y : A),
            match k with "" => x | String _ _ => y end = y) as Hmatch
    by (intros; by destruct k).
  rewrite Hmatch, Hvalid. cbn [negb].
  destruct (LRUCache.get k (servedAt req) cache) as [[found|] c'] eqn:Hget; [done|].
  destruct (next req app) as [res app']. cbn. intros _ Hstatus.
  assert (LRUCache.max c' = LRUCache.max cache /\ LRUCache.ttl c' = LRUCache.ttl cache)
    as [Hm Ht].
  { pose proof (get_params k (servedAt req) cache) as Hp.
    by rewrite Hget in Hp. }
  unfold recordJson.
  destruct (Z.leb_spec 200 (statusCode res)); [|lia].
  destruct (Z.ltb_spec (statusCode res) 300); [|lia].
  cbn. split; [|done].
  unfold recorded, LRUCache.set. cbn.
  destruct (LRUCache.max c') as [|m] eqn:Hm'; [lia|].
  cbn. eexists [], _. cbn. split; [done|]. split; [constructor | lia].
Qed.

(** An answer outside the 2xx range leaves the cache as it is, so the
    same key can be tried again. *)
Lemma error_response_not_recorded k res now c :
  ~ (200 <= statusCode res < 300) -> recordJson k res now c = c.
Proof.
  intros H. unfold recordJson.
  destruct (Z.leb_spec 200 (statusCode res)), (Z.ltb_spec (statusCode res) 300);
    cbn; try done; lia.
Qed.

(** C7, amended: a request under a well-formed key that the handler
    answered with a 2xx status is recorded; a later request with the same
    key, served before the time-to-live has run out and with fewer than
    [max] requests under other well-formed keys served in between, gets
    the recorded status and body, and the handler is not called for it. *)
Theorem replay_returns_recorded_response (k : string)
    (first : Req) (between : list Req) (replay : Req)
    (cache : LRUCache.t) (app : App) :
  let served1 := idempotencyMiddleware first (cache, app) in
  let st := serveAll between served1.2 in
  let served2 := idempotencyMiddleware replay st in
  idempotencyKey first = Some k ->
  isValidKey k = true ->
  nextCalled served1.1 = true ->
  200 <= statusCode (response served1.1) < 300 ->
  idempotencyKey replay = Some k ->
  Forall (fun req => servedAt req <= servedAt replay) between ->
  servedAt replay - servedAt first < LRUCache.ttl cache ->
  (others k between < LRUCache.max cache)%nat ->
  statusCode (response served2.1) = statusCode (response served1.1)
  /\ body (response served2.1) = body (response served1.1)
  /\ nextCalled served2.1 = false
  /\ served2.2.2 = st.2.
Proof.
  cbn zeta. intros Hk Hvalid Hnext Hstatus Hk2 Htimes Httl Hmax.
  destruct (first_request_recorded k first cache app Hk Hvalid)
    as (Hrec & Hm & Ht); [lia | done | done |].
  destruct (idempotencyMiddleware first (cache, app)) as [served1 [c1 app1]].
  cbn in *.
  destruct (serveAll_keeps_recorded k _ (servedAt first) (servedAt replay)
              between 0%nat c1 app1 Hrec Htimes) as (Hrec' & Hm' & Ht');
    [lia | cbn; lia |].
  destruct (serveAll between (c1, app1)) as [c2 app2]. cbn in *.
  destruct (get_recorded k _ (servedAt first) _ (servedAt replay) c2 Hrec')
    as (c3 & Hget & _); [lia|].
  unfold idempotencyMiddleware. rewrite Hk2.
  assert (forall A (x y : A),
            match k with "" => x | String _ _ => y end = y) as Hmatch
    by (intros; by destruct k).
  rewrite Hmatch, Hvalid. cbn [negb]. rewrite Hget. done.
Qed.

End Replay.

(** *** Replays over a counter of handler calls *)

Lemma replay_returns_recorded_response_witness :
  let served1 :=
    Idempotency.idempotencyMiddleware ReplayExample.first
      (Idempotency.idempotencyCache, 0%nat) in
  let st := Idempotency.serveAll [ReplayExample.other 0; ReplayExample.other 1]
              served1.2 in
  let served2 := Idempotency.idempotencyMiddleware ReplayExample.replay st in
  statusCode (Idempotency.response served2.1)
  = statusCode (Idempotency.response served1.1)
  /\ body (Idempotency.response served2.1) = body (Idempotency.response served1.1)
  /\ Idempotency.nextCalled served2.1 = false
  /\ served2.2.2 = st.2.
Proof.
  apply (replay_returns_recorded_response ReplayExample.key
           ReplayExample.first
           [ReplayExample.other 0; ReplayExample.other 1]
           ReplayExample.replay Idempotency.idempotencyCache 0%nat).
  - reflexivity.
  - reflexivity.
  - reflexivity.
  - vm_compute. split; [discriminate | reflexivity].
  - reflexivity.
  - repeat constructor; vm_compute; discriminate.
  - vm_compute. reflexivity.
  - vm_compute. lia.
Defined.

(** C7 as stated fails under size pressure: the answer to [first] is
    recorded, five hundred requests under other keys follow within the
    same millisecond, and the replay, two milliseconds after the first
    request, runs its handler and gets that handler's answer. *)
Lemma replay_after_eviction_runs_handler :
  let served1 :=
    Idempotency.idempotencyMiddleware ReplayExample.first
      (Idempotency.idempotencyCache, 0%nat) in
  let st := Idempotency.serveAll (ReplayExample.other <$> seq 0 500) served1.2 in
  let served2 := Idempotency.idempotencyMiddleware ReplayExample.replay st in
  Idempotency.isValidKey ReplayExample.key = true
  /\ Idempotency.nextCalled served1.1 = true
  /\ statusCode (Idempotency.response served1.1) = 200
  /\ LRUCache.find ReplayExample.key (LRUCache.items served1.2.1)
     = Some {| LRUCache.key := ReplayExample.key;
               LRUCache.value :=
                 {| status := 200;
                    cachedBody := body (Idempotency.response served1.1) |};
               LRUCache.start := ReplayExample.t0 |}
  /\ Idempotency.servedAt ReplayExample.replay
       - Idempotency.servedAt ReplayExample.first
     < LRUCache.ttl Idempotency.idempotencyCache
  /\ Idempotency.nextCalled served2.1 = true
  /\ body (Idempotency.response served2.1)
     <> body (Idempotency.response served1.1)
  /\ served2.2.2 = 502%nat.
Proof. vm_compute. repeat split; discriminate. Qed.

(** ** Retry and circuit breaker *)

Section Backoff.
Import Retry.

(** Without jitter the delay after attempt [i] is [backoffMs * 2^i]. *)
Lemma backoffDelay_plain backoffMs i rnd :
  backoffDelay backoffMs i false rnd = inject_Z (backoffMs * 2 ^ Z.of_nat i).
Proof. reflexivity. Qed.

(** With jitter it is that value times [0.5 + Math.random()]. *)
Lemma backoffDelay_jitter backoffMs i rnd :
  (backoffDelay backoffMs i true rnd
   == inject_Z (backoffMs * 2 ^ Z.of_nat i) * ((1 # 2) + rnd))%Q.
Proof. reflexivity. Qed.

(** [Math.random()] lies in [[0, 1)], so the factor lies in [[0.5, 1.5)]. *)
Lemma jitter_factor_range rnd :
  (0 <= rnd)%Q -> (rnd < 1)%Q ->
  ((1 # 2) <= (1 # 2) + rnd)%Q /\ ((1 # 2) + rnd < 3 # 2)%Q.
Proof.
  destruct rnd as [a b]. unfold Qle, Qlt. cbn. lia.
Qed.

Context {T : Type}.
Variable operationName correlationId : string.
Variable maxRetries backoffMs : Z.
Variable jitter : bool.
Variable threshold : Z.
Variable w : @World T.

Local Abbreviation loop :=
  (retryLoop operationName correlationId maxRetries backoffMs jitter threshold w).
Local Abbreviation failed := (recordFailure threshold w).

(** A failed attempt with attempts left: the operation was called, the
    executor waits [backoffDelay], and the loop goes on. *)
Lemma retryLoop_failed_attempt fuel i st :
  operation w i = None -> Z.of_nat i < maxRetries ->
  loop (S fuel) i st
  = let '(res, st', events) := loop fuel (S i) (failed st i) in
    (res, st',
     Invoked i :: Waited (backoffDelay backoffMs i jitter (random w i)) :: events).
Proof.
  intros Hop Hlt. cbn [retryLoop]. rewrite Hop.
  by destruct (Z.ltb_spec (Z.of_nat i) maxRetries); [|lia].
Qed.

Lemma retryLoop_invokes fuel i st :
  head (loop (S fuel) i st).2 = Some (Invoked i).
Proof.
  cbn [retryLoop]. destruct (operation w i); [done|].
  destruct (Z.of_nat i <? maxRetries); [|done].
  by destruct (retryLoop _ _ _ _ _ _ _ fuel (S i) _) as [[? ?] ?].
Qed.

Lemma recordFailure_fields st i :
  failures (failed st i) = failures st + 1
  /\ lastFailureTime (failed st i) = failedAt w i
  /\ isOpen (failed st i) = isOpen st || (threshold <=? failures st + 1).
Proof.
  unfold recordFailure.
  destruct (threshold <=? failures st + 1), (isOpen st); done.
Qed.

(** The first success ends the loop with the breaker closed and its
    counter at zero. *)
Lemma retryLoop_succeeds fuel : forall i st d v,
  (d < fuel)%nat ->
  Z.of_nat (i + fuel) = maxRetries + 1 ->
  (forall j, (i <= j < i + d)%nat -> operation w j = None) ->
  operation w (i + d) = Some v ->
  exists st',
    (loop fuel i st).1 = (Some v, st')
    /\ failures st' = 0 /\ isOpen st' = false.
Proof.
  induction fuel as [|fuel IH]; intros i st d v Hd Hfuel Hfail Hok; [lia|].
  destruct d as [|d].
  - rewrite Nat.add_0_r in Hok. cbn [retryLoop]. rewrite Hok. cbn. eauto.
  - rewrite retryLoop_failed_attempt by (try apply Hfail; lia).
    destruct (IH (S i) (failed st i) d v) as (st' & Hloop & ? & ?);
      [lia | lia | intros j ?; apply Hfail; lia
       | by rewrite <- Hok; f_equal; lia |].
    destruct (loop fuel (S i) (failed st i)) as [[res st''] events].
    cbn in *. eauto.
Qed.

(** When every attempt fails, each one is counted, the last one stamps
    the clock, and the breaker is open exactly if it was or the counter
    has reached the threshold. *)
Lemma retryLoop_exhausted fuel : forall i st,
  (0 < fuel)%nat ->
  Z.of_nat (i + fuel) = maxRetries + 1 ->
  (forall j, (i <= j < i + fuel)%nat -> operation w j = None) ->
  exists st',
    (loop fuel i st).1 = (None, st')
    /\ failures st' = failures st + Z.of_nat fuel
    /\ lastFailureTime st' = failedAt w (i + fuel - 1)
    /\ isOpen st' = isOpen st || (threshold <=? failures st + Z.of_nat fuel).
Proof.
  induction fuel as [|fuel IH]; intros i st Hpos Hfuel Hfail; [lia|].
  destruct (recordFailure_fields st i) as (Hf & Hl & Ho).
  destruct fuel as [|fuel].
  - cbn [retryLoop]. rewrite Hfail by lia.
    destruct (Z.ltb_spec (Z.of_nat i) maxRetries); [lia|].
    cbn. eexists. split; [done|].
    rewrite Hf, Hl, Ho. replace (i + 1 - 1)%nat with i by lia. done.
  - rewrite retryLoop_failed_attempt by (try apply Hfail; lia).
    destruct (IH (S i) (failed st i)) as (st' & Hloop & Hf' & Hl' & Ho');
      [lia | lia | intros j ?; apply Hfail; lia |].
    destruct (loop (S fuel) (S i) (failed st i)) as [[res st''] events].
    cbn in Hloop. injection Hloop as -> ->. cbn.
    eexists. split; [done|].
    rewrite Hf', Hl', Ho', Hf, Ho.
    replace (i + S (S fuel) - 1)%nat with (S i + S fuel - 1)%nat by lia.
    split; [lia|]. split; [done|].
    rewrite <- orb_assoc. f_equal.
    replace (failures st + 1 + Z.of_nat (S fuel))
      with (failures st + Z.of_nat (S (S fuel))) by lia.
    destruct (Z.leb_spec threshold (failures st + 1)),
             (Z.leb_spec threshold (failures st + Z.of_nat (S (S fuel))));
      try done; lia.
Qed.

End Backoff.

Section HalfOpen.
Import Retry.
Context {T : Type}.

(** Past the reset delay an open breaker is closed, its counter zeroed,
    and the retry loop runs. *)
Lemma execute_half_open (w : @World T) operationName correlationId options now
    (states : gmap string CircuitBreakerState) st :
  states !! operationName = Some st ->
  isOpen st = true ->
  resetMsOf options < now - lastFailureTime st ->
  executeAsyncSideEffect w operationName correlationId options now states
  = let '(res, st', events) :=
      retryLoop operationName correlationId (maxRetriesOf options)
        (backoffMsOf options) (jitterOf options) (thresholdOf options) w
        (Z.to_nat (maxRetriesOf options + 1)) 0
        {| failures := 0; isOpen := false;
           lastFailureTime := lastFailureTime st |} in
    (res, <[operationName := st']> states, events).
Proof.
  intros Hst Hopen Hreset. unfold executeAsyncSideEffect.
  fold (maxRetriesOf options) (backoffMsOf options) (jitterOf options)
       (thresholdOf options) (resetMsOf options).
  rewrite Hst. cbn [default from_option id]. rewrite Hopen.
  by destruct (Z.ltb_spec (resetMsOf options) (now - lastFailureTime st)); [|lia].
Qed.

(** Within the reset delay an open breaker rejects the call at once: the
    operation is not run and nothing changes. *)
Lemma execute_fail_fast (w : @World T) operationName correlationId options now
    (states : gmap string CircuitBreakerState) st :
  states !! operationName = Some st ->
  isOpen st = true ->
  now - lastFailureTime st <= resetMsOf options ->
  executeAsyncSideEffect w operationName correlationId options now states
  = (None, states, []).
Proof.
  intros Hst Hopen Hreset. unfold executeAsyncSideEffect.
  fold (resetMsOf options).
  rewrite Hst. cbn [default from_option id]. rewrite Hopen.
  by destruct (Z.ltb_spec (resetMsOf options) (now - lastFailureTime st)); [lia|].
Qed.

(** C9, amended: when more than [circuitBreakerResetMs] have passed since
    the last failure of an open breaker, the next call runs the operation;
    if an attempt of that call succeeds, the breaker ends closed with its
    counter at 0; if all its attempts fail, the counter, restarted from 0,
    ends at the number of attempts, the clock is restarted at the last
    failure, and the breaker is open again exactly if that number has
    reached [circuitBreakerThreshold]. *)
Theorem half_open_probe (w : @World T) (operationName correlationId : string)
    (options : option RetryOptions) (now : Z)
    (states : gmap string CircuitBreakerState) (st : CircuitBreakerState) :
  states !! operationName = Some st ->
  isOpen st = true ->
  resetMsOf options < now - lastFailureTime st ->
  0 <= maxRetriesOf options ->
  let out := executeAsyncSideEffect w operationName correlationId options now
               states in
  head out.2 = Some (Invoked 0)
  /\ (forall d v,
        Z.of_nat d <= maxRetriesOf options ->
        (forall j, (j < d)%nat -> operation w j = None) ->
        operation w d = Some v ->
        out.1.1 = Some v
        /\ exists st', out.1.2 !! operationName = Some st'
                       /\ failures st' = 0 /\ isOpen st' = false)
  /\ ((forall j, Z.of_nat j <= maxRetriesOf options -> operation w j = None) ->
      out.1.1 = None
      /\ out.1.2 !! operationName
         = Some {| failures := maxRetriesOf options + 1;
                   isOpen := thresholdOf options <=? maxRetriesOf options + 1;
                   lastFailureTime :=
                     failedAt w (Z.to_nat (maxRetriesOf options)) |}).
Proof.
  intros Hst Hopen Hreset Hretries. cbn zeta.
  rewrite (execute_half_open w _ _ _ _ _ st) by done.
  set (st0 := {| failures := 0; isOpen := false;
                 lastFailureTime := lastFailureTime st |}).
  assert (Z.to_nat (maxRetriesOf options + 1)
          = S (Z.to_nat (maxRetriesOf options))) as Hfuel by lia.
  rewrite Hfuel.
  set (fuel := Z.to_nat (maxRetriesOf options)).
  split; [|split].
  - pose proof (retryLoop_invokes operationName correlationId
                  (maxRetriesOf options) (backoffMsOf options)
                  (jitterOf options) (thresholdOf options) w fuel 0 st0) as Hhead.
    by destruct (retryLoop _ _ _ _ _ _ _ (S fuel) 0 st0) as [[? ?] ?].
  - intros d v Hd Hfail Hok.
    destruct (retryLoop_succeeds operationName correlationId
                (maxRetriesOf options) (backoffMsOf options)
                (jitterOf options) (thresholdOf options) w (S fuel) 0 st0 d v)
      as (st' & Hloop & Hf & Ho); [lia | lia | intros j ?; apply Hfail; lia | done |].
    destruct (retryLoop _ _ _ _ _ _ _ (S fuel) 0 st0) as [[res st''] events].
    cbn in Hloop. injection Hloop as -> ->. cbn.
    split; [done|]. exists st'. by rewrite lookup_insert_eq.
  - intros Hfail.
    destruct (retryLoop_exhausted operationName correlationId
                (maxRetriesOf options) (backoffMsOf options)
                (jitterOf options) (thresholdOf options) w (S fuel) 0 st0)
      as (st' & Hloop & Hf & Hl & Ho); [lia | lia | intros j ?; apply Hfail; lia |].
    destruct (retryLoop _ _ _ _ _ _ _ (S fuel) 0 st0) as [[res st''] events].
    cbn in Hloop. injection Hloop as -> ->. cbn.
    split; [done|]. rewrite lookup_insert_eq. f_equal.
    destruct st' as [f o l]. cbn in *. subst f o l. f_equal.
    + lia.
    + f_equal. lia.
    + f_equal. lia.
Qed.

End HalfOpen.

(** *** The breaker of one operation kind, opened by five failures *)

Lemma half_open_probe_witness :
  let out := Retry.executeAsyncSideEffect BreakerExample.failing
               BreakerExample.kind "corr-1" None 30001 BreakerExample.opened in
  head out.2 = Some (Retry.Invoked 0)
  /\ (forall d v,
        Z.of_nat d <= maxRetriesOf None ->
        (forall j, (j < d)%nat -> Retry.operation BreakerExample.failing j = None) ->
        Retry.operation BreakerExample.failing d = Some v ->
        out.1.1 = Some v
        /\ exists st', out.1.2 !! BreakerExample.kind = Some st'
                       /\ Retry.failures st' = 0 /\ Retry.isOpen st' = false)
  /\ ((forall j, Z.of_nat j <= maxRetriesOf None ->
                 Retry.operation BreakerExample.failing j = None) ->
      out.1.1 = None
      /\ out.1.2 !! BreakerExample.kind
         = Some {| Retry.failures := maxRetriesOf None + 1;
                   Retry.isOpen := thresholdOf None <=? maxRetriesOf None + 1;
                   Retry.lastFailureTime :=
                     Retry.failedAt BreakerExample.failing
                       (Z.to_nat (maxRetriesOf None)) |}).
Proof.
  apply (half_open_probe BreakerExample.failing BreakerExample.kind "corr-1"
           None 30001 BreakerExample.opened
           {| Retry.failures := 5; Retry.isOpen := true;
              Retry.lastFailureTime := 0 |}).
  - reflexivity.
  - reflexivity.
  - vm_compute. reflexivity.
  - vm_compute. discriminate.
Defined.

(** C9 as stated fails with the default options: the probe call fails on
    all of its four attempts, and the breaker ends closed, four failures
    counted, below the threshold of five. *)
Lemma failed_probe_leaves_breaker_closed :
  let out := Retry.executeAsyncSideEffect BreakerExample.failing
               BreakerExample.kind "corr-1" None 30001 BreakerExample.opened in
  (Retry.isOpen <$> BreakerExample.opened !! BreakerExample.kind) = Some true
  /\ resetMsOf None < 30001 - 0
  /\ out.1.1 = None
  /\ BreakerExample.invocations out.2 = 4%nat
  /\ out.1.2 !! BreakerExample.kind
     = Some {| Retry.failures := 4; Retry.isOpen := false;
               Retry.lastFailureTime := 30401 |}.
Proof. vm_compute. repeat split. Qed.

(** C8 on the code: attempt 0 fails with attempts left, the jitter is on
    by default and [Math.random()] returns 0.75; the executor waits
    [1000 * 2^0 * 1.25 = 1250] ms, a factor outside [[0.5, 1.0)]. *)
Theorem jitter_factor_reaches_above_one :
  let out := Retry.executeAsyncSideEffect BreakerExample.flaky
               BreakerExample.kind "corr-2" None 0 ∅ in
  let delay := Retry.backoffDelay 1000 0 true (3 # 4) in
  (0 <= 3 # 4)%Q /\ (3 # 4 < 1)%Q
  /\ out.1.1 = Some tt
  /\ out.2 = [Retry.Invoked 0; Retry.Waited delay; Retry.Invoked 1]
  /\ (delay == 1250)%Q
  /\ (delay == inject_Z (1000 * 2 ^ 0) * (5 # 4))%Q
  /\ ~ (delay < inject_Z (1000 * 2 ^ 0) * 1)%Q.
Proof. vm_compute. repeat split; discriminate. Qed.

(** * Further properties *)

(** ** The rule chain on updates and uploads *)

Section RuleChainMore.
Import BusinessRulesService.
Variable cfg : Config.
Variable dates : DateLib.
Variable now : Z.

(** The verdict of the chain on an update of a stored report. *)
Lemma update_verdict (u : User.t) (r : Report.t) (res : option Resource) :
  exists out,
    evaluateAllRules cfg dates now (updateOf u r res) = Ok out
    /\ allowed out = mayUpdate cfg dates now u r.
Proof.
  unfold evaluateAllRules, rules, mayUpdate, updateOf.
  rewrite !firstDenial_cons.
  unfold total, checkReportLifecycleManagement, checkAttachmentQuota,
    checkReportCollaboration, checkDataRetentionPolicy,
    checkGeneralEditPermissions, statusIs, includes.
  cbn [action user report resource allowed allow negb andb orb firstDenial].
  rewrite (bool_decide_eq_true_2 (AUpdate = AUpdate)) by done.
  rewrite (bool_decide_eq_false_2 (AUpdate = AUpload)) by done.
  cbn [andb negb allowed allow].
  destruct (Z.ltb_spec (Z.of_nat (length (Report.concurrentEditors r)))
              (maxConcurrentEditors cfg)) as [Hlen|Hlen];
    [rewrite (proj2 (Z.leb_gt _ _)) by lia | rewrite (proj2 (Z.leb_le _ _)) by lia];
    destruct (User.role u);
    destruct (bool_decide (Report.status r = ARCHIVED));
    destruct (bool_decide (Report.createdBy r = User.id u));
    destruct (bool_decide (User.id u ∈ Report.collaborators r));
    destruct (bool_decide (User.id u ∈ Report.concurrentEditors r));
    destruct (Report.createdAt r <? addYears dates now (-2));
    cbn; eauto.
Qed.

(** X1: on a stored report the chain returns, and it allows an update
    exactly when all five rules are met: the report is not archived or the
    actor is an Admin; the actor is creator, collaborator or Admin; the
    actor is already editing or fewer than [maxConcurrentEditors] are;
    the report was not created more than two years ago or the actor is an
    Admin; and the actor is Editor or Admin. *)
Theorem update_allowed_iff_all_rules (u : User.t) (r : Report.t)
    (res : option Resource) :
  exists out,
    evaluateAllRules cfg dates now (updateOf u r res) = Ok out
    /\ (allowed out = true
        <-> (Report.status r <> ARCHIVED \/ User.role u = ADMIN)
            /\ (Report.createdBy r = User.id u
                \/ (User.id u ∈ Report.collaborators r)
                \/ User.role u = ADMIN)
            /\ ((User.id u ∈ Report.concurrentEditors r)
                \/ Z.of_nat (length (Report.concurrentEditors r))
                   < maxConcurrentEditors cfg)
            /\ (addYears dates now (-2) <= Report.createdAt r
                \/ User.role u = ADMIN)
            /\ (User.role u = EDITOR \/ User.role u = ADMIN)).
Proof.
  destruct (update_verdict u r res) as (out & Hout & Hallowed).
  exists out. split; [done|]. rewrite Hallowed. unfold mayUpdate.
  rewrite !andb_true_iff, !orb_true_iff, !negb_true_iff,
    !bool_decide_eq_true, bool_decide_eq_false, Z.ltb_lt, Z.ltb_ge.
  tauto.
Qed.

(** X2: an Admin's update is denied by one thing only, the limit of
    concurrent editors: the chain denies it exactly when the Admin is not
    among the current editors and these already number
    [maxConcurrentEditors] or more. *)
Theorem admin_update_denied_iff_editor_limit (u : User.t) (r : Report.t)
    (res : option Resource) :
  User.role u = ADMIN ->
  exists out,
    evaluateAllRules cfg dates now (updateOf u r res) = Ok out
    /\ (allowed out = false
        <-> (User.id u ∉ Report.concurrentEditors r)
            /\ maxConcurrentEditors cfg
               <= Z.of_nat (length (Report.concurrentEditors r))).
Proof.
  intros Hadmin.
  destruct (update_verdict u r res) as (out & Hout & Hallowed).
  exists out. split; [done|]. rewrite Hallowed. unfold mayUpdate.
  rewrite Hadmin. cbn.
  rewrite !orb_true_r. cbn. rewrite !andb_true_r.
  destruct (decide (User.id u ∈ Report.concurrentEditors r)) as [Hin|Hin].
  - rewrite bool_decide_eq_true_2 by done. cbn. split; [done | intros []; done].
  - rewrite bool_decide_eq_false_2 by done. cbn.
    destruct (Z.ltb_spec (Z.of_nat (length (Report.concurrentEditors r)))
                (maxConcurrentEditors cfg)); split; try done; try lia.
Qed.

(** The verdict of the chain on an upload. *)
Lemma upload_verdict (ctx : BusinessRuleContext) :
  action ctx = AUpload ->
  evaluateAllRules cfg dates now ctx
  = Ok (if allowed (checkAttachmentQuota cfg ctx) then allow
        else checkAttachmentQuota cfg ctx).
Proof.
  intros Ha.
  assert (action ctx <> AUpdate) as Hu by (rewrite Ha; done).
  unfold evaluateAllRules, rules.
  rewrite firstDenial_pass by (by rewrite lifecycle_passes_off_update).
  destruct (allowed (checkAttachmentQuota cfg ctx)) eqn:Hq.
  - rewrite firstDenial_pass by done.
    rewrite firstDenial_cons, collaboration_passes_off_update by done.
    cbn [negb allowed allow].
    rewrite firstDenial_pass by (by rewrite retention_passes_off_update).
    rewrite firstDenial_pass by (by rewrite general_passes_off_update).
    reflexivity.
  - by rewrite firstDenial_deny.
Qed.

(** X3: an upload is decided by the quota rule alone, whatever the report
    (the placeholder included), its status and the actor's role: the
    chain returns, it allows exactly when the quota rule does, and what it
    returns on a denial is the quota rule's denial. *)
Theorem upload_decided_by_quota (ctx : BusinessRuleContext) :
  action ctx = AUpload ->
  exists out,
    evaluateAllRules cfg dates now ctx = Ok out
    /\ allowed out = allowed (checkAttachmentQuota cfg ctx)
    /\ (allowed out = false -> out = checkAttachmentQuota cfg ctx).
Proof.
  intros Ha. rewrite upload_verdict by done.
  eexists. split; [done|].
  destruct (allowed (checkAttachmentQuota cfg ctx)) eqn:Hq; cbn.
  - split; [done | discriminate].
  - by rewrite Hq.
Qed.

(** X4: behind [authenticateToken] the quota is a bound on each file, not
    on the usage: the user it attaches has [storageUsed = 0], so the chain
    denies an upload exactly when the size is not zero and exceeds the
    quota of the tier in the token. *)
Theorem authenticated_upload_denied_iff_file_exceeds_quota
    (payload : AuthMiddleware.JWTPayload) (t : Z) (r : option Report.t)
    (size : Z) :
  exists out,
    evaluateAllRules cfg dates now
      (uploadOf (AuthMiddleware.authenticatedUser payload t) r size)
    = Ok out
    /\ (allowed out = false
        <-> size <> 0 /\ size > getUserQuota cfg (AuthMiddleware.tier payload)).
Proof.
  rewrite upload_verdict by done.
  eexists. split; [done|].
  unfold checkAttachmentQuota, uploadOf, truthyFileSize.
  cbn [action user resource fileSize].
  rewrite bool_decide_eq_true_2 by done.
  destruct (Z.eqb_spec size 0) as [->|Hne]; [cbn; split; [done | lia]|].
  unfold AuthMiddleware.authenticatedUser. cbn [User.storageUsed User.tier].
  rewrite Z.add_0_l.
  destruct (Z.leb_spec size (getUserQuota cfg (AuthMiddleware.tier payload)));
    cbn; split; try done; try lia.
Qed.

(** X5: the guard of the routes and the last rule of the chain agree:
    [requireMinRole(EDITOR)] lets a user through exactly when the general
    edit rule allows that user's update, that is when the user is not a
    Reader; and a Reader is answered 403. *)
Theorem route_guard_agrees_with_edit_rule (u : User.t) (r : Report.t)
    (res : option Resource) :
  (AuthMiddleware.requireMinRole EDITOR (Some u) = None
   <-> allowed (checkGeneralEditPermissions (updateOf u r res)) = true)
  /\ (AuthMiddleware.requireMinRole EDITOR (Some u) = None
      <-> User.role u <> READER)
  /\ (User.role u = READER ->
      statusCode <$> AuthMiddleware.requireMinRole EDITOR (Some u) = Some 403).
Proof.
  unfold AuthMiddleware.requireMinRole, AuthService.hasRole,
    checkGeneralEditPermissions, updateOf. cbn.
  destruct (User.role u); cbn; repeat split; try done.
Qed.

End RuleChainMore.

(** X6: the role checks of [AuthService] order the roles: a user has
    every role at or below the user's own, so whoever has a role has the
    roles below it; and [canPerformAction] asks Editor for create and
    update, Admin for delete, and nothing for read. *)
Theorem roles_are_ordered (u : User.t) (r r' : UserRole) :
  (AuthService.hasRole u r = true ->
   AuthService.roleHierarchy r' <= AuthService.roleHierarchy r ->
   AuthService.hasRole u r' = true)
  /\ AuthService.hasRole u READER = true
  /\ (AuthService.hasRole u ADMIN = true <-> User.role u = ADMIN)
  /\ AuthService.canPerformAction u ARead = true
  /\ AuthService.canPerformAction u ACreate = AuthService.hasRole u EDITOR
  /\ AuthService.canPerformAction u AUpdate = AuthService.hasRole u EDITOR
  /\ AuthService.canPerformAction u ADelete = AuthService.hasRole u ADMIN.
Proof.
  unfold AuthService.hasRole, AuthService.canPerformAction.
  split; [intros H1%Z.leb_le H2; apply Z.leb_le; lia|].
  destruct (User.role u); cbn; repeat split; try done.
Qed.

(** X7: [canAddCollaborator] allows exactly a user who is neither the
    creator nor already a collaborator of a report with fewer than ten
    collaborators; so adding an allowed collaborator keeps the list free
    of repetitions and of the creator, and at ten names at most. *)
Theorem canAddCollaborator_allows_iff (r : Report.t) (newId : string) :
  (allowed (Collaborators.canAddCollaborator r newId) = true
   <-> (newId ∉ Report.collaborators r)
       /\ Report.createdBy r <> newId
       /\ (length (Report.collaborators r) < 10)%nat)
  /\ (allowed (Collaborators.canAddCollaborator r newId) = true ->
      NoDup (Report.collaborators r) ->
      (Report.createdBy r ∉ Report.collaborators r) ->
      NoDup (newId :: Report.collaborators r)
      /\ (Report.createdBy r ∉ newId :: Report.collaborators r)
      /\ (length (newId :: Report.collaborators r) <= 10)%nat).
Proof.
  assert (allowed (Collaborators.canAddCollaborator r newId) = true
          <-> (newId ∉ Report.collaborators r)
              /\ Report.createdBy r <> newId
              /\ (length (Report.collaborators r) < 10)%nat) as Hiff.
  { unfold Collaborators.canAddCollaborator, BusinessRulesService.includes,
      Collaborators.maxCollaborators.
    destruct (decide (newId ∈ Report.collaborators r)) as [Hin|Hin];
      [rewrite bool_decide_eq_true_2 by done; cbn;
       split; [done | intros (? & _); done]|].
    rewrite (bool_decide_eq_false_2 _ Hin). cbn.
    destruct (decide (Report.createdBy r = newId)) as [Hc|Hc];
      [rewrite bool_decide_eq_true_2 by done; cbn;
       split; [done | intros (_ & ? & _); done]|].
    rewrite (bool_decide_eq_false_2 _ Hc). cbn.
    destruct (Z.leb_spec 10 (Z.of_nat (length (Report.collaborators r))));
      cbn; split; try done; try lia.
    intros _. repeat split; [done | done | lia]. }
  split; [exact Hiff|].
  intros (Hin & Hc & Hlen)%Hiff Hnd Hcr.
  split; [by constructor|]. split; [|cbn; lia].
  intros [?|?]%elem_of_cons; congruence.
Qed.

(** ** The store, beyond updates *)

Section StoreMore.
Import DataStore.

(** X8: a created report can be read back under its identifier: it is
    active, at version 1, stamped with the instant of its creation; every
    other report is as it was; and the store stays keyed by id. *)
Theorem createReport_then_get (reportData : ReportData.t) (uuid : string)
    (now : Z) (s : InMemoryStore) :
  let out := createReport reportData uuid now s in
  getReport uuid out.2 = Some out.1
  /\ Report.id out.1 = uuid
  /\ Report.version out.1 = 1
  /\ Report.isActive out.1 = true
  /\ Report.createdAt out.1 = now
  /\ Report.updatedAt out.1 = now
  /\ (forall id, id <> uuid -> reports out.2 !! id = reports s !! id)
  /\ (keyed s -> keyed out.2).
Proof.
  cbn zeta. unfold createReport, getReport. cbn.
  rewrite lookup_insert_eq. cbn. repeat split.
  - intros id Hne. by rewrite lookup_insert_ne.
  - intros Hk k r. cbn. destruct (decide (uuid = k)) as [->|Hne].
    + rewrite lookup_insert_eq. by intros [= <-].
    + rewrite lookup_insert_ne by done. apply Hk.
Qed.


Lemma addAuditLog_last log s : last (auditLogs (addAuditLog log s)) = Some log.
Proof.
  unfold addAuditLog. cbn [auditLogs].
  destruct (Nat.ltb_spec 1000 (length (auditLogs s ++ [log]))) as [Hlen|Hlen];
    [|apply last_snoc].
  rewrite length_app in *. cbn [length] in *.
  rewrite drop_app_le by lia. apply last_snoc.
Qed.

(** X10: the audit trail holds the last thousand entries: after an entry
    is added it is the last one, the trail is the end of the old trail
    followed by it, never longer than 1000, one longer than before when
    there was room; reports and users are not touched. *)
Theorem addAuditLog_keeps_last_thousand (log : AuditLog.t) (s : InMemoryStore) :
  let s' := addAuditLog log s in
  last (auditLogs s') = Some log
  /\ auditLogs s' `suffix_of` (auditLogs s ++ [log])%list
  /\ (length (auditLogs s') <= 1000)%nat
  /\ ((length (auditLogs s) < 1000)%nat ->
      auditLogs s' = (auditLogs s ++ [log])%list)
  /\ reports s' = reports s
  /\ users s' = users s.
Proof.
  cbn zeta. split; [apply addAuditLog_last|].
  unfold addAuditLog. cbn [auditLogs reports users].
  destruct (Nat.ltb_spec 1000 (length (auditLogs s ++ [log]))) as [Hlen|Hlen].
  - split; [apply suffix_drop|]. rewrite length_drop.
    rewrite length_app in *. cbn [length] in *. repeat split; lia.
  - rewrite length_app in Hlen. cbn [length] in Hlen.
    repeat split; try reflexivity; rewrite ?length_app; cbn [length]; lia.
Qed.

Variable cfg : Config.
Variable dates : DateLib.

Lemma autoArchived_again now r :
  autoArchived cfg dates now (autoArchived cfg dates now r)
  = autoArchived cfg dates now r.
Proof.
  unfold autoArchived.
  destruct (Report.isActive r && BusinessRulesService.shouldAutoArchive cfg dates now r)
    eqn:Hc; [|by rewrite Hc].
  unfold BusinessRulesService.shouldAutoArchive. cbn.
  by rewrite andb_false_r, andb_false_r.
Qed.

(** The auto-archive leaves no active report to archive. *)
Lemma autoArchive_none_left now s id r' :
  reports (autoArchiveOldReports cfg dates now s) !! id = Some r' ->
  Report.isActive r' = true ->
  BusinessRulesService.shouldAutoArchive cfg dates now r' = false.
Proof.
  intros [(r & _ & ->)|(r & _ & _ & _ & ->)]%autoArchive_holds.
  - unfold autoArchived. destruct (Report.isActive r) eqn:Ha; cbn.
    + destruct (BusinessRulesService.shouldAutoArchive cfg dates now r) eqn:Hs;
        [|done].
      intros _. unfold BusinessRulesService.shouldAutoArchive. cbn.
      by rewrite andb_false_r.
    + by rewrite Ha.
  - intros _. unfold BusinessRulesService.shouldAutoArchive. cbn.
    by rewrite andb_false_r.
Qed.

(** With no active report to archive the auto-archive writes nothing. *)
Lemma autoArchive_nothing_to_do now s :
  (forall id r, reports s !! id = Some r -> Report.isActive r = true ->
     BusinessRulesService.shouldAutoArchive cfg dates now r = false) ->
  autoArchiveOldReports cfg dates now s = s.
Proof.
  intros Hnone. unfold autoArchiveOldReports. cbn zeta.
  set (toArchive := List.filter _ _).
  assert (toArchive = []) as ->.
  { destruct toArchive as [|r l] eqn:Hl; [done|].
    assert (r ∈ toArchive) as ((k & Hr) & Ha & Hs)%autoArchive_snapshot
      by (rewrite Hl; by left).
    rewrite (Hnone k r Hr Ha) in Hs. done. }
  cbn [foldl].
  assert (autoArchived cfg dates now <$> reports s = reports s) as ->.
  { apply map_eq. intros k. rewrite lookup_fmap.
    destruct (reports s !! k) as [r|] eqn:Hr; [|done]. cbn. f_equal.
    unfold autoArchived. destruct (Report.isActive r) eqn:Ha; [|done].
    by rewrite (Hnone k r Hr Ha). }
  by destruct s.
Qed.

(** Of the reports that the loop stores under one id, the last is the one
    the id holds. *)
Lemma autoArchive_sets_write now (l : list Report.t) :
  forall (m : gmap string Report.t) r,
  r ∈ l ->
  exists r', r' ∈ l /\ Report.id r' = Report.id r
             /\ foldl (fun m report =>
                         <[Report.id report := archived report now]> m) m l
                  !! Report.id r
                = Some (archived r' now).
Proof.
  induction l as [|x l IH] using rev_ind; intros m r Hin.
  { by apply elem_of_nil in Hin. }
  rewrite foldl_app. cbn.
  destruct (decide (Report.id x = Report.id r)) as [Hid|Hne].
  - exists x. split; [apply elem_of_app; right; by left|].
    split; [done|]. by rewrite <- Hid, lookup_insert_eq.
  - apply elem_of_app in Hin as [Hin|Hin%list_elem_of_singleton];
      [|congruence].
    destruct (IH m r Hin) as (r' & Hr' & Hid' & Hlook).
    exists r'. split; [apply elem_of_app; by left|]. split; [done|].
    by rewrite lookup_insert_ne.
Qed.

(** X11: in a store that holds every report under its own id the
    auto-archive archives, in place, exactly the active reports created
    before the cutoff that are not archived yet, and leaves every other
    report as it is.  In any store a report it archives is stored under
    the key that its id names, whatever key it was read from, where the
    id then holds an archived report; no active report is left to
    archive; and running it again at the same instant changes nothing. *)
Theorem autoArchive_archives_once (now : Z) (s : InMemoryStore) :
  let s' := autoArchiveOldReports cfg dates now s in
  (keyed s ->
   (forall id r, reports s !! id = Some r ->
      reports s' !! id
      = Some (if Report.isActive r
                 && (Report.createdAt r
                       <? addDays dates now (- autoArchiveDays cfg))
                 && negb (bool_decide (Report.status r = ARCHIVED))
              then archived r now else r))
   /\ (forall id, reports s !! id = None -> reports s' !! id = None))
  /\ (forall k r, reports s !! k = Some r ->
        Report.isActive r = true ->
        BusinessRulesService.shouldAutoArchive cfg dates now r = true ->
        exists r', reports s' !! Report.id r = Some r'
                   /\ Report.id r' = Report.id r
                   /\ Report.status r' = ARCHIVED
                   /\ Report.isActive r' = true)
  /\ (forall id r', reports s' !! id = Some r' ->
        Report.isActive r' = true ->
        BusinessRulesService.shouldAutoArchive cfg dates now r' = false)
  /\ autoArchiveOldReports cfg dates now s' = s'.
Proof.
  cbn zeta. split; [|split; [|split]].
  - intros Hk. split.
    + intros id r Hr. rewrite autoArchive_keyed_lookup, Hr by done. cbn.
      unfold autoArchived, BusinessRulesService.shouldAutoArchive.
      by rewrite andb_assoc.
    + intros id Hr. by rewrite autoArchive_keyed_lookup, Hr.
  - intros k r Hr Ha Hs.
    assert (r ∈ List.filter (BusinessRulesService.shouldAutoArchive cfg dates now)
                  (List.filter Report.isActive
                     (snd <$> map_to_list (reports s)))) as Hin.
    { apply list_elem_of_In, filter_In. split; [|done].
      apply filter_In. split; [|done].
      apply list_elem_of_In, list_elem_of_fmap. exists (k, r).
      split; [done|]. by apply elem_of_map_to_list. }
    destruct (autoArchive_sets_write now _
                (autoArchived cfg dates now <$> reports s) r Hin)
      as (r' & Hin' & Hid & Hlook).
    apply autoArchive_snapshot in Hin' as (_ & Ha' & _).
    exists (archived r' now). split; [exact Hlook|]. by split.
  - intros id r'. apply autoArchive_none_left.
  - apply autoArchive_nothing_to_do. intros id r'. apply autoArchive_none_left.
Qed.

End StoreMore.

(** ** The endpoints *)

Section EndpointMore.
Import ReportsController.
Variable cfg : Config.
Variable dates : DateLib.

Lemma chain_passes_other_actions now ctx :
  action ctx <> AUpdate -> action ctx <> AUpload ->
  BusinessRulesService.evaluateAllRules cfg dates now ctx = Ok allow.
Proof.
  intros Hu Hl. unfold BusinessRulesService.evaluateAllRules, BusinessRulesService.rules.
  rewrite firstDenial_pass by (by rewrite lifecycle_passes_off_update).
  rewrite firstDenial_pass by (by rewrite quota_passes_off_upload).
  rewrite firstDenial_cons, collaboration_passes_off_update by done.
  cbn [negb allowed allow].
  rewrite firstDenial_pass by (by rewrite retention_passes_off_update).
  rewrite firstDenial_pass by (by rewrite general_passes_off_update).
  reflexivity.
Qed.

Lemma archived_denial_for_non_admin now u r res :
  Report.status r = ARCHIVED -> User.role u <> ADMIN ->
  BusinessRulesService.evaluateAllRules cfg dates now (updateOf u r res)
  = Ok archivedDenial.
Proof.
  intros Hst Hrole.
  assert (BusinessRulesService.checkReportLifecycleManagement (updateOf u r res)
          = archivedDenial) as Hden.
  { unfold BusinessRulesService.checkReportLifecycleManagement,
      BusinessRulesService.statusIs, updateOf. cbn.
    rewrite Hst. by rewrite (bool_decide_eq_false_2 _ Hrole). }
  unfold BusinessRulesService.evaluateAllRules, BusinessRulesService.rules.
  rewrite firstDenial_deny by (by rewrite Hden). by rewrite Hden.
Qed.

(** What the update endpoint does once the validation has passed and the
    report has been read. *)
Lemma updateReport_on_active req uuid now s cur :
  Request.validation req = [] ->
  DataStore.getReport (Request.id req) s = Some cur ->
  let updated :=
    DataStore.merged cur (updatesOf (Request.body req) cur)
      (User.id (Request.user req)) now in
  exists out,
    BusinessRulesService.evaluateAllRules cfg dates now
      (updateOf (Request.user req) cur None) = Ok out
    /\ allowed out = mayUpdate cfg dates now (Request.user req) cur
    /\ updateReport cfg dates req uuid now s
       = if allowed out then
           ({| statusCode := 200; headers := [];
               body := Success "Report updated successfully"
                         (UpdatedReport (Report.id updated) (Report.title updated)
                            (Report.status updated) (Report.priority updated)
                            (Report.version updated) (Report.updatedAt updated)
                            (Report.collaborators updated)
                            (Report.concurrentEditors updated)) |},
            DataStore.addAuditLog
              (AuditLog.mk uuid (User.id (Request.user req)) "update" "report"
                 (Request.id req) (Some cur) (Some updated) now
                 (Request.ip req) (Request.userAgent req))
              (DataStore.setReports s (<[Request.id req := updated]> (reports s))))
         else
           ({| statusCode := 403; headers := [];
               body := Failure (orElse (reason out) "Update not allowed")
                         [("authorization",
                           orElse (reason out) "Update not allowed")] |}, s).
Proof.
  intros Hval Hget. cbn zeta.
  destruct (update_verdict cfg dates now (Request.user req) cur None)
    as (out & Hout & Hallowed).
  exists out. split; [done|]. split; [done|].
  unfold updateReport, tryUpdateReport. rewrite Hval, Hget.
  change {| user := Request.user req; report := Some cur;
            action := AUpdate; resource := None |}
    with (updateOf (Request.user req) cur None).
  rewrite Hout.
  destruct (allowed out); cbn [negb]; [|done].
  apply getReport_Some in Hget as [Hr Ha].
  rewrite (updateReport_writes _ _ _ _ _ cur); [done | done | done |].
  cbn. intros v [= <-]. by right.
Qed.


(** X13: the create endpoint answers 201 exactly when the validation
    found no error, whatever the role of the caller, and 400 otherwise,
    leaving the store as it was.  On 201 the report can be read back under
    the new identifier, which the Location header names: a draft at
    version 1, created and last modified by the caller, with no editor, no
    entry and no comment; the audit trail ends with its entry. *)
Theorem createReport_endpoint_answers (req : Request.t CreateReportRequest.t)
    (uuid auditId : string) (now : Z) (s : InMemoryStore) :
  let out := createReport cfg dates req uuid auditId now s in
  (statusCode out.1 = 201 <-> Request.validation req = [])
  /\ (statusCode out.1 = 400 <-> Request.validation req <> [])
  /\ (Request.validation req <> [] -> out.2 = s)
  /\ (Request.validation req = [] ->
      headers out.1 = [("Location", "/api/reports/" +:+ uuid)]
      /\ exists r,
           DataStore.getReport uuid out.2 = Some r
           /\ Report.id r = uuid
           /\ Report.status r = DRAFT
           /\ Report.version r = 1
           /\ Report.title r = CreateReportRequest.title (Request.body req)
           /\ Report.createdBy r = User.id (Request.user req)
           /\ Report.lastModifiedBy r = User.id (Request.user req)
           /\ Report.concurrentEditors r = []
           /\ Report.entries r = [] /\ Report.comments r = []
           /\ last (auditLogs out.2)
              = Some (AuditLog.mk auditId (User.id (Request.user req)) "create"
                        "report" uuid None (Some r) now
                        (Request.ip req) (Request.userAgent req))).
Proof.
  cbn zeta. unfold createReport, tryCreateReport.
  destruct (Request.validation req) as [|e es] eqn:Hval; [|by cbn].
  rewrite chain_passes_other_actions by done. cbn [negb allowed allow].
  unfold DataStore.createReport. cbn [fst snd statusCode headers Report.id].
  split; [done|]. split; [done|]. split; [done|]. intros _.
  split; [done|]. eexists. split.
  { unfold DataStore.getReport. cbn. by rewrite lookup_insert_eq. }
  repeat (split; [reflexivity|]). apply addAuditLog_last.
Qed.

(** X14: a report the auto-archive has archived is closed to everyone but
    Admins at the update endpoint: the request is answered 403 with the
    reason of the lifecycle rule, and nothing is written. *)
Theorem auto_archived_report_rejects_non_admin
    (req : Request.t UpdateReportRequest.t) (uuid : string) (t now : Z)
    (s : InMemoryStore) (r : Report.t) :
  reports s !! Request.id req = Some r ->
  Report.isActive r = true ->
  BusinessRulesService.shouldAutoArchive cfg dates t r = true ->
  Request.validation req = [] ->
  User.role (Request.user req) <> ADMIN ->
  let s' := DataStore.autoArchiveOldReports cfg dates t s in
  updateReport cfg dates req uuid now s'
  = ({| statusCode := 403; headers := [];
        body := Failure "Only ADMIN users can edit archived reports"
                  [("authorization",
                    "Only ADMIN users can edit archived reports")] |}, s').
Proof.
  intros Hr Ha Hold Hval Hrole. cbn zeta.
  assert (exists r', DataStore.getReport (Request.id req)
                       (DataStore.autoArchiveOldReports cfg dates t s) = Some r'
                     /\ Report.status r' = ARCHIVED) as (r' & Hget & Hst).
  { destruct (autoArchive_sets_keep t
                (List.filter (BusinessRulesService.shouldAutoArchive cfg dates t)
                   (List.filter Report.isActive
                      (snd <$> map_to_list (reports s))))
                (DataStore.autoArchived cfg dates t <$> reports s)
                (Request.id req)) as [r' Hr'].
    { by rewrite lookup_fmap, Hr. }
    exists r'. unfold DataStore.getReport.
    change (reports (DataStore.autoArchiveOldReports cfg dates t s)
              !! Request.id req = Some r') in Hr'.
    rewrite Hr'.
    apply autoArchive_holds in Hr' as [(r0 & Hr0 & ->)|(r0 & Ha0 & _ & _ & ->)].
    - assert (r0 = r) as -> by congruence.
      unfold DataStore.autoArchived. rewrite Ha, Hold. cbn. by rewrite Ha.
    - cbn. by rewrite Ha0. }
  destruct (updateReport_on_active req uuid now _ _ Hval Hget)
    as (out & Hout & _ & ->).
  rewrite archived_denial_for_non_admin in Hout by done.
  by injection Hout as <-.
Qed.

End EndpointMore.

(** ** The executor, from a closed breaker on *)

Section ExecutorMore.
Import Retry.
Context {T : Type}.

Lemma invocationCount_failedAttempts (w : @World T) backoffMs jitter d : forall i,
  invocationCount (failedAttempts w backoffMs jitter i d) = d
  /\ deadLetters (failedAttempts w backoffMs jitter i d) = [].
Proof.
  unfold failedAttempts, invocationCount.
  induction d as [|d IH]; intros i; [done|].
  destruct (IH (S i)) as [IH1 IH2]. cbn. split; [by rewrite IH1 | done].
Qed.

Lemma invocationCount_app l1 l2 :
  invocationCount (l1 ++ l2) = (invocationCount l1 + invocationCount l2)%nat.
Proof. unfold invocationCount. by rewrite List.filter_app, length_app. Qed.

Lemma deadLetters_app l1 l2 :
  deadLetters (l1 ++ l2) = (deadLetters l1 ++ deadLetters l2)%list.
Proof. unfold deadLetters. apply omap_app. Qed.

Lemma totalWait_app l1 l2 :
  (totalWait (l1 ++ l2) == totalWait l1 + totalWait l2)%Q.
Proof.
  induction l1 as [|e l1 IH]; cbn.
  - by rewrite Qplus_0_l.
  - destruct e; try done. rewrite IH. by rewrite Qplus_assoc.
Qed.

Lemma totalWait_failedAttempts_plain (w : @World T) backoffMs d : forall i,
  (totalWait (failedAttempts w backoffMs false i d)
   == inject_Z (backoffMs * 2 ^ Z.of_nat i * (2 ^ Z.of_nat d - 1)))%Q.
Proof.
  unfold failedAttempts.
  induction d as [|d IH]; intros i.
  - cbn [seq flat_map totalWait fold_right]. change (Z.of_nat 0) with 0.
    rewrite Z.pow_0_r, Z.sub_diag, Z.mul_0_r. reflexivity.
  - cbn [seq flat_map app totalWait fold_right].
    unfold totalWait in IH. rewrite (IH (S i)). unfold backoffDelay.
    rewrite <- inject_Z_plus. apply inject_Z_injective.
    rewrite !Nat2Z.inj_succ, !Z.pow_succ_r by lia. ring.
Qed.

Variable operationName correlationId : string.
Variable maxRetries backoffMs : Z.
Variable jitter : bool.
Variable threshold : Z.
Variable w : @World T.

Local Abbreviation loop :=
  (retryLoop operationName correlationId maxRetries backoffMs jitter threshold w).

(** The events of a loop that succeeds at attempt [i + d]. *)
Lemma retryLoop_success_trace fuel : forall i st d v,
  (d < fuel)%nat ->
  Z.of_nat (i + fuel) = maxRetries + 1 ->
  (forall j, (i <= j < i + d)%nat -> operation w j = None) ->
  operation w (i + d) = Some v ->
  (loop fuel i st).2
  = (failedAttempts w backoffMs jitter i d ++ [Invoked (i + d)])%list.
Proof.
  induction fuel as [|fuel IH]; intros i st d v Hd Hfuel Hfail Hok; [lia|].
  destruct d as [|d].
  - rewrite Nat.add_0_r in *. cbn [retryLoop]. by rewrite Hok.
  - rewrite retryLoop_failed_attempt by (try apply Hfail; lia).
    pose proof (IH (S i) (recordFailure threshold w st i) d v) as Htrace.
    destruct (loop fuel (S i) (recordFailure threshold w st i))
      as [[res st''] events].
    cbn in Htrace |- *. rewrite Htrace; [|lia | lia | intros j ?; apply Hfail; lia
                                         | by rewrite <- Hok; f_equal; lia].
    unfold failedAttempts. cbn. repeat f_equal. lia.
Qed.

(** The events of a loop all of whose attempts fail. *)
Lemma retryLoop_exhausted_trace fuel : forall i st,
  (0 < fuel)%nat ->
  Z.of_nat (i + fuel) = maxRetries + 1 ->
  (forall j, (i <= j < i + fuel)%nat -> operation w j = None) ->
  (loop fuel i st).2
  = (failedAttempts w backoffMs jitter i (fuel - 1)
       ++ [Invoked (i + fuel - 1); DeadLettered operationName correlationId])%list.
Proof.
  induction fuel as [|fuel IH]; intros i st Hpos Hfuel Hfail; [lia|].
  destruct fuel as [|fuel].
  - cbn [retryLoop]. rewrite Hfail by lia.
    destruct (Z.ltb_spec (Z.of_nat i) maxRetries); [lia|].
    cbn. repeat f_equal; lia.
  - rewrite retryLoop_failed_attempt by (try apply Hfail; lia).
    pose proof (IH (S i) (recordFailure threshold w st i)) as Htrace.
    destruct (loop (S fuel) (S i) (recordFailure threshold w st i))
      as [[res st''] events].
    cbn [snd] in Htrace |- *.
    rewrite Htrace; [|lia | lia | intros j ?; apply Hfail; lia].
    unfold failedAttempts.
    replace (S (S fuel) - 1)%nat with (S fuel) by lia.
    replace (S fuel - 1)%nat with fuel by lia.
    replace (i + S (S fuel) - 1)%nat with (S i + S fuel - 1)%nat by lia.
    reflexivity.
Qed.

End ExecutorMore.

Section ExecutorCalls.
Import Retry.
Context {T : Type}.

Local Abbreviation run w operationName correlationId options st :=
  (retryLoop operationName correlationId (maxRetriesOf options)
     (backoffMsOf options) (jitterOf options) (thresholdOf options) w
     (Z.to_nat (maxRetriesOf options + 1)) 0 st).

(** A closed breaker, or none yet: the retry loop runs from it. *)
Lemma execute_closed (w : @World T) operationName correlationId options now
    (states : gmap string CircuitBreakerState) :
  isOpen (breakerOf operationName states) = false ->
  executeAsyncSideEffect w operationName correlationId options now states
  = let '(res, st', events) :=
      run w operationName correlationId options (breakerOf operationName states) in
    (res, <[operationName := st']> states, events).
Proof.
  intros Hclosed. unfold executeAsyncSideEffect.
  fold (breakerOf operationName states). by rewrite Hclosed.
Qed.

(** Unless the breaker is open and within its reset delay, the loop runs
    from some state of the breaker. *)
Lemma execute_runs (w : @World T) operationName correlationId options now
    (states : gmap string CircuitBreakerState) :
  (isOpen (breakerOf operationName states) = true ->
   resetMsOf options < now - lastFailureTime (breakerOf operationName states)) ->
  exists st0,
    executeAsyncSideEffect w operationName correlationId options now states
    = let '(res, st', events) :=
        run w operationName correlationId options st0 in
      (res, <[operationName := st']> states, events).
Proof.
  intros Hreset.
  destruct (isOpen (breakerOf operationName states)) eqn:Hopen.
  - unfold breakerOf in *.
    destruct (states !! operationName) as [st|] eqn:Hst; [|done].
    change (default _ (Some st)) with st in Hopen, Hreset.
    eexists. apply (execute_half_open w _ _ _ _ _ st); [done | done |].
    by apply Hreset.
  - eexists. by apply execute_closed.
Qed.

(** X15: when the operation fails [d] times and then succeeds, with
    [d <= maxRetries], and the breaker is not rejecting calls, the
    executor returns the value of the operation after exactly [d + 1]
    calls, each failure followed by its backoff wait; nothing is
    dead-lettered, and the breaker ends closed with its counter at 0. *)
Theorem retry_succeeds_after_failures (w : @World T)
    (operationName correlationId : string) (options : option RetryOptions)
    (now : Z) (states : gmap string CircuitBreakerState) (d : nat) (v : T) :
  (isOpen (breakerOf operationName states) = true ->
   resetMsOf options < now - lastFailureTime (breakerOf operationName states)) ->
  Z.of_nat d <= maxRetriesOf options ->
  (forall j, (j < d)%nat -> operation w j = None) ->
  operation w d = Some v ->
  let out := executeAsyncSideEffect w operationName correlationId options now
               states in
  out.1.1 = Some v
  /\ out.2 = (failedAttempts w (backoffMsOf options) (jitterOf options) 0 d
                ++ [Invoked d])%list
  /\ invocationCount out.2 = S d
  /\ deadLetters out.2 = []
  /\ exists st', out.1.2 !! operationName = Some st'
                 /\ failures st' = 0 /\ isOpen st' = false.
Proof.
  intros Hreset Hd Hfail Hok. cbn zeta.
  destruct (execute_runs w operationName correlationId options now states Hreset)
    as (st0 & ->).
  destruct (retryLoop_succeeds operationName correlationId
              (maxRetriesOf options) (backoffMsOf options) (jitterOf options)
              (thresholdOf options) w
              (Z.to_nat (maxRetriesOf options + 1)) 0 st0 d v)
    as (st' & Hloop & Hf & Ho); [lia | lia | intros j ?; apply Hfail; lia | done |].
  pose proof (retryLoop_success_trace operationName correlationId
                (maxRetriesOf options) (backoffMsOf options) (jitterOf options)
                (thresholdOf options) w
                (Z.to_nat (maxRetriesOf options + 1)) 0 st0 d v) as Htrace.
  destruct (retryLoop _ _ _ _ _ _ _ _ 0 st0) as [[res st''] events].
  cbn [fst snd] in Hloop, Htrace |- *. injection Hloop as -> ->.
  rewrite Htrace; [|lia | lia | intros j ?; apply Hfail; lia | done].
  destruct (invocationCount_failedAttempts w (backoffMsOf options)
              (jitterOf options) d 0) as [Hc Hdl].
  split; [done|]. split; [done|].
  split; [rewrite invocationCount_app, Hc; cbn; lia|].
  split; [by rewrite deadLetters_app, Hdl|].
  exists st'. by rewrite lookup_insert_eq.
Qed.

(** X16: when every attempt fails on a closed breaker, the executor
    returns nothing after exactly [maxRetries + 1] calls of the
    operation, hands the operation to the dead-letter path once, and
    leaves the breaker with each failure counted, the time of the last
    failure, and open exactly if the count has reached the threshold. *)
Theorem retries_exhausted_dead_letter (w : @World T)
    (operationName correlationId : string) (options : option RetryOptions)
    (now : Z) (states : gmap string CircuitBreakerState) :
  isOpen (breakerOf operationName states) = false ->
  0 <= maxRetriesOf options ->
  (forall j, Z.of_nat j <= maxRetriesOf options -> operation w j = None) ->
  let out := executeAsyncSideEffect w operationName correlationId options now
               states in
  let count := failures (breakerOf operationName states)
               + maxRetriesOf options + 1 in
  out.1.1 = None
  /\ invocationCount out.2 = Z.to_nat (maxRetriesOf options + 1)
  /\ deadLetters out.2 = [(operationName, correlationId)]
  /\ last out.2 = Some (DeadLettered operationName correlationId)
  /\ out.1.2 !! operationName
     = Some {| failures := count;
               isOpen := thresholdOf options <=? count;
               lastFailureTime := failedAt w (Z.to_nat (maxRetriesOf options)) |}.
Proof.
  intros Hclosed Hretries Hfail. cbn zeta.
  rewrite execute_closed by done.
  set (st0 := breakerOf operationName states) in *.
  set (fuel := Z.to_nat (maxRetriesOf options + 1)).
  assert (0 < fuel)%nat as Hpos by lia.
  destruct (retryLoop_exhausted operationName correlationId
              (maxRetriesOf options) (backoffMsOf options) (jitterOf options)
              (thresholdOf options) w fuel 0 st0)
    as (st' & Hloop & Hf & Hl & Ho); [lia | lia | intros j ?; apply Hfail; lia |].
  pose proof (retryLoop_exhausted_trace operationName correlationId
                (maxRetriesOf options) (backoffMsOf options) (jitterOf options)
                (thresholdOf options) w fuel 0 st0) as Htrace.
  destruct (retryLoop _ _ _ _ _ _ _ fuel 0 st0) as [[res st''] events].
  cbn [fst snd] in Hloop, Htrace |- *. injection Hloop as -> ->.
  rewrite Htrace; [|lia | lia | intros j ?; apply Hfail; lia].
  destruct (invocationCount_failedAttempts w (backoffMsOf options)
              (jitterOf options) (fuel - 1) 0) as [Hc Hdl].
  split; [done|].
  split; [rewrite invocationCount_app, Hc; cbn; lia|].
  split; [by rewrite deadLetters_app, Hdl|].
  split; [by rewrite last_app|].
  rewrite lookup_insert_eq. f_equal.
  destruct st' as [f o l]. cbn in *. subst f o l. rewrite Hclosed. cbn.
  f_equal.
  - lia.
  - f_equal. lia.
  - f_equal. lia.
Qed.

(** X17: once the failures of a call bring the counter of a closed
    breaker to the threshold, the breaker is open, and every call for that
    operation kind made no later than [circuitBreakerResetMs] after the
    last failure returns nothing at once: the operation is not called and
    the breaker is left as it is. *)
Theorem breaker_opens_then_fails_fast (w w2 : @World T)
    (operationName correlationId correlationId2 : string)
    (options options2 : option RetryOptions) (now now2 : Z)
    (states : gmap string CircuitBreakerState) :
  isOpen (breakerOf operationName states) = false ->
  0 <= maxRetriesOf options ->
  (forall j, Z.of_nat j <= maxRetriesOf options -> operation w j = None) ->
  thresholdOf options
    <= failures (breakerOf operationName states) + maxRetriesOf options + 1 ->
  now2 - failedAt w (Z.to_nat (maxRetriesOf options)) <= resetMsOf options2 ->
  let out := executeAsyncSideEffect w operationName correlationId options now
               states in
  (isOpen <$> out.1.2 !! operationName) = Some true
  /\ executeAsyncSideEffect w2 operationName correlationId2 options2 now2 out.1.2
     = (None, out.1.2, []).
Proof.
  intros Hclosed Hretries Hfail Hthreshold Hwindow. cbn zeta.
  rewrite execute_closed by done.
  set (st0 := breakerOf operationName states) in *.
  set (fuel := Z.to_nat (maxRetriesOf options + 1)).
  destruct (retryLoop_exhausted operationName correlationId
              (maxRetriesOf options) (backoffMsOf options) (jitterOf options)
              (thresholdOf options) w fuel 0 st0)
    as (st' & Hloop & Hf & Hl & Ho); [lia | lia | intros j ?; apply Hfail; lia |].
  destruct (retryLoop _ _ _ _ _ _ _ fuel 0 st0) as [[res st''] events].
  cbn [fst snd] in Hloop |- *. injection Hloop as -> ->.
  assert (isOpen st' = true) as Hopen.
  { rewrite Ho, Hclosed. cbn. apply Z.leb_le. lia. }
  rewrite lookup_insert_eq. cbn. split; [by rewrite Hopen|].
  apply (execute_fail_fast w2 _ _ _ _ _ st');
    [by rewrite lookup_insert_eq | done |].
  rewrite Hl. replace (0 + fuel - 1)%nat with (Z.to_nat (maxRetriesOf options)) by lia.
  done.
Qed.

(** X18: the breakers of different operation kinds do not influence one
    another: whatever a call for one kind does, the state of every other
    kind is as it was. *)
Theorem breaker_kinds_independent (w : @World T)
    (operationName correlationId : string) (options : option RetryOptions)
    (now : Z) (states : gmap string CircuitBreakerState) (other : string) :
  other <> operationName ->
  getCircuitBreakerStatus other
    (executeAsyncSideEffect w operationName correlationId options now states).1.2
  = getCircuitBreakerStatus other states.
Proof.
  intros Hne. unfold getCircuitBreakerStatus, executeAsyncSideEffect.
  destruct (isOpen _); [destruct (_ <? _); [|done]|];
    destruct (retryLoop _ _ _ _ _ _ _ _ _ _) as [[res st'] events]; cbn;
    by rewrite lookup_insert_ne.
Qed.

(** X19: a manual reset forgets the breaker: its status reads as absent,
    and the next call for the kind runs the operation whatever state the
    breaker was in, counting failures from zero. *)
Theorem reset_breaker_runs_next_call (w : @World T)
    (operationName correlationId : string) (options : option RetryOptions)
    (now : Z) (states : gmap string CircuitBreakerState) :
  0 <= maxRetriesOf options ->
  let cleared := resetCircuitBreaker operationName states in
  let out := executeAsyncSideEffect w operationName correlationId options now
               cleared in
  getCircuitBreakerStatus operationName cleared = None
  /\ head out.2 = Some (Invoked 0)
  /\ ((forall j, Z.of_nat j <= maxRetriesOf options -> operation w j = None) ->
      failures <$> out.1.2 !! operationName = Some (maxRetriesOf options + 1)).
Proof.
  intros Hretries. cbn zeta.
  assert (resetCircuitBreaker operationName states !! operationName = None)
    as Hnone by apply lookup_delete_eq.
  split; [done|].
  assert (breakerOf operationName (resetCircuitBreaker operationName states)
          = {| failures := 0; isOpen := false; lastFailureTime := 0 |}) as Hfresh
    by (unfold breakerOf; by rewrite Hnone).
  rewrite execute_closed by (by rewrite Hfresh).
  rewrite Hfresh.
  set (st0 := {| failures := 0; isOpen := false; lastFailureTime := 0 |}).
  assert (Z.to_nat (maxRetriesOf options + 1)
          = S (Z.to_nat (maxRetriesOf options))) as Hfuel by lia.
  rewrite Hfuel. set (fuel := Z.to_nat (maxRetriesOf options)).
  split.
  - pose proof (retryLoop_invokes operationName correlationId
                  (maxRetriesOf options) (backoffMsOf options)
                  (jitterOf options) (thresholdOf options) w fuel 0 st0) as Hhead.
    by destruct (retryLoop _ _ _ _ _ _ _ (S fuel) 0 st0) as [[? ?] ?].
  - intros Hfail.
    destruct (retryLoop_exhausted operationName correlationId
                (maxRetriesOf options) (backoffMsOf options)
                (jitterOf options) (thresholdOf options) w (S fuel) 0 st0)
      as (st' & Hloop & Hf & _); [lia | lia | intros j ?; apply Hfail; lia |].
    destruct (retryLoop _ _ _ _ _ _ _ (S fuel) 0 st0) as [[res st''] events].
    cbn [fst snd] in Hloop |- *. injection Hloop as -> ->.
    rewrite lookup_insert_eq. cbn. f_equal. rewrite Hf. cbn. lia.
Qed.

(** X20: without jitter the waits double from [backoffMs] on, so a call
    that succeeds after [d] failures has waited
    [backoffMs * (2^d - 1)] milliseconds in all. *)
Theorem total_backoff_without_jitter (w : @World T)
    (operationName correlationId : string) (options : option RetryOptions)
    (now : Z) (states : gmap string CircuitBreakerState) (d : nat) (v : T) :
  jitterOf options = false ->
  (isOpen (breakerOf operationName states) = true ->
   resetMsOf options < now - lastFailureTime (breakerOf operationName states)) ->
  Z.of_nat d <= maxRetriesOf options ->
  (forall j, (j < d)%nat -> operation w j = None) ->
  operation w d = Some v ->
  (totalWait
     (executeAsyncSideEffect w operationName correlationId options now states).2
   == inject_Z (backoffMsOf options * (2 ^ Z.of_nat d - 1)))%Q.
Proof.
  intros Hjitter Hreset Hd Hfail Hok.
  destruct (execute_runs w operationName correlationId options now states Hreset)
    as (st0 & ->).
  pose proof (retryLoop_success_trace operationName correlationId
                (maxRetriesOf options) (backoffMsOf options) (jitterOf options)
                (thresholdOf options) w
                (Z.to_nat (maxRetriesOf options + 1)) 0 st0 d v) as Htrace.
  destruct (retryLoop _ _ _ _ _ _ _ _ 0 st0) as [[res st''] events].
  cbn [fst snd] in Htrace |- *.
  rewrite Htrace; [|lia | lia | intros j ?; apply Hfail; lia | done].
  rewrite totalWait_app, Hjitter, totalWait_failedAttempts_plain.
  cbn [totalWait fold_right]. rewrite Qplus_0_r.
  change (Z.of_nat 0) with 0. rewrite Z.pow_0_r, Z.mul_1_r. reflexivity.
Qed.

End ExecutorCalls.

(** X21: with jitter the wait after attempt [i] lies between half and
    one and a half times [backoffMs * 2^i]: at least the half, and
    strictly less than one and a half, for every value in [[0, 1)] that
    [Math.random()] can return. *)
Theorem jitter_delay_bounds (backoffMs : Z) (i : nat) (rnd : Q) :
  0 < backoffMs -> (0 <= rnd)%Q -> (rnd < 1)%Q ->
  let base := inject_Z (backoffMs * 2 ^ Z.of_nat i) in
  (base * (1 # 2) <= Retry.backoffDelay backoffMs i true rnd)%Q
  /\ (Retry.backoffDelay backoffMs i true rnd < base * (3 # 2))%Q.
Proof.
  intros Hb H0 H1. cbn zeta. unfold Retry.backoffDelay.
  assert (0 < backoffMs * 2 ^ Z.of_nat i) as Hpos
    by (apply Z.mul_pos_pos; [done | apply Z.pow_pos_nonneg; lia]).
  set (base := backoffMs * 2 ^ Z.of_nat i) in *.
  destruct rnd as [a b]. unfold Qle, Qlt in *. cbn in *. nia.
Qed.

(** ** The idempotency middleware, beyond replays *)

Section MiddlewareMore.
Import Idempotency.
Context {App : Type}.

Lemma matches_length p : forall s,
  matches p s = true -> String.length s = length p.
Proof.
  induction p as [|cl p IH]; intros [|c s]; cbn; try done.
  intros [_ H]%andb_true_iff. by rewrite (IH s H).
Qed.

Lemma matches_get p : forall s n cl,
  matches p s = true -> p !! n = Some cl ->
  exists c, String.get n s = Some c /\ inClass cl c = true.
Proof.
  induction p as [|cl' p IH]; intros [|c s] n cl; cbn; try done.
  intros [Hc H]%andb_true_iff. destruct n as [|n]; cbn.
  - intros [= <-]. eauto.
  - intros Hn. apply (IH s n cl H Hn).
Qed.

Lemma valid_key_shape k :
  isValidKey k = true ->
  String.length k = 36%nat
  /\ String.get 14 k = Some "4"%char
  /\ Forall (fun n => String.get n k = Some "-"%char) [8; 13; 18; 23]%nat.
Proof.
  intros H. unfold isValidKey in H.
  split; [by rewrite (matches_length _ _ H)|].
  split.
  - destruct (matches_get uuidPattern k 14 Four H eq_refl) as (c & -> & Hc).
    cbn in Hc. by apply bool_decide_eq_true in Hc as ->.
  - repeat constructor.
    + destruct (matches_get uuidPattern k 8 Dash H eq_refl) as (c & -> & Hc).
      cbn in Hc. by apply bool_decide_eq_true in Hc as ->.
    + destruct (matches_get uuidPattern k 13 Dash H eq_refl) as (c & -> & Hc).
      cbn in Hc. by apply bool_decide_eq_true in Hc as ->.
    + destruct (matches_get uuidPattern k 18 Dash H eq_refl) as (c & -> & Hc).
      cbn in Hc. by apply bool_decide_eq_true in Hc as ->.
    + destruct (matches_get uuidPattern k 23 Dash H eq_refl) as (c & -> & Hc).
      cbn in Hc. by apply bool_decide_eq_true in Hc as ->.
Qed.

(** X22: a key that is not empty and not of the shape of a version-4
    UUID, be it that it is not 36 characters long, that its 15th
    character is not 4, or that one of the four dashes is missing, is
    answered 400 before the cache is consulted: the handler is not called
    and neither cache nor application state changes. *)
Theorem malformed_key_rejected (req : @Req App) (st : State) (k : string) :
  idempotencyKey req = Some k ->
  k <> "" ->
  String.length k <> 36%nat
  \/ String.get 14 k <> Some "4"%char
  \/ Exists (fun n => String.get n k <> Some "-"%char) [8; 13; 18; 23]%nat ->
  idempotencyMiddleware req st
  = ({| response := invalidKeyResponse; nextCalled := false |}, st).
Proof.
  intros Hk Hne Hshape.
  assert (isValidKey k = false) as Hinvalid.
  { destruct (isValidKey k) eqn:Hv; [|done].
    destruct (valid_key_shape k Hv) as (Hlen & H4 & Hdash).
    destruct Hshape as [?|[?|Hex]]; [done | done |].
    apply Exists_exists in Hex as (n & Hin & Hn).
    rewrite Forall_forall in Hdash. by destruct (Hn (Hdash n Hin)). }
  unfold idempotencyMiddleware. destruct st as [cache app]. rewrite Hk.
  destruct k; [done|]. by rewrite Hinvalid.
Qed.

Lemma find_remove k l : LRUCache.find k (LRUCache.remove k l) = None.
Proof.
  unfold LRUCache.find, LRUCache.remove.
  induction l as [|e l IH]; [done|]. cbn.
  destruct (bool_decide (LRUCache.key e = k)) eqn:He; cbn; [done|].
  by rewrite He.
Qed.

Lemma get_miss_absent k now c :
  (LRUCache.get k now c).1 = None ->
  LRUCache.find k (LRUCache.items (LRUCache.get k now c).2) = None.
Proof.
  unfold LRUCache.get.
  destruct (LRUCache.find k (LRUCache.items c)) as [e|] eqn:Hfind; [|done].
  destruct (LRUCache.isStale c e now); [|done].
  intros _. apply find_remove.
Qed.

(** What the middleware does with a well-formed key the cache misses. *)
Lemma middleware_miss k (req : @Req App) cache app :
  idempotencyKey req = Some k -> isValidKey k = true ->
  (LRUCache.get k (servedAt req) cache).1 = None ->
  idempotencyMiddleware req (cache, app)
  = ({| response := (next req app).1; nextCalled := true |},
     (recordJson k (next req app).1 (servedAt req)
        (LRUCache.get k (servedAt req) cache).2,
      (next req app).2)).
Proof.
  intros Hk Hvalid Hmiss. unfold idempotencyMiddleware. rewrite Hk.
  destruct k; [done|]. rewrite Hvalid. cbn [negb].
  destruct (LRUCache.get _ _ cache) as [[found|] c']; [done|].
  by destruct (next req app).
Qed.

(** Under a well-formed key the handler runs only on a miss. *)
Lemma middleware_called_miss k (req : @Req App) cache app :
  idempotencyKey req = Some k -> isValidKey k = true ->
  nextCalled (idempotencyMiddleware req (cache, app)).1 = true ->
  (LRUCache.get k (servedAt req) cache).1 = None.
Proof.
  intros Hk Hvalid. unfold idempotencyMiddleware. rewrite Hk.
  destruct k; [done|]. rewrite Hvalid. cbn [negb].
  by destruct (LRUCache.get _ _ cache) as [[found|] c'].
Qed.

(** X23: a failed attempt can be retried under the same key: when the
    handler's answer to a request with a well-formed key is outside the
    2xx range, the next request with that key, whenever it comes, is
    served by its handler again and gets that handler's answer. *)
Theorem failed_request_is_retried (k : string) (req1 req2 : @Req App)
    (cache : LRUCache.t) (app : App) :
  let served1 := idempotencyMiddleware req1 (cache, app) in
  let served2 := idempotencyMiddleware req2 served1.2 in
  idempotencyKey req1 = Some k ->
  isValidKey k = true ->
  idempotencyKey req2 = Some k ->
  nextCalled served1.1 = true ->
  ~ (200 <= statusCode (response served1.1) < 300) ->
  nextCalled served2.1 = true
  /\ response served2.1 = (next req2 served1.2.2).1
  /\ served2.2.2 = (next req2 served1.2.2).2.
Proof.
  cbn zeta. intros Hk1 Hvalid Hk2 Hcalled Herror.
  pose proof (middleware_called_miss k req1 cache app Hk1 Hvalid Hcalled) as Hmiss.
  rewrite (middleware_miss k req1 cache app Hk1 Hvalid Hmiss) in Herror |- *.
  cbn [fst snd response] in Herror |- *.
  rewrite error_response_not_recorded by done.
  pose proof (get_miss_absent k (servedAt req1) cache Hmiss) as Habsent.
  set (c1 := (LRUCache.get k (servedAt req1) cache).2) in *.
  assert ((LRUCache.get k (servedAt req2) c1).1 = None) as Hmiss2
    by (unfold LRUCache.get; by rewrite Habsent).
  by rewrite (middleware_miss k req2 c1 _ Hk2 Hvalid Hmiss2).
Qed.

Lemma remove_keys k l :
  NoDup (LRUCache.key <$> l) ->
  NoDup (LRUCache.key <$> LRUCache.remove k l)
  /\ (k ∉ LRUCache.key <$> LRUCache.remove k l)
  /\ (forall e, e ∈ LRUCache.remove k l -> e ∈ l).
Proof.
  unfold LRUCache.remove.
  induction l as [|e l IH]; cbn.
  - intros _. split; [constructor|]. split; [apply not_elem_of_nil | done].
  - intros [Hnotin Hnd]%NoDup_cons. destruct (IH Hnd) as (IH1 & IH2 & IH3).
    destruct (decide (LRUCache.key e = k)) as [He|He].
    + rewrite bool_decide_eq_true_2 by done. cbn.
      split; [done|]. split; [done|]. intros e' ?. right. by apply IH3.
    + rewrite bool_decide_eq_false_2 by done. cbn.
      split; [|split].
      * apply NoDup_cons. split; [|done].
        intros (e' & Hk' & Hin)%list_elem_of_fmap. apply Hnotin.
        apply list_elem_of_fmap. exists e'. split; [done | by apply IH3].
      * intros [?|?]%elem_of_cons; [congruence | done].
      * intros e' [->|?]%elem_of_cons; [by left | right; by apply IH3].
Qed.

Lemma find_Some_key k l e :
  LRUCache.find k l = Some e -> LRUCache.key e = k /\ e ∈ l.
Proof.
  unfold LRUCache.find. intros [Hin Hk]%List.find_some.
  split; [by apply bool_decide_eq_true in Hk | by apply list_elem_of_In].
Qed.

Lemma find_Some_remove_shorter k l e :
  LRUCache.find k l = Some e ->
  (S (length (LRUCache.remove k l)) <= length l)%nat.
Proof.
  unfold LRUCache.find, LRUCache.remove.
  induction l as [|e' l IH]; [done|]. cbn.
  destruct (bool_decide (LRUCache.key e' = k)); cbn.
  - intros _. pose proof (remove_length k l). unfold LRUCache.remove in *. lia.
  - intros H. specialize (IH H). lia.
Qed.

Lemma get_keeps_invariant k now c :
  cacheInvariant c -> cacheInvariant (LRUCache.get k now c).2.
Proof.
  intros (Hall & Hnd & Hlen). unfold LRUCache.get.
  destruct (LRUCache.find k (LRUCache.items c)) as [e|] eqn:Hfind; [|done].
  destruct (remove_keys k _ Hnd) as (Hnd' & Hnotin & Hsub).
  apply find_Some_key in Hfind as Hkey. destruct Hkey as [Hkey Hin].
  pose proof (find_Some_remove_shorter _ _ _ Hfind) as Hshort.
  rewrite Forall_forall in Hall.
  destruct (LRUCache.isStale c e now); unfold cacheInvariant; cbn.
  - split; [apply Forall_forall; intros e' ?; by apply Hall, Hsub|].
    split; [done|]. pose proof (remove_length k (LRUCache.items c)). lia.
  - split; [|split; [|lia]].
    + apply Forall_cons. split; [by apply Hall|].
      apply Forall_forall. intros e' ?. by apply Hall, Hsub.
    + apply NoDup_cons. split; [by rewrite Hkey | done].
Qed.

Lemma set_keeps_invariant k v now c :
  isValidKey k = true -> 200 <= status v < 300 ->
  cacheInvariant c -> cacheInvariant (LRUCache.set k v now c).
Proof.
  intros Hvalid Hstatus (Hall & Hnd & Hlen).
  destruct (remove_keys k _ Hnd) as (Hnd' & Hnotin & Hsub).
  rewrite Forall_forall in Hall.
  set (new := {| LRUCache.key := k; LRUCache.value := v; LRUCache.start := now |}).
  assert (Forall (fun e => isValidKey (LRUCache.key e) = true
                           /\ 200 <= status (LRUCache.value e) < 300)
            (new :: LRUCache.remove k (LRUCache.items c))) as Hall'.
  { apply Forall_cons. split; [done|].
    apply Forall_forall. intros e' ?. by apply Hall, Hsub. }
  assert (NoDup (LRUCache.key <$> new :: LRUCache.remove k (LRUCache.items c)))
    as Hnd'' by (cbn; by apply NoDup_cons).
  unfold cacheInvariant, LRUCache.set. cbn [LRUCache.items LRUCache.withItems LRUCache.max].
  fold new. split; [|split].
  - by apply Forall_take.
  - rewrite fmap_take. eapply sublist_NoDup; [exact Hnd'' | apply sublist_take].
  - rewrite length_take. lia.
Qed.

Lemma middleware_keeps_invariant (req : @Req App) cache app :
  cacheInvariant cache ->
  cacheInvariant (idempotencyMiddleware req (cache, app)).2.1
  /\ LRUCache.max (idempotencyMiddleware req (cache, app)).2.1 = LRUCache.max cache.
Proof.
  intros Hinv. unfold idempotencyMiddleware.
  destruct (idempotencyKey req) as [k|]; [|by destruct (next req app)].
  destruct (decide (k = "")) as [->|Hne]; [by destruct (next req app)|].
  assert (forall A (x y : A),
            match k with "" => x | String _ _ => y end = y) as Hmatch
    by (intros; by destruct k).
  rewrite Hmatch. destruct (isValidKey k) eqn:Hvalid; cbn [negb]; [|done].
  pose proof (get_keeps_invariant k (servedAt req) cache Hinv) as Hinv'.
  destruct (get_params k (servedAt req) cache) as [Hm _].
  destruct (LRUCache.get k (servedAt req) cache) as [[found|] c']; [done|].
  destruct (next req app) as [res app']. cbn in *.
  unfold recordJson.
  destruct (Z.leb_spec 200 (statusCode res)), (Z.ltb_spec (statusCode res) 300);
    cbn; try done.
  split; [|done]. apply set_keeps_invariant; [done | cbn; lia | done].
Qed.

(** X24: whatever requests are served, starting from the empty cache of
    the module, the cache never holds more than 500 entries, no key is in
    it twice, and every entry was recorded under a well-formed key with a
    status in the 2xx range. *)
Theorem cache_stays_well_formed (reqs : list (@Req App)) (app : App) :
  let cache := (serveAll reqs (idempotencyCache, app)).1 in
  (length (LRUCache.items cache) <= 500)%nat
  /\ NoDup (LRUCache.key <$> LRUCache.items cache)
  /\ Forall (fun e => isValidKey (LRUCache.key e) = true
                      /\ 200 <= status (LRUCache.value e) < 300)
       (LRUCache.items cache).
Proof.
  cbn zeta.
  assert (forall reqs cache (app : App),
            cacheInvariant cache ->
            cacheInvariant (serveAll reqs (cache, app)).1
            /\ LRUCache.max (serveAll reqs (cache, app)).1 = LRUCache.max cache)
    as Hall.
  { clear. induction reqs as [|req reqs IH]; intros cache app Hinv; [done|].
    cbn [serveAll].
    destruct (middleware_keeps_invariant req cache app Hinv) as [Hinv' Hm].
    destruct (idempotencyMiddleware req (cache, app)) as [served [c1 app1]].
    cbn in *. destruct (IH c1 app1 Hinv') as [? ?]. split; [done | congruence]. }
  destruct (Hall reqs idempotencyCache app) as [(Hf & Hnd & Hlen) Hm].
  { split; [constructor|]. split; [constructor | cbn; lia]. }
  rewrite Hm in Hlen. cbn in Hlen. done.
Qed.

End MiddlewareMore.

(** ** A replayed PUT *)

Section IdempotentUpdate.
Import Idempotency.
Variable cfg : Config.
Variable dates : DateLib.

(** A PUT answered 200 has stored the report one version up. *)
Lemma updateReport_ok_stored req uuid now s :
  statusCode (ReportsController.updateReport cfg dates req uuid now s).1 = 200 ->
  exists cur,
    DataStore.getReport (Request.id req) s = Some cur
    /\ Report.version
         <$> reports (ReportsController.updateReport cfg dates req uuid now s).2
               !! Request.id req
       = Some (Report.version cur + 1).
Proof.
  destruct (Request.validation req) as [|e es] eqn:Hval.
  2:{ unfold ReportsController.updateReport, ReportsController.tryUpdateReport.
      by rewrite Hval. }
  destruct (DataStore.getReport (Request.id req) s) as [cur|] eqn:Hget.
  2:{ unfold ReportsController.updateReport, ReportsController.tryUpdateReport.
      by rewrite Hval, Hget. }
  destruct (updateReport_on_active cfg dates req uuid now s cur Hval Hget)
    as (out & _ & _ & ->).
  destruct (allowed out); cbn; [|done].
  intros _. exists cur. split; [done|]. by rewrite lookup_insert_eq.
Qed.

(** X25: with the update endpoint placed behind the idempotency
    middleware (the routes of the repository do not mount it), a PUT sent
    twice under the same key is applied once: when the first is served by
    the endpoint and answered 200, the second, served within the
    time-to-live, gets the same status and body without reaching the
    endpoint, the store is left as the first PUT left it, and the version
    of the report is up by exactly 1. *)
Theorem replayed_update_applied_once (k : string)
    (req : Request.t UpdateReportRequest.t) (uuid1 uuid2 : string)
    (t1 t2 : Z) (cache : LRUCache.t) (s : InMemoryStore) :
  let served1 :=
    idempotencyMiddleware (putUnderKey cfg dates k req uuid1 t1) (cache, s) in
  let served2 :=
    idempotencyMiddleware (putUnderKey cfg dates k req uuid2 t2) served1.2 in
  isValidKey k = true ->
  (0 < LRUCache.max cache)%nat ->
  t2 - t1 <= LRUCache.ttl cache ->
  nextCalled served1.1 = true ->
  statusCode (response served1.1) = 200 ->
  nextCalled served2.1 = false
  /\ statusCode (response served2.1) = 200
  /\ body (response served2.1) = body (response served1.1)
  /\ served2.2.2 = served1.2.2
  /\ exists cur,
       DataStore.getReport (Request.id req) s = Some cur
       /\ Report.version <$> reports served2.2.2 !! Request.id req
          = Some (Report.version cur + 1).
Proof.
  cbn zeta. intros Hvalid Hmax Httl Hcalled Hstatus.
  set (req1 := putUnderKey cfg dates k req uuid1 t1) in *.
  set (req2 := putUnderKey cfg dates k req uuid2 t2) in *.
  destruct (first_request_recorded k req1 cache s eq_refl Hvalid Hmax Hcalled)
    as (Hrec & _ & Ht); [lia|].
  pose proof (middleware_called_miss k req1 cache s eq_refl Hvalid Hcalled)
    as Hmiss.
  pose proof (middleware_miss k req1 cache s eq_refl Hvalid Hmiss) as Hfirst.
  rewrite Hfirst in Hrec, Ht, Hstatus |- *.
  cbn [fst snd response] in Hrec, Ht, Hstatus |- *.
  set (c1 := recordJson k _ _ _) in *.
  destruct (get_recorded k _ (servedAt req1) _ (servedAt req2) c1 Hrec)
    as (c2 & Hget & _); [cbn; lia|].
  assert (idempotencyMiddleware req2 (c1, (next req1 s).2)
          = ({| response := {| statusCode := statusCode (next req1 s).1;
                               headers := [];
                               body := body (next req1 s).1 |};
                nextCalled := false |}, (c2, (next req1 s).2))) as Hsecond.
  { unfold idempotencyMiddleware. cbn [idempotencyKey req2 putUnderKey].
    destruct k; [done|]. rewrite Hvalid. cbn [negb]. by rewrite Hget. }
  rewrite Hsecond. cbn [fst snd response nextCalled statusCode body].
  split; [done|]. split; [done|]. split; [done|]. split; [done|].
  by apply updateReport_ok_stored.
Qed.

End IdempotentUpdate.

(** ** Users of the store *)

(** X26: the usage of a user is written under the user's id: for an id
    the store does not know the write fails with NotFound and changes
    nothing; otherwise the user reads back with the new usage and the
    same identity, role and tier, and the other users and all reports are
    as they were. *)
Theorem updateUserStorage_then_get (id : string) (newStorageUsed now : Z)
    (s : InMemoryStore) :
  let out := UserStore.updateUserStorage id newStorageUsed now s in
  (out.1 = Throw (NotFoundError "User") <-> UserStore.getUser id s = None)
  /\ (out.1 = Throw (NotFoundError "User") -> out.2 = s)
  /\ (forall u, UserStore.getUser id s = Some u ->
        out.1 = Ok tt
        /\ exists u', UserStore.getUser id out.2 = Some u'
                      /\ User.storageUsed u' = newStorageUsed
                      /\ User.updatedAt u' = now
                      /\ User.id u' = User.id u
                      /\ User.role u' = User.role u
                      /\ User.tier u' = User.tier u)
  /\ (forall id', id' <> id ->
        UserStore.getUser id' out.2 = UserStore.getUser id' s)
  /\ reports out.2 = reports s.
Proof.
  cbn zeta. unfold UserStore.updateUserStorage, UserStore.getUser.
  destruct (users s !! id) as [u|] eqn:Hu; cbn.
  - split; [split; done|]. split; [done|]. split.
    + intros u' [= <-]. split; [done|]. rewrite lookup_insert_eq. eauto 10.
    + split; [|done]. intros id' Hne. by rewrite lookup_insert_ne.
  - split; [split; done|]. split; [done|]. split; [done|]. done.
Qed.

(** ** The further properties at the sample data *)

Lemma admin_update_denied_iff_editor_limit_witness :
  exists out,
    BusinessRulesService.evaluateAllRules config utcDate (date 2025 3 1)
      (updateOf DataStore.adminUser DataStore.report1 None) = Ok out
    /\ (allowed out = false
        <-> (User.id DataStore.adminUser
               ∉ Report.concurrentEditors DataStore.report1)
            /\ maxConcurrentEditors config
               <= Z.of_nat (length (Report.concurrentEditors DataStore.report1))).
Proof.
  apply (admin_update_denied_iff_editor_limit config utcDate (date 2025 3 1)
           DataStore.adminUser DataStore.report1 None).
  reflexivity.
Defined.

Lemma upload_decided_by_quota_witness :
  exists out,
    BusinessRulesService.evaluateAllRules config utcDate (date 2025 3 1)
      (uploadOf DataStore.readerUser None 1024) = Ok out
    /\ allowed out
       = allowed (BusinessRulesService.checkAttachmentQuota config
                    (uploadOf DataStore.readerUser None 1024))
    /\ (allowed out = false ->
        out = BusinessRulesService.checkAttachmentQuota config
                (uploadOf DataStore.readerUser None 1024)).
Proof.
  apply (upload_decided_by_quota config utcDate (date 2025 3 1)
           (uploadOf DataStore.readerUser None 1024)).
  reflexivity.
Defined.

Lemma auto_archived_report_rejects_non_admin_witness :
  let s' := DataStore.autoArchiveOldReports config utcDate (date 2027 6 1)
              DataStore.initial in
  ReportsController.updateReport config utcDate MoreExamples.editReport1
    "audit-1" (date 2027 6 2) s'
  = ({| statusCode := 403; headers := [];
        body := Failure "Only ADMIN users can edit archived reports"
                  [("authorization",
                    "Only ADMIN users can edit archived reports")] |}, s').
Proof.
  apply (auto_archived_report_rejects_non_admin config utcDate
           MoreExamples.editReport1 "audit-1" (date 2027 6 1) (date 2027 6 2)
           DataStore.initial DataStore.report1).
  - vm_compute. reflexivity.
  - reflexivity.
  - vm_compute. reflexivity.
  - reflexivity.
  - vm_compute. discriminate.
Defined.

Lemma retry_succeeds_after_failures_witness :
  let out := Retry.executeAsyncSideEffect BreakerExample.flaky
               BreakerExample.kind "corr-1" None 0 ∅ in
  out.1.1 = Some tt
  /\ out.2 = (failedAttempts BreakerExample.flaky (backoffMsOf None)
                (jitterOf None) 0 1 ++ [Retry.Invoked 1])%list
  /\ invocationCount out.2 = 2%nat
  /\ deadLetters out.2 = []
  /\ exists st', out.1.2 !! BreakerExample.kind = Some st'
                 /\ Retry.failures st' = 0 /\ Retry.isOpen st' = false.
Proof.
  apply (retry_succeeds_after_failures BreakerExample.flaky BreakerExample.kind
           "corr-1" None 0 ∅ 1 tt).
  - vm_compute. discriminate.
  - vm_compute. discriminate.
  - intros [|j] Hj; [reflexivity | lia].
  - reflexivity.
Defined.

Lemma retries_exhausted_dead_letter_witness :
  let out := Retry.executeAsyncSideEffect BreakerExample.failing
               BreakerExample.kind "corr-1" None 0 ∅ in
  let count := Retry.failures (breakerOf BreakerExample.kind ∅)
               + maxRetriesOf None + 1 in
  out.1.1 = None
  /\ invocationCount out.2 = Z.to_nat (maxRetriesOf None + 1)
  /\ deadLetters out.2 = [(BreakerExample.kind, "corr-1")]
  /\ last out.2 = Some (Retry.DeadLettered BreakerExample.kind "corr-1")
  /\ out.1.2 !! BreakerExample.kind
     = Some {| Retry.failures := count;
               Retry.isOpen := thresholdOf None <=? count;
               Retry.lastFailureTime :=
                 Retry.failedAt BreakerExample.failing
                   (Z.to_nat (maxRetriesOf None)) |}.
Proof.
  apply (retries_exhausted_dead_letter BreakerExample.failing
           BreakerExample.kind "corr-1" None 0 ∅).
  - reflexivity.
  - vm_compute. discriminate.
  - reflexivity.
Defined.

Lemma breaker_opens_then_fails_fast_witness :
  let out := Retry.executeAsyncSideEffect BreakerExample.failing
               BreakerExample.kind "corr-1" None 0 MoreExamples.strained in
  (Retry.isOpen <$> out.1.2 !! BreakerExample.kind) = Some true
  /\ Retry.executeAsyncSideEffect BreakerExample.flaky BreakerExample.kind
       "corr-2" None 30411 out.1.2
     = (None, out.1.2, []).
Proof.
  apply (breaker_opens_then_fails_fast BreakerExample.failing
           BreakerExample.flaky BreakerExample.kind "corr-1" "corr-2" None None
           0 30411 MoreExamples.strained).
  - reflexivity.
  - vm_compute. discriminate.
  - reflexivity.
  - vm_compute. discriminate.
  - vm_compute. discriminate.
Defined.

Lemma breaker_kinds_independent_witness :
  Retry.getCircuitBreakerStatus BreakerExample.kind
    (Retry.executeAsyncSideEffect BreakerExample.failing
       "report_update_side_effect" "corr-1" None 40000
       BreakerExample.opened).1.2
  = Retry.getCircuitBreakerStatus BreakerExample.kind BreakerExample.opened.
Proof.
  apply (breaker_kinds_independent BreakerExample.failing
           "report_update_side_effect" "corr-1" None 40000
           BreakerExample.opened BreakerExample.kind).
  vm_compute. discriminate.
Defined.

Lemma reset_breaker_runs_next_call_witness :
  let cleared := Retry.resetCircuitBreaker BreakerExample.kind
                   BreakerExample.opened in
  let out := Retry.executeAsyncSideEffect BreakerExample.failing
               BreakerExample.kind "corr-1" None 1 cleared in
  Retry.getCircuitBreakerStatus BreakerExample.kind cleared = None
  /\ head out.2 = Some (Retry.Invoked 0)
  /\ ((forall j, Z.of_nat j <= maxRetriesOf None ->
                 Retry.operation BreakerExample.failing j = None) ->
      Retry.failures <$> out.1.2 !! BreakerExample.kind
      = Some (maxRetriesOf None + 1)).
Proof.
  apply (reset_breaker_runs_next_call BreakerExample.failing
           BreakerExample.kind "corr-1" None 1 BreakerExample.opened).
  vm_compute. discriminate.
Defined.

Lemma total_backoff_without_jitter_witness :
  (totalWait
     (Retry.executeAsyncSideEffect BreakerExample.flaky BreakerExample.kind
        "corr-1" (Some MoreExamples.plain) 0 ∅).2
   == inject_Z (backoffMsOf (Some MoreExamples.plain) * (2 ^ Z.of_nat 1 - 1)))%Q.
Proof.
  apply (total_backoff_without_jitter BreakerExample.flaky BreakerExample.kind
           "corr-1" (Some MoreExamples.plain) 0 ∅ 1 tt).
  - reflexivity.
  - vm_compute. discriminate.
  - vm_compute. discriminate.
  - intros [|j] Hj; [reflexivity | lia].
  - reflexivity.
Defined.

Lemma jitter_delay_bounds_witness :
  let base := inject_Z (1000 * 2 ^ Z.of_nat 2) in
  (base * (1 # 2) <= Retry.backoffDelay 1000 2 true (3 # 4))%Q
  /\ (Retry.backoffDelay 1000 2 true (3 # 4) < base * (3 # 2))%Q.
Proof.
  apply (jitter_delay_bounds 1000 2 (3 # 4)).
  - lia.
  - vm_compute. discriminate.
  - vm_compute. reflexivity.
Defined.

Lemma malformed_key_rejected_witness :
  Idempotency.idempotencyMiddleware MoreExamples.malformed
    (Idempotency.idempotencyCache, 0%nat)
  = ({| Idempotency.response := Idempotency.invalidKeyResponse;
        Idempotency.nextCalled := false |},
     (Idempotency.idempotencyCache, 0%nat)).
Proof.
  apply (malformed_key_rejected MoreExamples.malformed
           (Idempotency.idempotencyCache, 0%nat) "not-a-uuid").
  - reflexivity.
  - discriminate.
  - left. vm_compute. discriminate.
Defined.

Lemma failed_request_is_retried_witness :
  let served1 :=
    Idempotency.idempotencyMiddleware MoreExamples.failedFirst
      (Idempotency.idempotencyCache, 0%nat) in
  let served2 :=
    Idempotency.idempotencyMiddleware ReplayExample.replay served1.2 in
  Idempotency.nextCalled served2.1 = true
  /\ Idempotency.response served2.1
     = (Idempotency.next ReplayExample.replay served1.2.2).1
  /\ served2.2.2 = (Idempotency.next ReplayExample.replay served1.2.2).2.
Proof.
  apply (failed_request_is_retried ReplayExample.key MoreExamples.failedFirst
           ReplayExample.replay Idempotency.idempotencyCache 0%nat).
  - reflexivity.
  - reflexivity.
  - reflexivity.
  - reflexivity.
  - vm_compute. intros [_ H]. discriminate H.
Defined.

Lemma replayed_update_applied_once_witness :
  let served1 :=
    Idempotency.idempotencyMiddleware
      (putUnderKey config utcDate ReplayExample.key MoreExamples.editReport1
         "audit-1" (date 2025 3 1))
      (Idempotency.idempotencyCache, DataStore.initial) in
  let served2 :=
    Idempotency.idempotencyMiddleware
      (putUnderKey config utcDate ReplayExample.key MoreExamples.editReport1
         "audit-2" (date 2025 3 1 + 2000))
      served1.2 in
  Idempotency.nextCalled served2.1 = false
  /\ statusCode (Idempotency.response served2.1) = 200
  /\ body (Idempotency.response served2.1)
     = body (Idempotency.response served1.1)
  /\ served2.2.2 = served1.2.2
  /\ exists cur,
       DataStore.getReport (Request.id MoreExamples.editReport1)
         DataStore.initial = Some cur
       /\ Report.version
            <$> reports served2.2.2 !! Request.id MoreExamples.editReport1
          = Some (Report.version cur + 1).
Proof.
  apply (replayed_update_applied_once config utcDate ReplayExample.key
           MoreExamples.editReport1 "audit-1" "audit-2" (date 2025 3 1)
           (date 2025 3 1 + 2000) Idempotency.idempotencyCache
           DataStore.initial).
  - reflexivity.
  - vm_compute. lia.
  - vm_compute. discriminate.
  - vm_compute. reflexivity.
  - vm_compute. reflexivity.
Defined.
